(** * Neighborhood Intel Station backend: a shallow embedding

    The development follows [intel_station_backend.py].  Python values
    that come out of [json.loads] are an inductive type, the module-level
    [state] dictionary is a record, [state['last_update']] is a finite map
    from source names to clock readings, and every [try: ... except
    Exception] block is a computation in a small state-and-exception
    monad in which the writes made before a [raise] stay visible, exactly
    as assignments to the global dictionary do.

    Conventions.
    - A Python [float] is an IEEE 754 binary64 number, the primitive type
      [float]: its arithmetic rounds to nearest, ties to even, and
      overflows to an infinity, as the processor's does.  A float literal
      of the source is written as the same decimal here and denotes the
      same binary64 number.
    - A Python [int] is an integer of [Z]; converting one to a float
      rounds, and raises [OverflowError] when it is out of range.
    - The functions of the [math] module that go through the C library
      ([sin], [cos], [atan2]) and the power operator are taken through the
      class [PyMath]; what is assumed of them is stated where it is used.
    - Strings are [string], sequences of characters with code points
      below 256.
    - The interpreter's parsers [int(str)] and [float(str)] are taken
      through the class [PyRuntime]; nothing is assumed about them.
    - What the outside world answers (HTTP bodies, [subprocess.run]
      results, [time.time()] readings) is passed in as an argument; clock
      readings are rationals. *)

From Stdlib Require Import ZArith QArith String Ascii List Bool Lia Floats.
From stdpp Require Import base option list strings gmap.
Import ListNotations.

Local Open Scope string_scope.

#[local] Set Warnings "-register-all".
#[local] Set Warnings "-inexact-float".

(** ** Python values *)

Inductive pyval : Type :=
| PNone
| PBool (b : bool)
| PInt (z : Z)
| PFloat (f : float)
| PStr (s : string)
| PList (l : list pyval)
| PDict (d : list (string * pyval)).

(** [int(s)] and [float(s)] for a [str] argument; [None] is [ValueError]. *)
Class PyRuntime : Type := {
  int_of_str : string -> option Z;
  float_of_str : string -> option float
}.

Declare Scope py_scope.
Delimit Scope py_scope with py.

(** Expressions that may raise: [None] stands for any [Exception]. *)
Notation "x <-? e ;; k" :=
  (match e with Some x => k | None => None end)
  (at level 200, e at level 99, k at level 200, right associativity,
   only parsing) : py_scope.

Local Open Scope py_scope.

(** [f == 0]: both zeros, and no other float. *)
Definition float_is_zero (f : float) : bool := (f =? 0)%float.

(** Truth value testing, as used by [or], [if x] and [not x]. *)
Definition truthy (v : pyval) : bool :=
  match v with
  | PNone => false
  | PBool b => b
  | PInt z => negb (Z.eqb z 0)
  | PFloat f => negb (float_is_zero f)
  | PStr s => negb (String.eqb s "")
  | PList l => match l with [] => false | _ => true end
  | PDict d => match d with [] => false | _ => true end
  end.

(** [a or b] once both operands are evaluated; the short circuit is
    written out where the right operand can raise. *)
Definition py_or (a b : pyval) : pyval := if truthy a then a else b.

Definition is_none (v : pyval) : bool :=
  match v with PNone => true | _ => false end.

Fixpoint dict_get (k : string) (d : list (string * pyval)) : option pyval :=
  match d with
  | [] => None
  | (k', v) :: d' => if String.eqb k k' then Some v else dict_get k d'
  end.

(** [v[k]] for a string key: [KeyError] on a dictionary without the key,
    [TypeError] on everything else. *)
Definition getitem (v : pyval) (k : string) : option pyval :=
  match v with
  | PDict d => dict_get k d
  | _ => None
  end.

(** [v[i]] for a non-negative integer literal [i]. *)
Definition index (v : pyval) (i : nat) : option pyval :=
  match v with
  | PList l => nth_error l i
  | PStr s => option_map (fun c => PStr (String c "")) (String.get i s)
  | _ => None
  end.

(** [v == lit] for a string literal. *)
Definition eq_str (v : pyval) (lit : string) : bool :=
  match v with
  | PStr s => String.eqb s lit
  | _ => false
  end.

(** ** Numbers *)

(** [int], [float] and [bool], the last being a subclass of [int]. *)
Definition is_number (v : pyval) : bool :=
  match v with
  | PBool _ | PInt _ | PFloat _ => true
  | _ => false
  end.

(** The float nearest to an integer, ties to even; an infinity when the
    integer is out of range. *)
Definition float_of_Z (z : Z) : float :=
  SF2Prim (binary_normalize prec emax z 0 false).

(** The float an [int] converts to, in [float(z)] and where an [int]
    meets a float in arithmetic: [OverflowError] when the integer is too
    large for a finite float. *)
Definition float_of_int (z : Z) : option float :=
  let f := float_of_Z z in
  if is_infinity f then None else Some f.

Definition Z_of_bool (b : bool) : Z := if b then 1%Z else 0%Z.

(** The operand of a float operation: a float as it is, an [int] or a
    [bool] converted; [TypeError] for any other value. *)
Definition as_float (v : pyval) : option float :=
  match v with
  | PBool b => float_of_int (Z_of_bool b)
  | PInt z => float_of_int z
  | PFloat f => Some f
  | _ => None
  end.

(** [float(v)]. *)
Definition py_float `{PyRuntime} (v : pyval) : option float :=
  match v with
  | PBool b => float_of_int (Z_of_bool b)
  | PInt z => float_of_int z
  | PFloat f => Some f
  | PStr s => float_of_str s
  | _ => None
  end.

(** [v * c] for a float literal [c]: [TypeError] unless [v] is a number. *)
Definition mul_float (v : pyval) (c : float) : option float :=
  x <-? as_float v ;; Some (x * c)%float.

(** [int(f)] for a float: truncation towards zero, exact; [ValueError]
    on a NaN, [OverflowError] on an infinity. *)
Definition int_of_float (f : float) : option Z :=
  match Prim2SF f with
  | S754_zero _ => Some 0%Z
  | S754_finite negative m e =>
      let magnitude := Z.shiftl (Zpos m) e in
      Some (if negative then (- magnitude)%Z else magnitude)
  | S754_infinity _ | S754_nan => None
  end.

(** A zero, or a finite float whose exponent is at most [b]. *)
Definition small (b : Z) (x : spec_float) : Prop :=
  match x with
  | S754_zero _ => True
  | S754_finite _ _ e => (e <= b)%Z
  | S754_infinity _ | S754_nan => False
  end.

(** ** Strings *)

(** The characters below 256 for which [str.isspace] holds, which are
    the ones [str.strip] removes: U+0009 to U+000D, U+001C to U+0020,
    U+0085 and U+00A0. *)
Definition is_space (c : ascii) : bool :=
  let n := nat_of_ascii c in
  (Nat.leb 9 n && Nat.leb n 13) || (Nat.leb 28 n && Nat.leb n 32)
  || Nat.eqb n 133 || Nat.eqb n 160.

Fixpoint lstrip (s : string) : string :=
  match s with
  | EmptyString => EmptyString
  | String c s' => if is_space c then lstrip s' else s
  end.

Fixpoint rstrip (s : string) : string :=
  match s with
  | EmptyString => EmptyString
  | String c s' =>
      match rstrip s' with
      | EmptyString => if is_space c then EmptyString else String c EmptyString
      | r => String c r
      end
  end.

(** [s.strip()]. *)
Definition strip (s : string) : string := rstrip (lstrip s).

(** [needle in hay]. *)
Fixpoint contains (needle hay : string) : bool :=
  String.prefix needle hay ||
  match hay with
  | EmptyString => false
  | String _ hay' => contains needle hay'
  end.

(** [s.split(sep)] for a non-empty [sep]: left to right, occurrences do
    not overlap.  [skip] counts the characters of a separator still to be
    passed over, [cur] is the piece being read. *)
Fixpoint split_go (sep s : string) (skip : nat) (cur : string) : list string :=
  match s with
  | EmptyString => [cur]
  | String c s' =>
      match skip with
      | S k => split_go sep s' k cur
      | O =>
          if String.prefix sep s
          then cur :: split_go sep s' (String.length sep - 1) EmptyString
          else split_go sep s' 0 (cur ++ String c EmptyString)
      end
  end.

Definition split (sep s : string) : list string := split_go sep s 0 EmptyString.

(** [l[-n:]]. *)
Definition last_n {A} (n : nat) (l : list A) : list A :=
  skipn (List.length l - n) l.

Definition nl : string := String (ascii_of_nat 10) EmptyString.

(** ** Configuration and shared state *)

Module CONFIG.
Definition sdr_host : string := "192.168.1.192".
Definition sdr_user : string := "mem".
Definition epaper_host : string := "192.168.1.220".
Definition epaper_user : string := "epaper".
Definition location_lat : float := 29.4953%float.
Definition location_lon : float := (-95.1547)%float.
End CONFIG.

(** The values [state['sdr_status']] takes. *)
Inductive status : Type :=
| unknown | offline | unreachable | armed | recording | sleeping | running.

(** [state['iss']]. *)
Record iss_t : Type := {
  iss_lat : pyval;
  iss_lon : pyval;
  iss_alt : pyval;
  iss_velocity : pyval;
  iss_visibility : string;
  iss_timestamp : pyval
}.

(** One entry of [state['aircraft']]. *)
Record aircraft_t : Type := {
  icao24 : pyval;
  callsign : string;
  country : pyval;
  lat : pyval;
  lon : pyval;
  alt_m : pyval;
  alt_ft : Z;
  velocity_kt : Z;
  heading : pyval;
  vertical_rate : pyval;
  on_ground : pyval;
  squawk : pyval
}.

Record state : Type := {
  sdr_status : status;
  sdr_log : list string;
  iss : iss_t;
  iss_crew : list pyval;
  iss_passes : pyval;
  aircraft : list aircraft_t;
  last_update : gmap string Q
}.

Definition initial_state : state := {|
  sdr_status := unknown;
  sdr_log := [];
  iss := {| iss_lat := PInt 0; iss_lon := PInt 0; iss_alt := PInt 0;
            iss_velocity := PInt 0; iss_visibility := "";
            iss_timestamp := PInt 0 |};
  iss_crew := [];
  iss_passes := PList [];
  aircraft := [];
  last_update := empty
|}.

Definition set_sdr_status (x : status) (s : state) : state :=
  {| sdr_status := x; sdr_log := sdr_log s; iss := iss s;
     iss_crew := iss_crew s; iss_passes := iss_passes s;
     aircraft := aircraft s; last_update := last_update s |}.

Definition set_sdr_log (x : list string) (s : state) : state :=
  {| sdr_status := sdr_status s; sdr_log := x; iss := iss s;
     iss_crew := iss_crew s; iss_passes := iss_passes s;
     aircraft := aircraft s; last_update := last_update s |}.

Definition set_iss (x : iss_t) (s : state) : state :=
  {| sdr_status := sdr_status s; sdr_log := sdr_log s; iss := x;
     iss_crew := iss_crew s; iss_passes := iss_passes s;
     aircraft := aircraft s; last_update := last_update s |}.

Definition set_iss_lat (x : pyval) (s : state) : state :=
  set_iss {| iss_lat := x; iss_lon := iss_lon (iss s); iss_alt := iss_alt (iss s);
             iss_velocity := iss_velocity (iss s);
             iss_visibility := iss_visibility (iss s);
             iss_timestamp := iss_timestamp (iss s) |} s.

Definition set_iss_lon (x : pyval) (s : state) : state :=
  set_iss {| iss_lat := iss_lat (iss s); iss_lon := x; iss_alt := iss_alt (iss s);
             iss_velocity := iss_velocity (iss s);
             iss_visibility := iss_visibility (iss s);
             iss_timestamp := iss_timestamp (iss s) |} s.

Definition set_iss_timestamp (x : pyval) (s : state) : state :=
  set_iss {| iss_lat := iss_lat (iss s); iss_lon := iss_lon (iss s);
             iss_alt := iss_alt (iss s);
             iss_velocity := iss_velocity (iss s);
             iss_visibility := iss_visibility (iss s);
             iss_timestamp := x |} s.

Definition set_iss_crew (x : list pyval) (s : state) : state :=
  {| sdr_status := sdr_status s; sdr_log := sdr_log s; iss := iss s;
     iss_crew := x; iss_passes := iss_passes s;
     aircraft := aircraft s; last_update := last_update s |}.

Definition set_iss_passes (x : pyval) (s : state) : state :=
  {| sdr_status := sdr_status s; sdr_log := sdr_log s; iss := iss s;
     iss_crew := iss_crew s; iss_passes := x;
     aircraft := aircraft s; last_update := last_update s |}.

Definition set_aircraft (x : list aircraft_t) (s : state) : state :=
  {| sdr_status := sdr_status s; sdr_log := sdr_log s; iss := iss s;
     iss_crew := iss_crew s; iss_passes := iss_passes s;
     aircraft := x; last_update := last_update s |}.

(** [state['last_update'][source] = t]. *)
Definition stamp (source : string) (t : Q) (s : state) : state :=
  {| sdr_status := sdr_status s; sdr_log := sdr_log s; iss := iss s;
     iss_crew := iss_crew s; iss_passes := iss_passes s;
     aircraft := aircraft s;
     last_update := <[source := t]> (last_update s) |}.

(** ** Statements: state passing with exceptions

    A statement maps the state before to the state after and either a
    value or [None] when it raised.  The state is threaded through a raise:
    what was assigned before stays assigned. *)

Definition M (A : Type) : Type := state -> state * option A.

Definition ret {A} (a : A) : M A := fun s => (s, Some a).

Definition bind {A B} (m : M A) (k : A -> M B) : M B :=
  fun s => match m s with
           | (s', Some a) => k a s'
           | (s', None) => (s', None)
           end.

(** An expression evaluated for its value; raises when it is [None]. *)
Definition eval {A} (e : option A) : M A := fun s => (s, e).

(** An assignment to a key of [state]. *)
Definition assign (f : state -> state) : M unit := fun s => (f s, Some tt).

(** [try: body except Exception: handler], where the handler does not
    raise. *)
Definition try_except (body : M unit) (handler : state -> state) : state -> state :=
  fun s => match body s with
           | (s', Some _) => s'
           | (s', None) => handler s'
           end.

(** A handler that only prints. *)
Definition print_error : state -> state := fun s => s.

Notation "x <- m ;; k" := (bind m (fun x => k))
  (at level 200, m at level 99, k at level 200, right associativity,
   only parsing) : py_scope.
Notation "m ;;; k" := (bind m (fun _ => k))
  (at level 200, k at level 200, right associativity, only parsing) : py_scope.

(** ** What the outside world answers *)

(** [json.loads(urlopen(req, timeout).read())]: the decoded body, or any
    exception of the request or of the decoder. *)
Inductive http_result : Type :=
| Loaded (data : pyval)
| HttpRaised.

Definition loaded (r : http_result) : option pyval :=
  match r with Loaded data => Some data | HttpRaised => None end.

(** [subprocess.run(argv, capture_output=True, text=True, timeout=...)]:
    a completed process, or an exception ([TimeoutExpired], [OSError])
    with its [str(e)]. *)
Record completed : Type := {
  returncode : Z;
  stdout : string;
  stderr : string
}.

Inductive run_result : Type :=
| Completed (result : completed)
| RunRaised (msg : string).

Definition Qgtb (a b : Q) : bool := negb (Qle_bool a b).

(** Iterating over a value: a list gives its items, a string its
    characters, a dictionary its keys; anything else is [TypeError]. *)
Definition iter_items (v : pyval) : option (list pyval) :=
  match v with
  | PList l => Some l
  | PStr s => Some (map (fun c => PStr (String c EmptyString)) (list_ascii_of_string s))
  | PDict d => Some (map (fun kv => PStr (fst kv)) d)
  | _ => None
  end.

(** [v[:n]]. *)
Definition slice_to (n : nat) (v : pyval) : option pyval :=
  match v with
  | PList l => Some (PList (firstn n l))
  | PStr s => Some (PStr (String.substring 0 n s))
  | _ => None
  end.

(** [v.get(k)]: only dictionaries have the method. *)
Definition get_method (v : pyval) (k : string) : option pyval :=
  match v with
  | PDict d => Some (match dict_get k d with Some x => x | None => PNone end)
  | _ => None
  end.

(** [v.strip()]: only strings have the method. *)
Definition strip_method (v : pyval) : option string :=
  match v with
  | PStr s => Some (strip s)
  | _ => None
  end.

Section Updates.
Context `{PyRuntime}.

(** *** ISS tracking *)

Definition iss_coordinate (data : pyval) (axis : string) : option float :=
  pos <-? getitem data "iss_position" ;;
  v <-? getitem pos axis ;;
  py_float v.

Definition iss_position_try (r : http_result) (t : Q) : M unit :=
  data <- eval (loaded r) ;;
  message <- eval (getitem data "message") ;;
  if eq_str message "success" then
    la <- eval (iss_coordinate data "latitude") ;;
    assign (set_iss_lat (PFloat la)) ;;;
    lo <- eval (iss_coordinate data "longitude") ;;
    assign (set_iss_lon (PFloat lo)) ;;;
    ts <- eval (getitem data "timestamp") ;;
    assign (set_iss_timestamp ts) ;;;
    assign (stamp "iss_position" t)
  else ret tt.

Definition update_iss_position (r : http_result) (t : Q) : state -> state :=
  try_except (iss_position_try r t) print_error.

(** [[p for p in people if p['craft'] == 'ISS']]. *)
Fixpoint crew_of (people : list pyval) : option (list pyval) :=
  match people with
  | [] => Some []
  | p :: rest =>
      craft <-? getitem p "craft" ;;
      tl <-? crew_of rest ;;
      Some (if eq_str craft "ISS" then p :: tl else tl)
  end.

Definition iss_crew_try (r : http_result) (t : Q) : M unit :=
  data <- eval (loaded r) ;;
  message <- eval (getitem data "message") ;;
  if eq_str message "success" then
    crew <- eval (people <-? getitem data "people" ;;
                  items <-? iter_items people ;;
                  crew_of items) ;;
    assign (set_iss_crew crew) ;;;
    assign (stamp "iss_crew" t)
  else ret tt.

Definition update_iss_crew (r : http_result) (t : Q) : state -> state :=
  try_except (iss_crew_try r t) print_error.

Definition iss_passes_try (r : http_result) (t : Q) : M unit :=
  data <- eval (loaded r) ;;
  message <- eval (getitem data "message") ;;
  if eq_str message "success" then
    response <- eval (getitem data "response") ;;
    assign (set_iss_passes response) ;;;
    assign (stamp "iss_passes" t)
  else ret tt.

Definition update_iss_passes (r : http_result) (t : Q) : state -> state :=
  try_except (iss_passes_try r t) print_error.

(** *** SDR node status *)

(** The [if]/[elif] chain on the last log line, taken when the capture
    process is running. *)
Definition status_of_line (last_line : string) : status :=
  if contains "Recording" last_line then recording
  else if contains "Sleeping" last_line then sleeping
  else if contains "Starting capture" last_line then armed
  else if contains "Waiting" last_line then armed
  else running.

(** [parts[0].strip().split('\n') if parts[0].strip() else []] *)
Definition parse_log (parts : list string) : list string :=
  let head := strip (nth 0 parts EmptyString) in
  if negb (String.eqb head EmptyString) then split nl head else [].

(** [int(parts[1].strip()) if len(parts) > 1 else 0] *)
Definition parse_running (parts : list string) : option Z :=
  match parts with
  | _ :: p1 :: _ => int_of_str (strip p1)
  | _ => Some 0%Z
  end.

Definition sdr_status_try (r : run_result) (t : Q) : M unit :=
  match r with
  | RunRaised _ => eval None
  | Completed result =>
      if Z.eqb (returncode result) 0 then
        let parts := split "---SDR_STATUS---" (stdout result) in
        let log_lines := parse_log parts in
        count <- eval (parse_running parts) ;;
        assign (set_sdr_log (last_n 10 log_lines)) ;;;
        (if Z.ltb 0 count then
           let last_line := List.last log_lines EmptyString in
           assign (set_sdr_status (status_of_line last_line))
         else
           assign (set_sdr_status offline)) ;;;
        assign (stamp "sdr" t)
      else ret tt
  end.

Definition update_sdr_status (r : run_result) (t : Q) : state -> state :=
  try_except (sdr_status_try r t) (set_sdr_status unreachable).

(** *** Aircraft tracking *)

(** [s[5] is not None and s[6] is not None]. *)
Definition has_position (s : pyval) : option bool :=
  s5 <-? index s 5 ;;
  if is_none s5 then Some false
  else s6 <-? index s 6 ;; Some (negb (is_none s6)).

(** [s[7] or s[13] or 0]. *)
Definition altitude (s : pyval) : option pyval :=
  s7 <-? index s 7 ;;
  if truthy s7 then Some s7
  else s13 <-? index s 13 ;; Some (py_or s13 (PInt 0)).

(** [s[i] or 0]. *)
Definition or_zero (s : pyval) (i : nat) : option pyval :=
  v <-? index s i ;; Some (py_or v (PInt 0)).

(** [int(v * c)]. *)
Definition int_times (v : pyval) (c : float) : option Z :=
  x <-? mul_float v c ;; int_of_float x.

(** The literals [3.281] and [1.944]. *)
Definition feet_per_metre : float := 3.281%float.
Definition knots_per_mps : float := 1.944%float.

(** The dictionary literal appended for one state vector, its items
    evaluated in source order. *)
Definition aircraft_record (s : pyval) : option aircraft_t :=
  s0 <-? index s 0 ;;
  s1 <-? index s 1 ;;
  cs <-? strip_method (py_or s1 (PStr EmptyString)) ;;
  s2 <-? index s 2 ;;
  s6 <-? index s 6 ;;
  s5 <-? index s 5 ;;
  am <-? altitude s ;;
  am' <-? altitude s ;;
  ft <-? int_times am' feet_per_metre ;;
  v <-? or_zero s 9 ;;
  kt <-? int_times v knots_per_mps ;;
  hd <-? or_zero s 10 ;;
  vr <-? or_zero s 11 ;;
  s8 <-? index s 8 ;;
  s14 <-? index s 14 ;;
  Some {| icao24 := s0; callsign := cs; country := s2; lat := s6; lon := s5;
          alt_m := am; alt_ft := ft; velocity_kt := kt; heading := hd;
          vertical_rate := vr; on_ground := s8; squawk := s14 |}.

(** The [for] loop filling the local list [aircraft]. *)
Fixpoint collect (vectors : list pyval) : option (list aircraft_t) :=
  match vectors with
  | [] => Some []
  | s :: rest =>
      p <-? has_position s ;;
      if p then
        a <-? aircraft_record s ;;
        tl <-? collect rest ;;
        Some (a :: tl)
      else collect rest
  end.

Definition parse_aircraft (data : pyval) : option (list aircraft_t) :=
  states <-? get_method data "states" ;;
  if truthy states then
    sl <-? slice_to 50 states ;;
    items <-? iter_items sl ;;
    collect items
  else Some [].

Definition aircraft_try (r : http_result) (t : Q) : M unit :=
  data <- eval (loaded r) ;;
  found <- eval (parse_aircraft data) ;;
  assign (set_aircraft found) ;;;
  assign (stamp "aircraft" t).

Definition update_aircraft (r : http_result) (t : Q) : state -> state :=
  try_except (aircraft_try r t) print_error.

End Updates.

(** ** Remote commands

    A function that runs remote commands is given the oracle answering
    [subprocess.run] and returns, next to its value, the argument vectors
    it passed to [subprocess.run], in call order. *)

Definition argv : Type := list string.
Definition Exec : Type := argv -> run_result.

Inductive outcome (A : Type) : Type :=
| Returned (a : A)
| Raised (msg : string).
Arguments Returned {A} a.
Arguments Raised {A} msg.

Definition P (A : Type) : Type := Exec -> list argv * outcome A.

Definition pret {A} (a : A) : P A := fun _ => ([], Returned a).

Definition pbind {A B} (m : P A) (k : A -> P B) : P B :=
  fun ex => match m ex with
            | (tr, Returned a) =>
                match k a ex with (tr', o) => ((tr ++ tr')%list, o) end
            | (tr, Raised msg) => (tr, Raised msg)
            end.

(** [subprocess.run(cmd, ...)]. *)
Definition run (cmd : argv) : P completed :=
  fun ex => ([cmd],
             match ex cmd with
             | Completed result => Returned result
             | RunRaised msg => Raised msg
             end).

(** A call of a function that handles its own exceptions. *)
Definition call {A} (f : Exec -> list argv * A) : P A :=
  fun ex => match f ex with (tr, a) => (tr, Returned a) end.

(** [try: body except Exception as e: return handler(str(e))]. *)
Definition try_return {A} (body : P A) (handler : string -> A) : Exec -> list argv * A :=
  fun ex => match body ex with
            | (tr, Returned a) => (tr, a)
            | (tr, Raised msg) => (tr, handler msg)
            end.

Notation "x <~ m ;; k" := (pbind m (fun x => k))
  (at level 200, m at level 99, k at level 200, right associativity,
   only parsing) : py_scope.

(** [{'success': False, 'error': msg}] *)
Definition failure (msg : string) : pyval :=
  PDict [("success", PBool false); ("error", PStr msg)].

(** [{'success': True, 'message': msg}] *)
Definition success (msg : string) : pyval :=
  PDict [("success", PBool true); ("message", PStr msg)].

Definition at_host (user host : string) : string := user ++ "@" ++ host.

(** *** e-Paper push *)

Definition scp_image_cmd (image_path : string) : argv :=
  ["scp"; "-o"; "StrictHostKeyChecking=no"; image_path;
   at_host CONFIG.epaper_user CONFIG.epaper_host ++ ":~/incoming/pushed_image.png"].

Definition display_cmd : argv :=
  ["ssh"; "-o"; "StrictHostKeyChecking=no";
   at_host CONFIG.epaper_user CONFIG.epaper_host;
   "sudo python3 ~/display_image.py ~/incoming/pushed_image.png"].

Definition push_to_epaper (image_path : string) : Exec -> list argv * pyval :=
  try_return
    (result <~ run (scp_image_cmd image_path) ;;
     if negb (Z.eqb (returncode result) 0)
     then pret (failure ("SCP failed: " ++ stderr result))
     else
       result <~ run display_cmd ;;
       if Z.eqb (returncode result) 0
       then pret (success "Image pushed to e-Paper")
       else pret (failure ("Display failed: " ++ stderr result)))
    failure.

Definition list_images_cmd : argv :=
  ["ssh"; "-o"; "ConnectTimeout=5"; "-o"; "StrictHostKeyChecking=no";
   at_host CONFIG.sdr_user CONFIG.sdr_host;
   "ls -t ~/noaa_reception/images/*.png 2>/dev/null | head -1"].

Definition local_tmp : string := "/tmp/sat_image_latest.png".

Definition download_cmd (remote_path : string) : argv :=
  ["scp"; "-o"; "StrictHostKeyChecking=no";
   at_host CONFIG.sdr_user CONFIG.sdr_host ++ ":" ++ remote_path; local_tmp].

Definition push_satellite_image : Exec -> list argv * pyval :=
  try_return
    (result <~ run list_images_cmd ;;
     if negb (Z.eqb (returncode result) 0)
        || String.eqb (strip (stdout result)) EmptyString
     then pret (failure "No satellite images found")
     else
       let remote_path := strip (stdout result) in
       _ <~ run (download_cmd remote_path) ;;
       call (push_to_epaper local_tmp))
    failure.

(** ** Background updater *)

(** What the world answers during one pass of the loop body: a response
    and a clock reading for each [update_*] call, and the reading [now]
    taken before the gated updates. *)
Record tick : Type := {
  position_resp : http_result;  position_clock : Q;
  sdr_resp : run_result;        sdr_clock : Q;
  now : Q;
  crew_resp : http_result;      crew_clock : Q;
  passes_resp : http_result;    passes_clock : Q;
  aircraft_resp : http_result;  aircraft_clock : Q
}.

Inductive source : Type :=
| src_position | src_sdr | src_crew | src_passes | src_aircraft.

(** [state['last_update'].get(key, 0)] *)
Definition last_update_get (key : string) (s : state) : Q :=
  match last_update s !! key with
  | Some t => t
  | None => 0
  end.

(** [now - state['last_update'].get(key, 0) > period] *)
Definition due (key : string) (period : Q) (w : tick) (s : state) : bool :=
  Qgtb (now w - last_update_get key s) period.

Section Scheduler.
Context `{PyRuntime}.

(** An update that runs only when it is due; the second component
    lists the source when its update was called. *)
Definition gated (go : bool) (src : source) (upd : state -> state)
    (acc : state * list source) : state * list source :=
  if go then (upd (fst acc), (snd acc ++ [src])%list) else acc.

(** One pass of the body of [while True].  No [update_*] function lets
    an exception out, so the outer handler is never entered. *)
Definition iteration (w : tick) (s : state) : state * list source :=
  let s1 := update_iss_position (position_resp w) (position_clock w) s in
  let s2 := update_sdr_status (sdr_resp w) (sdr_clock w) s1 in
  let a0 := (s2, [src_position; src_sdr]) in
  let a1 := gated (due "iss_crew" 600 w (fst a0)) src_crew
              (update_iss_crew (crew_resp w) (crew_clock w)) a0 in
  let a2 := gated (due "iss_passes" 300 w (fst a1)) src_passes
              (update_iss_passes (passes_resp w) (passes_clock w)) a1 in
  gated (due "aircraft" 15 w (fst a2)) src_aircraft
    (update_aircraft (aircraft_resp w) (aircraft_clock w)) a2.

(** The loop, run over the answers of finitely many passes; the result
    is the final state and what each pass called. *)
Fixpoint background_updater (ws : list tick) (s : state) : state * list (list source) :=
  match ws with
  | [] => (s, [])
  | w :: rest =>
      let '(s', calls) := iteration w s in
      let '(s'', later) := background_updater rest s' in
      (s'', calls :: later)
  end.

End Scheduler.

(** ** Properties of states and runs *)

(** The [try] block of an update raised when run from [s]. *)
Definition raised {A} (body : M A) (s : state) : Prop := snd (body s) = None.

(** The body was received, decoded, and carries [message == 'success']. *)
Definition envelope_ok (r : http_result) : bool :=
  match r with
  | Loaded data =>
      match getitem data "message" with
      | Some message => eq_str message "success"
      | None => false
      end
  | HttpRaised => false
  end.

(** [subprocess.run] returned with exit status zero. *)
Definition exited_zero (r : run_result) : bool :=
  match r with
  | Completed result => Z.eqb (returncode result) 0
  | RunRaised _ => false
  end.

(** A number whose absolute value is at most [bound] degrees; no NaN
    and no infinity is. *)
Definition within (bound : Z) (v : pyval) : bool :=
  match v with
  | PInt z => Z.leb (- bound) z && Z.leb z bound
  | PFloat f =>
      (float_of_Z (- bound) <=? f)%float && (f <=? float_of_Z bound)%float
  | _ => false
  end.

Definition position_in_range (s : state) : Prop :=
  within 90 (iss_lat (iss s)) = true /\ within 180 (iss_lon (iss s)) = true.

(** JSON [null] or a JSON number. *)
Definition null_or_number (v : pyval) : bool :=
  match v with
  | PNone | PInt _ | PFloat _ => true
  | _ => false
  end.

(** Every character is whitespace. *)
Fixpoint blank (s : string) : bool :=
  match s with
  | EmptyString => true
  | String c s' => is_space c && blank s'
  end.

(** No whitespace at either end: the first character is not whitespace,
    and neither is the last. *)
Definition stripped (s : string) : Prop :=
  (forall c rest, s = String c rest -> is_space c = false)
  /\ (forall front c, s = front ++ String c EmptyString -> is_space c = false).

(** [s] is [whole] without the whitespace at its two ends. *)
Definition stripped_of (whole s : string) : Prop :=
  stripped s
  /\ exists front back,
       whole = front ++ s ++ back /\ blank front = true /\ blank back = true.

(** The state vectors the loop of [update_aircraft] appends a record for. *)
Definition positioned (s : pyval) : bool :=
  match has_position s with
  | Some b => b
  | None => false
  end.

(** The loop raises at the state vector: the position test raises (the
    vector has no entry 5 or 6), or the vector has a position and an item
    of its dictionary literal raises. *)
Definition unreadable (s : pyval) : Prop :=
  has_position s = None
  \/ (has_position s = Some true /\ aircraft_record s = None).

Section Reachability.
Context `{PyRuntime}.

(** The states the program goes through: [state] as initialised at
    import, then any sequence of updates, whatever the world answers. *)
Inductive reachable : state -> Prop :=
| reach_initial : reachable initial_state
| reach_position r t s :
    reachable s -> reachable (update_iss_position r t s)
| reach_crew r t s :
    reachable s -> reachable (update_iss_crew r t s)
| reach_passes r t s :
    reachable s -> reachable (update_iss_passes r t s)
| reach_sdr r t s :
    reachable s -> reachable (update_sdr_status r t s)
| reach_aircraft r t s :
    reachable s -> reachable (update_aircraft r t s).

End Reachability.

(** The message a failed transfer is reported with. *)
Definition transfer_error (r : run_result) : string :=
  match r with
  | Completed result => "SCP failed: " ++ stderr result
  | RunRaised msg => msg
  end.

(** The listing answer after which [push_satellite_image] gives up. *)
Definition no_image (listing : completed) : bool :=
  negb (Z.eqb (returncode listing) 0)
  || String.eqb (strip (stdout listing)) EmptyString.

(** ** A runtime for the examples

    Signed decimal integer literals, which [int] of CPython reads as the
    integer and [float] as the float nearest to it; every other string
    is rejected here. *)

Definition digit_of (c : ascii) : option Z :=
  let n := nat_of_ascii c in
  if Nat.leb 48 n && Nat.leb n 57 then Some (Z.of_nat (n - 48)) else None.

Fixpoint digits (s : string) (acc : Z) : option Z :=
  match s with
  | EmptyString => Some acc
  | String c s' =>
      match digit_of c with
      | Some d => digits s' (10 * acc + d)%Z
      | None => None
      end
  end.

Definition decimal (s : string) : option Z :=
  match strip s with
  | EmptyString => None
  | String c r =>
      if Ascii.eqb c "-"%char
      then match r with
           | EmptyString => None
           | _ => option_map Z.opp (digits r 0)
           end
      else digits (String c r) 0
  end.

Definition decimal_runtime : PyRuntime := {|
  int_of_str := decimal;
  float_of_str := fun s => option_map float_of_Z (decimal s)
|}.

(** ** Example inputs *)

Definition completed_ok (out : string) : run_result :=
  Completed {| returncode := 0; stdout := out; stderr := EmptyString |}.

(** Two log lines, the sentinel, and one running capture process. *)
Definition recording_output : string :=
  "Waiting for NOAA 19" ++ nl ++ "Recording NOAA 19 at 137.1 MHz" ++ nl
  ++ "---SDR_STATUS---" ++ nl ++ "1" ++ nl.

Definition recording_state : state :=
  @update_sdr_status decimal_runtime (completed_ok recording_output) 100 initial_state.

(** [ssh] could not connect: it exits with status 255. *)
Definition ssh_refused : run_result :=
  Completed {| returncode := 255; stdout := EmptyString;
               stderr := "ssh: connect to host 192.168.1.192 port 22: Connection refused" |}.

(** Every remote command exits with status 1. *)
Definition all_denied : Exec :=
  fun _ => Completed {| returncode := 1; stdout := EmptyString;
                        stderr := "Permission denied" |}.

(** Every remote command runs out of time. *)
Definition all_time_out : Exec := fun _ => RunRaised "timed out".

Definition argv_eqb (a b : argv) : bool := bool_decide (a = b).

(** The listing names one image, the download runs out of time, the
    e-Paper node accepts everything. *)
Definition download_times_out : Exec :=
  fun cmd =>
    if argv_eqb cmd list_images_cmd
    then completed_ok ("/home/mem/noaa_reception/images/n19.png" ++ nl)
    else if argv_eqb cmd (download_cmd "/home/mem/noaa_reception/images/n19.png")
    then RunRaised "timed out"
    else completed_ok EmptyString.

(** As above, but the download exits with status 1. *)
Definition download_fails : Exec :=
  fun cmd =>
    if argv_eqb cmd list_images_cmd
    then completed_ok ("/home/mem/noaa_reception/images/n19.png" ++ nl)
    else if argv_eqb cmd (download_cmd "/home/mem/noaa_reception/images/n19.png")
    then Completed {| returncode := 1; stdout := EmptyString;
                      stderr := "scp: No such file or directory" |}
    else completed_ok EmptyString.

(** Twelve log lines, the sentinel, and one running capture process. *)
Definition twelve_lines_output : string :=
  "pass 01" ++ nl ++ "pass 02" ++ nl ++ "pass 03" ++ nl ++ "pass 04" ++ nl
  ++ "pass 05" ++ nl ++ "pass 06" ++ nl ++ "pass 07" ++ nl ++ "pass 08" ++ nl
  ++ "pass 09" ++ nl ++ "pass 10" ++ nl ++ "pass 11" ++ nl
  ++ "Sleeping until pass 12" ++ nl ++ "---SDR_STATUS---" ++ nl ++ "1" ++ nl.

(** An OpenSky state vector of seventeen entries with latitude [la]. *)
Definition vector (la : pyval) : pyval :=
  PList [PStr "a1b2c3"; PStr "UAL123  "; PStr "United States"; PInt 1700000000;
         PInt 1700000000; PFloat (-95.1)%float; la;
         PInt 1000; PBool false; PInt 100; PNone; PNone; PNone;
         PFloat 1036.3%float; PNone; PBool false; PInt 0].

(** The record stored for [vector (PInt 29)]. *)
Definition ual123 : aircraft_t := {|
  icao24 := PStr "a1b2c3"; callsign := "UAL123"; country := PStr "United States";
  lat := PInt 29; lon := PFloat (-95.1)%float;
  alt_m := PInt 1000; alt_ft := 3281; velocity_kt := 194;
  heading := PInt 0; vertical_rate := PInt 0;
  on_ground := PBool false; squawk := PNone
|}.

(** The same vector with latitude 29 and the string ['NE'] for its true
    track, entry 10, where OpenSky sends a number or [null]. *)
Definition vector_ne : pyval :=
  PList [PStr "a1b2c3"; PStr "UAL123  "; PStr "United States"; PInt 1700000000;
         PInt 1700000000; PFloat (-95.1)%float; PInt 29;
         PInt 1000; PBool false; PInt 100; PStr "NE"; PNone; PNone;
         PFloat 1036.3%float; PNone; PBool false; PInt 0].

(** The same vector with latitude 29 and barometric altitude [alt]. *)
Definition vector_at (alt : pyval) : pyval :=
  PList [PStr "a1b2c3"; PStr "UAL123  "; PStr "United States"; PInt 1700000000;
         PInt 1700000000; PFloat (-95.1)%float; PInt 29;
         alt; PBool false; PInt 100; PNone; PNone; PNone;
         PFloat 1036.3%float; PNone; PBool false; PInt 0].

(** 120 state vectors, the first one without a latitude. *)
Definition upstream120 : list pyval :=
  vector PNone :: repeat (vector (PFloat 29.5%float)) 119.

Definition opensky (vectors : list pyval) : pyval :=
  PDict [("time", PInt 1700000000); ("states", PList vectors)].

(** An Open Notify position body. *)
Definition iss_now (la lo : string) : pyval :=
  PDict [("message", PStr "success");
         ("iss_position", PDict [("latitude", PStr la); ("longitude", PStr lo)]);
         ("timestamp", PInt 1700000000)].

Definition astros : pyval :=
  PDict [("message", PStr "success");
         ("people", PList [PDict [("name", PStr "A"); ("craft", PStr "ISS")];
                           PDict [("name", PStr "B"); ("craft", PStr "Tiangong")]])].

(** A pass of the loop in which every request fails and the clock reads
    [t] where the gates are tested. *)
Definition quiet_tick (t : Q) : tick := {|
  position_resp := HttpRaised;  position_clock := t;
  sdr_resp := RunRaised "timed out";  sdr_clock := t;
  now := t;
  crew_resp := HttpRaised;  crew_clock := t;
  passes_resp := HttpRaised;  passes_clock := t;
  aircraft_resp := HttpRaised;  aircraft_clock := t
|}.

(** The crew manifest was fetched at clock reading 0. *)
Definition crew_at_zero : state :=
  update_iss_crew (Loaded astros) 0 initial_state.

(** A later manifest: A has left, C has arrived. *)
Definition relief : pyval :=
  PDict [("message", PStr "success");
         ("people", PList [PDict [("name", PStr "C"); ("craft", PStr "ISS")]])].

(** As [quiet_tick], but the crew request is answered with [body]. *)
Definition crew_tick (t : Q) (body : pyval) : tick := {|
  position_resp := HttpRaised;  position_clock := t;
  sdr_resp := RunRaised "timed out";  sdr_clock := t;
  now := t;
  crew_resp := Loaded body;  crew_clock := t;
  passes_resp := HttpRaised;  passes_clock := t;
  aircraft_resp := HttpRaised;  aircraft_clock := t
|}.

(** ** Invariants of the stored data *)

(** [p['craft'] == 'ISS'] where the lookup does not raise. *)
Definition is_iss (p : pyval) : bool :=
  match getitem p "craft" with
  | Some craft => eq_str craft "ISS"
  | None => false
  end.

(** [p['craft']] does not raise. *)
Definition has_craft (p : pyval) : bool :=
  match getitem p "craft" with
  | Some _ => true
  | None => false
  end.

(** The integer 0 of the initial state, or a float. *)
Definition zero_or_float (v : pyval) : bool :=
  match v with
  | PInt z => Z.eqb z 0
  | PFloat _ => true
  | _ => false
  end.

(** What holds of every record that went through the loop of
    [update_aircraft]. *)
Definition record_sound (a : aircraft_t) : Prop :=
  lat a <> PNone /\ lon a <> PNone
  /\ is_number (alt_m a) = true
  /\ int_times (alt_m a) feet_per_metre = Some (alt_ft a)
  /\ heading a <> PNone /\ vertical_rate a <> PNone
  /\ stripped (callsign a).

(** The keys the updates write in [state['last_update']]. *)
Definition source_keys : list string :=
  ["iss_position"; "iss_crew"; "iss_passes"; "sdr"; "aircraft"].

(** A source without an entry in [state['last_update']] still has the
    value [state] was initialised with; for the device status, that or
    ['unreachable']. *)
Definition fresh_until_stamped (s : state) : Prop :=
  (last_update s !! "iss_crew" = None -> iss_crew s = [])
  /\ (last_update s !! "iss_passes" = None -> iss_passes s = PList [])
  /\ (last_update s !! "aircraft" = None -> aircraft s = [])
  /\ (last_update s !! "sdr" = None ->
      sdr_log s = [] /\ (sdr_status s = unknown \/ sdr_status s = unreachable)).

(** A state after one successful fetch of each of four sources. *)
Definition busy_state : state :=
  update_aircraft (Loaded (opensky upstream120)) 4
    (@update_sdr_status decimal_runtime (completed_ok recording_output) 3
       (update_iss_crew (Loaded astros) 2
          (@update_iss_position decimal_runtime
             (Loaded (iss_now "51" "-1")) 1 initial_state))).

(** ** Substrings and the sentinel *)

(** [needle] occurs in [hay] as a substring. *)
Definition occurs (needle hay : string) : Prop :=
  exists pre post, hay = pre ++ needle ++ post.

Definition sentinel : string := "---SDR_STATUS---".

(** The sentinel without its last character: an occurrence of the
    sentinel that begins inside [log] in [log ++ sentinel ++ rest] lies
    within [log ++ sentinel_init]. *)
Definition sentinel_init : string := "---SDR_STATUS--".

(** ** Results of a push *)

(** The two forms a push result takes. *)
Definition push_result (res : pyval) : Prop :=
  res = success "Image pushed to e-Paper" \/ exists msg, res = failure msg.

(** [result['success']] is [True]. *)
Definition succeeded (res : pyval) : Prop :=
  getitem res "success" = Some (PBool true).

(** ** Weather data *)

(** [len(v)]. *)
Definition py_len (v : pyval) : option nat :=
  match v with
  | PList l => Some (List.length l)
  | PStr s => Some (String.length s)
  | PDict d => Some (List.length d)
  | _ => None
  end.

(** [v.get(k, default)]: only dictionaries have the method. *)
Definition get_default (v : pyval) (k : string) (default : pyval) : option pyval :=
  match v with
  | PDict d => Some (match dict_get k d with Some x => x | None => default end)
  | _ => None
  end.

(** The value returned is a Python value, [PNone] where the function
    returns [None]. *)
Definition fetch_weather_data (r : http_result) : pyval :=
  match (data <-? loaded r ;;
         if truthy data then
           n <-? py_len data ;;
           if Nat.ltb 0 n then
             first <-? index data 0 ;;
             get_default first "lastData" (PDict [])
           else Some PNone
         else Some PNone)
  with
  | Some v => v
  | None => PNone
  end.

Definition directions : list string :=
  ["N"; "NNE"; "NE"; "ENE"; "E"; "ESE"; "SE"; "SSE";
   "S"; "SSW"; "SW"; "WSW"; "W"; "WNW"; "NW"; "NNW"].

(** [int((wind_dir + 11.25) / 22.5) % 16] for a number: [OverflowError]
    when an [int] is too large for a float or the quotient is an
    infinity, [ValueError] when it is a NaN. *)
Definition wind_sector (wind_dir : pyval) : option Z :=
  x <-? as_float wind_dir ;;
  sector <-? int_of_float ((x + 11.25) / 22.5)%float ;;
  Some (sector mod 16)%Z.

(** [directions[int((wind_dir + 11.25) / 22.5) % 16] if
    isinstance(wind_dir, (int, float)) else otherwise]; [None] when the
    expression raises. *)
Definition compass (otherwise : string) (wind_dir : pyval) : option string :=
  if is_number wind_dir then
    sector <-? wind_sector wind_dir ;;
    nth_error directions (Z.to_nat sector)
  else Some otherwise.

(** [wind_compass] of [generate_weather_image]. *)
Definition wind_compass : pyval -> option string := compass "--".

(** [wc] of [generate_dashboard_image]. *)
Definition wc : pyval -> option string := compass "".

(** The sector of a whole number of degrees from 0 upwards, in exact
    arithmetic: the integer part of [(z + 11.25) / 22.5], modulo 16. *)
Definition sector_of_degrees (z : Z) : Z := ((4 * z + 45) / 90) mod 16.

(** The float computation names the sector of [z] degrees. *)
Definition compass_agrees (z : Z) : bool :=
  match wind_compass (PInt z),
        nth_error directions (Z.to_nat (sector_of_degrees z)) with
  | Some computed, Some name => String.eqb computed name
  | _, _ => false
  end.

(** ** Distance to the ISS ground track *)

(** [math.sin], [math.cos], [math.atan2] and [x ** y] on floats, with
    [None] for an exception.  The C library computes them, to within a
    unit in the last place that differs from one platform to the next, so
    they are not defined here. *)
Class PyMath : Type := {
  math_sin : float -> option float;
  math_cos : float -> option float;
  math_atan2 : float -> float -> option float;
  float_pow : float -> float -> option float
}.

(** [math.pi / 180], the factor of [math.radians]. *)
Definition deg_to_rad : float := (3.141592653589793 / 180)%float.

(** [math.radians(x)] for a float. *)
Definition math_radians (x : float) : float := (x * deg_to_rad)%float.

(** [math.sqrt(x)]: the correctly rounded square root; [ValueError] when
    the argument is negative, that is, when the root of a number is not a
    number. *)
Definition math_sqrt (x : float) : option float :=
  let r := sqrt x in
  if is_nan r && negb (is_nan x) then None else Some r.

Section Distance.
Context `{PyMath}.
Local Open Scope float_scope.

(** [a], for two endpoints in radians. *)
Definition haversine_term (lat1 lon1 lat2 lon2 : float) : option float :=
  let dlat := lat2 - lat1 in
  let dlon := lon2 - lon1 in
  s1 <-? math_sin (dlat / 2) ;;
  p1 <-? float_pow s1 2 ;;
  c1 <-? math_cos lat1 ;;
  c2 <-? math_cos lat2 ;;
  s2 <-? math_sin (dlon / 2) ;;
  p2 <-? float_pow s2 2 ;;
  Some (p1 + c1 * c2 * p2).

(** [c = 2*math.atan2(math.sqrt(a), math.sqrt(1-a))] *)
Definition central_angle (a : float) : option float :=
  r1 <-? math_sqrt a ;;
  r2 <-? math_sqrt (1 - a) ;;
  t <-? math_atan2 r1 r2 ;;
  Some (2 * t).

(** The body of [calculate_iss_distance] with its two endpoints, in
    degrees, as parameters; the result is in kilometres. *)
Definition haversine (lat1 lon1 lat2 lon2 : float) : option float :=
  a <-? haversine_term (math_radians lat1) (math_radians lon1)
          (math_radians lat2) (math_radians lon2) ;;
  c <-? central_angle a ;;
  Some (6371 * c).

(** [calculate_iss_distance()]: from the configured location to the
    stored position. *)
Definition calculate_iss_distance (s : state) : option float :=
  lat2 <-? as_float (iss_lat (iss s)) ;;
  lon2 <-? as_float (iss_lon (iss s)) ;;
  haversine CONFIG.location_lat CONFIG.location_lon lat2 lon2.

(** What the self-distance needs of the math library: the exact cases
    [sin(0.0) = 0.0], [0.0 ** 2 = 0.0] and [atan2(0.0, 1.0) = 0.0], and a
    cosine that is defined on every finite float and lies in [-1, 1]. *)
Definition exact_at_zero : Prop :=
  math_sin 0 = Some 0
  /\ float_pow 0 2 = Some 0
  /\ math_atan2 0 1 = Some 0
  /\ forall x, is_finite x = true ->
       exists c, math_cos x = Some c /\ within 1 (PFloat c) = true.

(** What the symmetry needs: the sine is odd and the square is even,
    where each raises as well as where it returns. *)
Definition symmetric_math : Prop :=
  (forall x, math_sin (- x) = option_map opp (math_sin x))
  /\ (forall x, float_pow (- x) 2 = float_pow x 2).

End Distance.

(** The point opposite to [(lat, lon)], in degrees. *)
Definition antipode (lat lon : float) : float * float :=
  ((- lat)%float,
   if (lon <=? 0)%float then (lon + 180)%float else (lon - 180)%float).

(** *** A math library for the examples *)

Fixpoint tabulated (table : list (float * float)) (x : float) : option float :=
  match table with
  | [] => None
  | (k, v) :: rest => if (k =? x)%float then Some v else tabulated rest x
  end.

(** The value at [x] of an odd function that is known at the positive
    arguments of [table]; [x] itself where it is not known. *)
Definition odd_extension (table : list (float * float)) (x : float) : float :=
  match tabulated table (abs x) with
  | Some v => if (x <? 0)%float then (- v)%float else v
  | None => x
  end.

(** The value at [x] of an even function that is known at the positive
    arguments of [table]. *)
Definition even_extension (table : list (float * float))
    (otherwise : float -> float) (x : float) : float :=
  match tabulated table (abs x) with
  | Some v => v
  | None => otherwise (abs x)
  end.

(** A finite float above zero. *)
Definition positive_key (k : float) : bool :=
  match Prim2SF k with
  | S754_finite false _ _ => true
  | _ => false
  end.

(** What CPython 3.11 on glibc returns at the arguments that two
    examples need: the point (86.9738, -73.2269) with its antipode, and
    the configured location with its antipode. *)
Definition sin_table : list (float * float) :=
  [(1.5179791729710441%float, 0.9986054983573573%float);
   (0.5147900988634835%float, 0.4923521627557675%float);
   (1.5707963267948966%float, 1%float)].

Definition cos_table : list (float * float) :=
  [(1.5179791729710441%float, 0.052792600338059166%float);
   (0.5147900988634835%float, 0.8703960867500027%float);
   (1.5707963267948966%float, 6.123233995736766e-17%float)].

Definition square_table : list (float * float) :=
  [(0.9986054983573573%float, 0.9972129413495461%float);
   (0.4923521627557675%float, 0.24241065217028177%float)].

(** A library that agrees with CPython on glibc at the arguments of the
    tables and their opposites, and at [atan2(1.0, 0.0)]; elsewhere it
    has the small-angle values [sin x = x], [cos x = 1] and
    [atan2(y, x) = y], and the correctly rounded square.  It never
    raises on a square, and meets [exact_at_zero] and
    [symmetric_math]. *)
Definition glibc_sample : PyMath := {|
  math_sin := fun x => Some (odd_extension sin_table x);
  math_cos := fun x => Some (even_extension cos_table (fun _ => 1%float) x);
  math_atan2 := fun y x =>
    Some (if (y =? 1)%float && (x =? 0)%float then 1.5707963267948966%float
          else y);
  float_pow := fun x y =>
    if (y =? 2)%float
    then Some (even_extension square_table (fun a => (a * a)%float) x)
    else None
|}.

(** ** HTTP handlers *)

(** What a handler sends: [send_json(body)], which answers 200, or
    [send_error(code, message)]; [Escaped] when an exception leaves the
    handler. *)
Inductive response (B : Type) : Type :=
| SentJson (body : B)
| SentError (code : Z) (message : string)
| Escaped.
Arguments SentJson {B} body.
Arguments SentError {B} code message.
Arguments Escaped {B}.

(** The dictionaries [do_GET] serialises, one constructor for each
    route, one argument for each key in source order. *)
Inductive view : Type :=
| StatusView (sdr_status : status) (sdr_log : list string) (iss : iss_t)
    (iss_crew : list pyval) (iss_passes : pyval) (iss_distance_km : float)
    (aircraft : list aircraft_t) (aircraft_count : nat)
    (last_update : gmap string Q) (timestamp : Q)
| IssView (position : iss_t) (crew : list pyval) (passes : pyval)
    (distance_km : float)
| AircraftView (aircraft : list aircraft_t) (count : nat) (last_update : Q)
| SdrView (status : status) (log : list string) (last_update : Q).

(** [do_GET].  [distance] is the value of
    [round(calculate_iss_distance(), 1)], [None] when it raises; the
    rounding to one decimal is left to the caller.  [clock] is the
    reading of [time.time()]. *)
Definition do_GET (path : string) (distance : option float) (clock : Q)
    (s : state) : response view :=
  if String.eqb path "/api/status" then
    match distance with
    | Some km =>
        SentJson (StatusView (sdr_status s) (sdr_log s) (iss s) (iss_crew s)
                    (iss_passes s) km (aircraft s) (List.length (aircraft s))
                    (last_update s) clock)
    | None => Escaped
    end
  else if String.eqb path "/api/iss" then
    match distance with
    | Some km => SentJson (IssView (iss s) (iss_crew s) (iss_passes s) km)
    | None => Escaped
    end
  else if String.eqb path "/api/aircraft" then
    SentJson (AircraftView (aircraft s) (List.length (aircraft s))
                (last_update_get "aircraft" s))
  else if String.eqb path "/api/sdr" then
    SentJson (SdrView (sdr_status s) (sdr_log s) (last_update_get "sdr" s))
  else SentError 404 "Not Found".

(** The image generators, which draw with Pillow: a call returns a path,
    or [None] without Pillow, or raises; nothing in them catches what
    their own expressions raise. *)
Record renderers : Type := {
  generate_dashboard_image : outcome (option string);
  generate_weather_image : pyval -> outcome (option string)
}.

(** A push whose result is sent as JSON. *)
Definition send_push (push : Exec -> list argv * pyval) (ex : Exec)
    : list argv * response pyval :=
  match push ex with (tr, result) => (tr, SentJson result) end.

(** [do_POST]; the second component of the result is the response, the
    first the remote commands that were run.  The handler has no [try]:
    an exception of a generator leaves it. *)
Definition do_POST (path : string) (weather_resp : http_result)
    (render : renderers) (ex : Exec) : list argv * response pyval :=
  if String.eqb path "/api/push/satellite" then
    send_push push_satellite_image ex
  else if String.eqb path "/api/push/dashboard" then
    match generate_dashboard_image render with
    | Raised _ => ([], Escaped)
    | Returned None =>
        ([], SentJson (failure "Could not generate dashboard image (Pillow missing?)"))
    | Returned (Some img_path) => send_push (push_to_epaper img_path) ex
    end
  else if String.eqb path "/api/push/weather" then
    let weather := fetch_weather_data weather_resp in
    if is_none weather then
      ([], SentJson (failure "Could not fetch weather data"))
    else
      match generate_weather_image render weather with
      | Raised _ => ([], Escaped)
      | Returned None =>
          ([], SentJson (failure "Could not generate weather image (Pillow missing?)"))
      | Returned (Some img_path) => send_push (push_to_epaper img_path) ex
      end
  else ([], SentError 404 "Not Found").

(** *** Generators for the examples *)

(** Pillow is not installed: both generators return [None]. *)
Definition no_pillow : renderers := {|
  generate_dashboard_image := Returned None;
  generate_weather_image := fun _ => Returned None
|}.

(** Generators that draw when they can: the weather generator begins
    with [weather_data.get('tempf', '--')], which raises on anything but
    a dictionary. *)
Definition strict_renderers : renderers := {|
  generate_dashboard_image := Returned (Some "/tmp/nis_dashboard.png");
  generate_weather_image := fun weather =>
    match weather with
    | PDict _ => Returned (Some "/tmp/nis_weather.png")
    | _ => Raised "'str' object has no attribute 'get'"
    end
|}.

(** A device list whose first device carries a string for [lastData]. *)
Definition station_without_data : pyval :=
  PList [PDict [("macAddress", PStr "00:00:00:00:00:00");
                ("lastData", PStr "offline")]].

(** ** Tactics *)

(** Unfold the statement monad, and the remote-command monad. *)
Ltac run_body :=
  unfold try_except, bind, eval, assign, ret, print_error, loaded.

Ltac run_push :=
  unfold push_satellite_image, push_to_epaper, try_return, pbind, run, pret, call.

(** Name every step of a state vector that became a record. *)
Ltac open_record Hrec :=
  unfold aircraft_record in Hrec;
  repeat match type of Hrec with
         | match ?e with Some _ => _ | None => None end = Some _ =>
             let E := fresh "E" in destruct e eqn:E; [|discriminate Hrec]
         end;
  injection Hrec as <-; cbn [icao24 callsign country lat lon alt_m alt_ft
                             velocity_kt heading vertical_rate on_ground squawk].

(** * Theorems *)

(** ** Strings *)

Lemma append_cons c (a b : string) : String c a ++ b = String c (a ++ b).
Proof. reflexivity. Qed.

Lemma append_nil (b : string) : EmptyString ++ b = b.
Proof. reflexivity. Qed.

Lemma append_assoc (a b c : string) : (a ++ b) ++ c = a ++ (b ++ c).
Proof.
  induction a as [|x a IH]; [reflexivity|].
  rewrite !append_cons. now rewrite IH.
Qed.

Lemma append_empty_r (a : string) : a ++ EmptyString = a.
Proof.
  induction a as [|x a IH]; [reflexivity|]. rewrite append_cons. now rewrite IH.
Qed.

Lemma append_length (a b : string) :
  String.length (a ++ b) = String.length a + String.length b.
Proof.
  induction a as [|x a IH]; [reflexivity|].
  rewrite append_cons. simpl. now rewrite IH.
Qed.

Lemma append_is_empty (a b : string) :
  a ++ b = EmptyString -> a = EmptyString /\ b = EmptyString.
Proof. destruct a; [now split|discriminate]. Qed.

(** [lstrip] removes a blank front and stops at a character that is not
    whitespace. *)
Lemma lstrip_spec s : exists front, s = front ++ lstrip s /\ blank front = true.
Proof.
  induction s as [|c s (front & Hs & Hb)]; [now exists EmptyString|].
  simpl. destruct (is_space c) eqn:Ec.
  - exists (String c front). rewrite append_cons, <- Hs. simpl. now rewrite Ec.
  - now exists EmptyString.
Qed.

Lemma lstrip_first s c rest : lstrip s = String c rest -> is_space c = false.
Proof.
  induction s as [|x s IH]; simpl; [discriminate|].
  destruct (is_space x) eqn:Ex; [exact IH|]. now intros [= <- _].
Qed.

(** [rstrip] removes a blank back and stops at a character that is not
    whitespace. *)
Lemma rstrip_spec s : exists back, s = rstrip s ++ back /\ blank back = true.
Proof.
  induction s as [|c s (back & Hs & Hb)]; [now exists EmptyString|].
  simpl. destruct (rstrip s) as [|d r].
  - rewrite append_nil in Hs. subst back.
    destruct (is_space c) eqn:Ec.
    + exists (String c s). simpl. now rewrite Ec.
    + exists s. now rewrite append_cons, append_nil.
  - exists back. split; [|exact Hb]. rewrite append_cons. now rewrite <- Hs.
Qed.

Lemma rstrip_first s c rest :
  rstrip s = String c rest -> exists rest', s = String c rest'.
Proof.
  destruct s as [|x s]; simpl; [discriminate|].
  destruct (rstrip s); [destruct (is_space x); [discriminate|]|];
    intros [= <- _]; eauto.
Qed.

Lemma rstrip_last s front c :
  rstrip s = front ++ String c EmptyString -> is_space c = false.
Proof.
  revert front. induction s as [|x s IH]; intros front; simpl.
  - intros E. symmetry in E. apply append_is_empty in E as [_ E]. discriminate.
  - destruct (rstrip s) as [|d r].
    + destruct (is_space x) eqn:Ex.
      * intros E. symmetry in E. apply append_is_empty in E as [_ E]. discriminate.
      * destruct front as [|y front].
        -- rewrite append_nil. now intros [= <-].
        -- rewrite append_cons. intros [= _ E]. symmetry in E.
           apply append_is_empty in E as [_ E]. discriminate.
    + destruct front as [|y front].
      * rewrite append_nil. discriminate.
      * rewrite append_cons. intros [= _ E]. now apply (IH front).
Qed.

(** [s.strip()] is [s] without the whitespace at its two ends. *)
Lemma strip_stripped_of s : stripped_of s (strip s).
Proof.
  unfold stripped_of, stripped, strip. split; [split|].
  - intros c rest E. apply rstrip_first in E as [rest' E].
    now apply (lstrip_first s c rest').
  - intros front c E. now apply (rstrip_last (lstrip s) front c).
  - destruct (lstrip_spec s) as (front & Hs & Hf).
    destruct (rstrip_spec (lstrip s)) as (back & Hl & Hb).
    exists front, back. split; [|now split]. now rewrite <- Hl.
Qed.

(** ** Binary64 arithmetic

    The facts below follow from the specification of the primitive
    operations in [FloatAxioms]. *)

Lemma SFcompare_refl_finite s m e :
  SFcompare (S754_finite s m e) (S754_finite s m e) = Some Eq.
Proof.
  simpl. rewrite Z.compare_refl.
  assert (E : Pos.compare_cont Eq m m = Eq) by apply Pos.compare_cont_refl.
  rewrite E. now destruct s.
Qed.

(** A float is finite when it is a zero or has a mantissa and an
    exponent. *)
Lemma is_finite_spec x :
  is_finite x = match Prim2SF x with
                | S754_zero _ | S754_finite _ _ _ => true
                | S754_infinity _ | S754_nan => false
                end.
Proof.
  unfold is_finite, is_nan, is_infinity.
  rewrite !FloatAxioms.eqb_spec, FloatAxioms.abs_spec. change (Prim2SF infinity) with (S754_infinity false).
  unfold SFeqb.
  destruct (Prim2SF x) as [s|s| |s m e].
  - reflexivity.
  - now destruct s.
  - reflexivity.
  - rewrite SFcompare_refl_finite. reflexivity.
Qed.

Lemma int_of_float_raises f : int_of_float f = None <-> is_finite f = false.
Proof.
  rewrite is_finite_spec. unfold int_of_float.
  destruct (Prim2SF f); split; intros E; try discriminate; reflexivity.
Qed.

Lemma sub_self x : is_finite x = true -> (x - x)%float = 0%float.
Proof.
  rewrite is_finite_spec. intros Hx. apply Prim2SF_inj. rewrite sub_spec.
  change (Prim2SF 0) with (S754_zero false).
  destruct (Prim2SF x) as [s|s| |s m e]; try discriminate.
  - now destruct s.
  - unfold SF64sub, SFsub. now rewrite Z.sub_diag.
Qed.

(** *** Rounding is symmetric in the sign *)

Lemma binary_round_aux_opp s m e l :
  binary_round_aux prec emax (negb s) m e l
  = SFopp (binary_round_aux prec emax s m e l).
Proof.
  unfold binary_round_aux.
  destruct (shr_fexp prec emax m e l) as [mrs' e'].
  destruct (shr_fexp prec emax _ e' loc_Exact) as [mrs'' e''].
  destruct (shr_m mrs''); [reflexivity| |reflexivity].
  now destruct (Z.leb e'' (emax - prec)).
Qed.

Lemma binary_round_opp s m e :
  binary_round prec emax (negb s) m e = SFopp (binary_round prec emax s m e).
Proof.
  unfold binary_round. destruct (shl_align m e _) as [mz ez].
  apply binary_round_aux_opp.
Qed.

Lemma SFopp_involutive x : SFopp (SFopp x) = x.
Proof. destruct x; simpl; now rewrite ?negb_involutive. Qed.

Lemma binary_normalize_opp m e :
  binary_normalize prec emax (- m) e false
  = SFopp (binary_normalize prec emax m e false)
  \/ (m = 0%Z).
Proof.
  destruct m as [|p|p]; [now right| |]; left; simpl.
  - apply (binary_round_opp false).
  - pose proof (binary_round_opp false p e) as E. simpl in E.
    now rewrite E, SFopp_involutive.
Qed.

(** [x - y] and [y - x] are opposite, or both are [+0]. *)
Lemma sub_antisym x y :
  (x - y)%float = (- (y - x))%float \/ (x - y)%float = (y - x)%float.
Proof.
  assert (H : Prim2SF (x - y) = SFopp (Prim2SF (y - x))
              \/ Prim2SF (x - y) = Prim2SF (y - x)).
  { rewrite !sub_spec. unfold SF64sub, SFsub.
    destruct (Prim2SF x) as [sx|sx| |sx mx ex], (Prim2SF y) as [sy|sy| |sy my ey];
      try (destruct sx, sy; simpl; auto; fail);
      try (destruct sx; simpl; auto; fail);
      try (destruct sy; simpl; auto; fail);
      try (simpl; rewrite ?negb_involutive; auto; fail).
    rewrite (Z.min_comm ey ex).
    set (ez := Z.min ex ey).
    set (a := cond_Zopp sx (Zpos (fst (shl_align mx ex ez)))).
    set (b := cond_Zopp sy (Zpos (fst (shl_align my ey ez)))).
    replace (a - b)%Z with (- (b - a))%Z by lia.
    destruct (binary_normalize_opp (b - a) ez) as [E|E].
    - now left.
    - right. now rewrite E. }
  destruct H as [H|H].
  - left. apply Prim2SF_inj. now rewrite opp_spec.
  - right. now apply Prim2SF_inj.
Qed.

Lemma div_opp x y : (- x / y)%float = (- (x / y))%float.
Proof.
  apply Prim2SF_inj. rewrite opp_spec, !div_spec, opp_spec.
  unfold SF64div, SFdiv.
  destruct (Prim2SF x) as [sx|sx| |sx mx ex], (Prim2SF y) as [sy|sy| |sy my ey];
    simpl; try reflexivity;
    try (now destruct sx, sy).
  destruct (SFdiv_core_binary prec emax (Z.pos mx) ex (Z.pos my) ey) as [[mz ez] lz].
  rewrite <- binary_round_aux_opp. f_equal. now destruct sx, sy.
Qed.

Lemma mul_comm x y : (x * y)%float = (y * x)%float.
Proof.
  apply Prim2SF_inj. rewrite !mul_spec. unfold SF64mul, SFmul.
  destruct (Prim2SF x) as [sx|sx| |sx mx ex], (Prim2SF y) as [sy|sy| |sy my ey];
    try reflexivity; try (now rewrite xorb_comm).
  now rewrite xorb_comm, Pos.mul_comm, Z.add_comm.
Qed.

(** *** Products that cannot overflow *)

Lemma digits2_size p : digits2_pos p = Pos.size p.
Proof. induction p; simpl; congruence. Qed.

Lemma pos_below_size p : (Z.pos p < 2 ^ Z.pos (digits2_pos p))%Z.
Proof.
  rewrite digits2_size. pose proof (Pos.size_gt p) as H.
  apply Pos2Z.pos_lt_pos in H. now rewrite Pos2Z.inj_pow in H.
Qed.

Lemma Zdigits2_below z k :
  (0 <= z < 2 ^ k)%Z -> (0 <= k)%Z -> (Zdigits2 z <= k)%Z.
Proof.
  intros [Hz Hlt] Hk. destruct z as [|p|p]; simpl; [lia| |lia].
  rewrite digits2_size.
  pose proof (Pos.size_le p) as H. apply Pos2Z.pos_le_pos in H.
  rewrite Pos2Z.inj_pow in H. change (Z.pos p~0) with (2 * Z.pos p)%Z in H.
  destruct (Z.le_gt_cases (Z.pos (Pos.size p)) k) as [|Hgt]; [assumption|].
  assert (Hpow : (2 ^ (k + 1) <= 2 ^ Z.pos (Pos.size p))%Z)
    by (apply Z.pow_le_mono_r; lia).
  rewrite Z.pow_add_r, Z.pow_1_r in Hpow by lia. lia.
Qed.

Lemma shr_1_bounds mrs :
  (0 <= shr_m mrs)%Z -> (0 <= shr_m (shr_1 mrs) <= shr_m mrs)%Z.
Proof.
  destruct mrs as [m r s]. destruct m as [|[p|p|]|[p|p|]]; simpl; lia.
Qed.

Lemma iter_shr_1_bounds p mrs :
  (0 <= shr_m mrs)%Z ->
  (0 <= shr_m (SpecFloat.iter_pos shr_1 p mrs) <= shr_m mrs)%Z.
Proof.
  revert mrs. induction p as [p IH|p IH|]; intros mrs Hm; simpl.
  - pose proof (shr_1_bounds mrs Hm) as H1.
    pose proof (IH _ (proj1 H1)) as H2.
    pose proof (IH _ (proj1 H2)) as H3. lia.
  - pose proof (IH _ Hm) as H2.
    pose proof (IH _ (proj1 H2)) as H3. lia.
  - now apply shr_1_bounds.
Qed.

Lemma shr_record_of_loc_m m l : shr_m (shr_record_of_loc m l) = m.
Proof. destruct l as [|[]]; reflexivity. Qed.

Lemma shr_fexp_bounds m e l k :
  (0 <= m < 2 ^ k)%Z -> (0 <= k)%Z ->
  (0 <= shr_m (fst (shr_fexp prec emax m e l)) <= m)%Z
  /\ (snd (shr_fexp prec emax m e l) <= Z.max e (Z.max (k + e - 53) (-1074)))%Z.
Proof.
  intros Hm Hk. unfold shr_fexp, shr.
  pose proof (Zdigits2_below m k Hm Hk) as Hd.
  assert (Hf : (fexp prec emax (Zdigits2 m + e) <= Z.max (k + e - 53) (-1074))%Z).
  { unfold fexp, SpecFloat.emin, prec, emax. lia. }
  destruct (fexp prec emax (Zdigits2 m + e) - e)%Z as [|p|p] eqn:En; cbn [fst snd].
  - rewrite shr_record_of_loc_m. lia.
  - pose proof (iter_shr_1_bounds p (shr_record_of_loc m l)) as H.
    rewrite shr_record_of_loc_m in H. split; [apply H; lia|lia].
  - rewrite shr_record_of_loc_m. lia.
Qed.

Lemma round_nearest_even_bounds m l :
  (m <= round_nearest_even m l <= m + 1)%Z.
Proof.
  unfold round_nearest_even. destruct l as [|[]]; try lia.
  destruct (Z.even m); lia.
Qed.

(** Rounding a natural number below [2^106] with an exponent of at most
    800 gives a zero or a finite float. *)
Lemma binary_round_aux_small s m e l :
  (0 <= m < 2 ^ 106)%Z -> (e <= 800)%Z ->
  small 971 (binary_round_aux prec emax s m e l).
Proof.
  intros Hm He. unfold binary_round_aux.
  pose proof (shr_fexp_bounds m e l 106 Hm ltac:(lia)) as [Hm1 He1].
  destruct (shr_fexp prec emax m e l) as [mrs' e1]. cbn [fst snd] in Hm1, He1.
  set (m1 := round_nearest_even (shr_m mrs') (loc_of_shr_record mrs')).
  pose proof (round_nearest_even_bounds (shr_m mrs') (loc_of_shr_record mrs')) as Hr.
  fold m1 in Hr.
  assert (Hm1' : (0 <= m1 < 2 ^ 107)%Z).
  { change (2 ^ 107)%Z with (2 * 2 ^ 106)%Z. lia. }
  pose proof (shr_fexp_bounds m1 e1 loc_Exact 107 Hm1' ltac:(lia)) as [Hm2 He2].
  destruct (shr_fexp prec emax m1 e1 loc_Exact) as [mrs'' e2].
  cbn [fst snd] in Hm2, He2.
  destruct (shr_m mrs'') as [|p|p]; simpl; [trivial| |lia].
  destruct (Z.leb_spec e2 (emax - prec)) as [Hle|Hgt]; simpl.
  - unfold emax, prec in Hle. lia.
  - unfold emax, prec in Hgt. lia.
Qed.

Lemma valid_mantissa s m e :
  valid_binary (S754_finite s m e) = true -> (Z.pos m < 2 ^ 53)%Z.
Proof.
  simpl. unfold bounded, canonical_mantissa, fexp, SpecFloat.emin, prec, emax.
  rewrite andb_true_iff, Z.eqb_eq. intros [Hc _].
  pose proof (pos_below_size m) as Hlt.
  assert (Hd : (Z.pos (digits2_pos m) <= 53)%Z) by lia.
  eapply Z.lt_le_trans; [exact Hlt|]. apply Z.pow_le_mono_r; lia.
Qed.

(** The product of two floats with small exponents is finite. *)
Lemma mul_small x y bx by' :
  small bx (Prim2SF x) -> small by' (Prim2SF y) -> (bx + by' <= 800)%Z ->
  small 971 (Prim2SF (x * y)).
Proof.
  intros Hx Hy Hb. rewrite mul_spec. unfold SF64mul, SFmul.
  pose proof (Prim2SF_valid x) as Vx. pose proof (Prim2SF_valid y) as Vy.
  destruct (Prim2SF x) as [sx|sx| |sx mx ex], (Prim2SF y) as [sy|sy| |sy my ey];
    simpl in Hx, Hy; try contradiction; try exact I.
  apply binary_round_aux_small; [|lia].
  apply valid_mantissa in Vx, Vy. rewrite Pos2Z.inj_mul.
  change (2 ^ 106)%Z with (2 ^ 53 * 2 ^ 53)%Z. nia.
Qed.

Lemma small_finite b x : small b (Prim2SF x) -> is_finite x = true.
Proof. rewrite is_finite_spec. now destruct (Prim2SF x). Qed.

(** A float between [-b] and [b] has at most the exponent of [b]. *)
Lemma between_small x b mb eb :
  Prim2SF b = S754_finite false mb eb ->
  (- b <=? x)%float = true -> (x <=? b)%float = true ->
  small eb (Prim2SF x).
Proof.
  intros Eb. rewrite !leb_spec, opp_spec, Eb. unfold SFleb. simpl SFopp.
  destruct (Prim2SF x) as [s|s| |s m e]; simpl; trivial.
  - destruct s; discriminate.
  - discriminate.
  - destruct s.
    + intros H _. destruct (Z.compare_spec eb e); try lia; discriminate.
    + intros _ H. destruct (Z.compare_spec e eb); try lia; discriminate.
Qed.


(** *** Degrees, radians and zeros *)

Lemma within_small bound x mb eb :
  Prim2SF (float_of_Z bound) = S754_finite false mb eb ->
  float_of_Z (- bound) = (- float_of_Z bound)%float ->
  within bound (PFloat x) = true -> small eb (Prim2SF x).
Proof.
  unfold within. rewrite andb_true_iff. intros Eb -> [H1 H2].
  now apply (between_small x (float_of_Z bound) mb eb).
Qed.

Lemma small_le b b' x : (b <= b')%Z -> small b x -> small b' x.
Proof. intros Hb. destruct x; simpl; trivial; lia. Qed.

(** A latitude or a longitude within its range has a finite radian
    measure. *)
Lemma radians_finite x :
  within 90 (PFloat x) = true \/ within 180 (PFloat x) = true ->
  is_finite (math_radians x) = true.
Proof.
  intros Hx. apply (small_finite 971). unfold math_radians.
  apply (mul_small x deg_to_rad (-45) (-58)); [|now vm_compute|lia].
  destruct Hx as [Hx|Hx].
  - apply (small_le (-46)); [lia|].
    now apply (within_small 90 x 6333186975989760 (-46)).
  - now apply (within_small 180 x 6333186975989760 (-45)).
Qed.

Lemma mul_zero_r b y :
  small b (Prim2SF y) -> exists s, Prim2SF (y * 0) = S754_zero s.
Proof.
  intros Hy. rewrite mul_spec. change (Prim2SF 0) with (S754_zero false).
  destruct (Prim2SF y) as [s|s| |s m e]; simpl in Hy; try contradiction;
    simpl; eauto.
Qed.

Lemma add_zero_l z s : Prim2SF z = S754_zero s -> (0 + z)%float = 0%float.
Proof.
  intros Hz. apply Prim2SF_inj. rewrite add_spec, Hz.
  change (Prim2SF 0) with (S754_zero false). now destruct s.
Qed.

Lemma abs_opp x : abs (- x) = abs x.
Proof.
  apply Prim2SF_inj. rewrite !abs_spec, opp_spec. now destruct (Prim2SF x).
Qed.

(** [math.sqrt] raises on every negative float, the negative infinity
    included. *)
Lemma math_sqrt_negative x : (x <? 0)%float = true -> math_sqrt x = None.
Proof.
  rewrite ltb_spec. change (Prim2SF 0) with (S754_zero false).
  intros Hx. unfold math_sqrt, is_nan.
  rewrite !FloatAxioms.eqb_spec, sqrt_spec. unfold SFltb, SFeqb in *.
  destruct (Prim2SF x) as [s|s| |s m e]; simpl in Hx; try discriminate.
  - destruct s; [reflexivity|discriminate].
  - destruct s; [|discriminate]. cbn [SF64sqrt SFsqrt].
    now rewrite SFcompare_refl_finite.
Qed.

(** ** How each update can end *)

Section UpdateShapes.
Context `{PyRuntime}.

Lemma iss_crew_try_cases r t s :
  iss_crew_try r t s = (s, None)
  \/ (envelope_ok r = false /\ iss_crew_try r t s = (s, Some tt))
  \/ (exists crew, envelope_ok r = true /\
        iss_crew_try r t s = (stamp "iss_crew" t (set_iss_crew crew s), Some tt)).
Proof.
  unfold iss_crew_try, envelope_ok; run_body.
  destruct r as [data|]; [|now left].
  destruct (getitem data "message") as [message|]; [|now left].
  destruct (eq_str message "success"); [|now right; left].
  destruct (getitem data "people") as [people|]; [|now left].
  destruct (iter_items people) as [items|]; [|now left].
  destruct (crew_of items) as [crew|]; [|now left].
  right; right. now exists crew.
Qed.

Lemma iss_passes_try_cases r t s :
  iss_passes_try r t s = (s, None)
  \/ (envelope_ok r = false /\ iss_passes_try r t s = (s, Some tt))
  \/ (exists response, envelope_ok r = true /\
        iss_passes_try r t s
        = (stamp "iss_passes" t (set_iss_passes response s), Some tt)).
Proof.
  unfold iss_passes_try, envelope_ok; run_body.
  destruct r as [data|]; [|now left].
  destruct (getitem data "message") as [message|]; [|now left].
  destruct (eq_str message "success"); [|now right; left].
  destruct (getitem data "response") as [response|]; [|now left].
  right; right. now exists response.
Qed.

Lemma aircraft_try_cases r t s :
  aircraft_try r t s = (s, None)
  \/ (exists data found, r = Loaded data /\ parse_aircraft data = Some found /\
        aircraft_try r t s = (stamp "aircraft" t (set_aircraft found s), Some tt)).
Proof.
  unfold aircraft_try; run_body.
  destruct r as [data|]; [|now left].
  destruct (parse_aircraft data) as [found|] eqn:E; [|now left].
  right. now exists data, found.
Qed.

(** The position update assigns field by field, so it can stop after
    the latitude or after the longitude. *)
Lemma iss_position_try_cases r t s :
  iss_position_try r t s = (s, None)
  \/ (envelope_ok r = false /\ iss_position_try r t s = (s, Some tt))
  \/ (exists data la, r = Loaded data /\ envelope_ok r = true /\
        iss_coordinate data "latitude" = Some la /\
        (iss_position_try r t s = (set_iss_lat (PFloat la) s, None)
         \/ exists lo, iss_coordinate data "longitude" = Some lo /\
              (iss_position_try r t s
               = (set_iss_lon (PFloat lo) (set_iss_lat (PFloat la) s), None)
               \/ exists ts, getitem data "timestamp" = Some ts /\
                    iss_position_try r t s
                    = (stamp "iss_position" t
                         (set_iss_timestamp ts
                            (set_iss_lon (PFloat lo)
                               (set_iss_lat (PFloat la) s))), Some tt)))).
Proof.
  unfold iss_position_try, envelope_ok; run_body.
  destruct r as [data|]; [|now left].
  destruct (getitem data "message") as [message|]; [|now left].
  destruct (eq_str message "success"); [|now right; left].
  destruct (iss_coordinate data "latitude") as [la|] eqn:Ela; [|now left].
  right; right. exists data, la. repeat split; trivial.
  destruct (iss_coordinate data "longitude") as [lo|] eqn:Elo; [|now left].
  right. exists lo. split; trivial.
  destruct (getitem data "timestamp") as [ts|] eqn:Ets; [|now left].
  right. now exists ts.
Qed.

Lemma sdr_status_try_cases r t s :
  sdr_status_try r t s = (s, None)
  \/ (exited_zero r = false /\ sdr_status_try r t s = (s, Some tt))
  \/ (exists result count,
        r = Completed result /\ returncode result = 0%Z /\
        parse_running (split "---SDR_STATUS---" (stdout result)) = Some count /\
        let log_lines := parse_log (split "---SDR_STATUS---" (stdout result)) in
        sdr_status_try r t s
        = (stamp "sdr" t
             (set_sdr_status
                (if Z.ltb 0 count
                 then status_of_line (List.last log_lines EmptyString)
                 else offline)
                (set_sdr_log (last_n 10 log_lines) s)), Some tt)).
Proof.
  unfold sdr_status_try, exited_zero; run_body.
  destruct r as [result|msg]; [|now left].
  destruct (Z.eqb_spec (returncode result) 0) as [E0|]; [|now right; left].
  destruct (parse_running _) as [count|] eqn:Ec; [|now left].
  right; right. exists result, count. repeat split; trivial.
  cbv zeta. now destruct (Z.ltb 0 count).
Qed.

End UpdateShapes.

(** ** Failed fetches *)

Section FailedFetch.
Context `{PyRuntime}.

Lemma crew_failure_keeps_state r t s :
  raised (iss_crew_try r t) s \/ envelope_ok r = false ->
  update_iss_crew r t s = s.
Proof.
  unfold update_iss_crew, try_except, raised, print_error.
  destruct (iss_crew_try_cases r t s) as [E|[[Hk E]|(crew & Hk & E)]];
    rewrite E; simpl; trivial.
  intros [Hr|Hr]; congruence.
Qed.

Lemma passes_failure_keeps_state r t s :
  raised (iss_passes_try r t) s \/ envelope_ok r = false ->
  update_iss_passes r t s = s.
Proof.
  unfold update_iss_passes, try_except, raised, print_error.
  destruct (iss_passes_try_cases r t s) as [E|[[Hk E]|(resp & Hk & E)]];
    rewrite E; simpl; trivial.
  intros [Hr|Hr]; congruence.
Qed.

Lemma aircraft_failure_keeps_state r t s :
  raised (aircraft_try r t) s -> update_aircraft r t s = s.
Proof.
  unfold update_aircraft, try_except, raised, print_error.
  destruct (aircraft_try_cases r t s) as [E|(data & found & _ & _ & E)];
    rewrite E; simpl; trivial.
  congruence.
Qed.

Lemma position_failure_keeps_stamp r t s :
  raised (iss_position_try r t) s \/ envelope_ok r = false ->
  last_update (update_iss_position r t s) = last_update s.
Proof.
  unfold update_iss_position, try_except, raised, print_error.
  destruct (iss_position_try_cases r t s)
    as [E|[[Hk E]|(data & la & _ & Hk & _ & [E|(lo & _ & [E|(ts & _ & E)])])]];
    rewrite E; simpl; trivial.
  intros [Hr|Hr]; congruence.
Qed.

Lemma position_early_failure_keeps_state r t s :
  envelope_ok r = false
  \/ (forall data, r = Loaded data -> iss_coordinate data "latitude" = None) ->
  update_iss_position r t s = s.
Proof.
  unfold update_iss_position, try_except, print_error.
  destruct (iss_position_try_cases r t s)
    as [E|[[Hk E]|(data & la & Hr & Hk & Hla & _)]];
    try (rewrite E; simpl; trivial).
  intros [Hf|Hf]; [congruence|].
  specialize (Hf data Hr). congruence.
Qed.

Lemma sdr_failure_keeps_log_and_stamp r t s :
  raised (sdr_status_try r t) s \/ exited_zero r = false ->
  sdr_log (update_sdr_status r t s) = sdr_log s
  /\ last_update (update_sdr_status r t s) = last_update s.
Proof.
  unfold update_sdr_status, try_except, raised.
  destruct (sdr_status_try_cases r t s)
    as [E|[[Hk E]|(result & count & Hr & Hrc & _ & E)]];
    cbv zeta in *; rewrite E; simpl; auto.
  intros [Hf|Hf]; [congruence|].
  subst r. unfold exited_zero in Hf. rewrite Hrc in Hf. discriminate.
Qed.

Lemma sdr_raise_sets_unreachable r t s :
  raised (sdr_status_try r t) s ->
  sdr_status (update_sdr_status r t s) = unreachable.
Proof.
  unfold update_sdr_status, try_except, raised.
  destruct (sdr_status_try r t s) as [s' [[]|]]; simpl; [discriminate|trivial].
Qed.

End FailedFetch.

(** C1 (as stated, refuted).  A device-log fetch that fails because
    [subprocess.run] raises (here a timeout) does not leave the state field
    of that source as it was: [state['sdr_status']] goes from ['unknown'] to
    ['unreachable']. *)
Lemma C1_sdr_timeout_overwrites_status :
  raised (@sdr_status_try decimal_runtime (RunRaised "timed out") 5) initial_state
  /\ sdr_status initial_state = unknown
  /\ sdr_status (@update_sdr_status decimal_runtime (RunRaised "timed out") 5 initial_state)
     = unreachable
  /\ @update_sdr_status decimal_runtime (RunRaised "timed out") 5 initial_state
     <> initial_state.
Proof.
  repeat split; try reflexivity.
  intros E. apply (f_equal sdr_status) in E. discriminate E.
Qed.

(** C1 (amended).  A failed fetch is a [try] block that raised or, for the
    sources with a response envelope, a body whose [message] is missing or
    not ['success']; for the device log, a raise or a non-zero exit status.
    - Crew manifest, pass predictions, aircraft: a failed fetch leaves the
      whole state, hence the field and [last_update[source]], as it was.
    - Orbital position: a failed fetch leaves [last_update] as it was, and
      leaves the whole state as it was when the failure is in the
      transport, the envelope or the latitude.
    - Device log: a failed fetch leaves [sdr_log] and [last_update] as they
      were, and a raise sets [sdr_status] to ['unreachable']. *)
Theorem C1_failed_fetch_retains `{PyRuntime} (t : Q) (s : state) :
  (forall r, raised (iss_crew_try r t) s \/ envelope_ok r = false ->
     update_iss_crew r t s = s)
  /\ (forall r, raised (iss_passes_try r t) s \/ envelope_ok r = false ->
        update_iss_passes r t s = s)
  /\ (forall r, raised (aircraft_try r t) s -> update_aircraft r t s = s)
  /\ (forall r, raised (iss_position_try r t) s \/ envelope_ok r = false ->
        last_update (update_iss_position r t s) = last_update s)
  /\ (forall r, envelope_ok r = false
                \/ (forall data, r = Loaded data ->
                      iss_coordinate data "latitude" = None) ->
        update_iss_position r t s = s)
  /\ (forall r, raised (sdr_status_try r t) s \/ exited_zero r = false ->
        sdr_log (update_sdr_status r t s) = sdr_log s
        /\ last_update (update_sdr_status r t s) = last_update s)
  /\ (forall r, raised (sdr_status_try r t) s ->
        sdr_status (update_sdr_status r t s) = unreachable).
Proof.
  split; [intros r; apply crew_failure_keeps_state|].
  split; [intros r; apply passes_failure_keeps_state|].
  split; [intros r; apply aircraft_failure_keeps_state|].
  split; [intros r; apply position_failure_keeps_stamp|].
  split; [intros r; apply position_early_failure_keeps_state|].
  split; [intros r; apply sdr_failure_keeps_log_and_stamp|].
  intros r; apply sdr_raise_sets_unreachable.
Qed.

(** The statement above, at the example inputs. *)
Lemma C1_failed_fetch_retains_witness :
  update_iss_crew HttpRaised 7 crew_at_zero = crew_at_zero
  /\ update_iss_passes (Loaded (PDict [("message", PStr "failure")])) 7 crew_at_zero
     = crew_at_zero
  /\ update_aircraft (Loaded (PList [])) 7 crew_at_zero = crew_at_zero
  /\ last_update
       (@update_iss_position decimal_runtime
          (Loaded (iss_now "29" "north")) 7 crew_at_zero)
     = last_update crew_at_zero
  /\ @update_iss_position decimal_runtime (Loaded (iss_now "north" "29")) 7 crew_at_zero
     = crew_at_zero
  /\ sdr_log (@update_sdr_status decimal_runtime ssh_refused 7 recording_state)
     = sdr_log recording_state
  /\ sdr_status
       (@update_sdr_status decimal_runtime (RunRaised "timed out") 7 recording_state)
     = unreachable.
Proof.
  destruct (@C1_failed_fetch_retains decimal_runtime 7 crew_at_zero)
    as (Hcrew & Hpasses & Haircraft & Hstamp & Hearly & _ & _).
  destruct (@C1_failed_fetch_retains decimal_runtime 7 recording_state)
    as (_ & _ & _ & _ & _ & Hlog & Hraise).
  split; [apply Hcrew; left; reflexivity|].
  split; [apply Hpasses; right; reflexivity|].
  split; [apply Haircraft; reflexivity|].
  split; [apply Hstamp; left; reflexivity|].
  split; [apply Hearly; right; intros data E; injection E as <-; reflexivity|].
  split; [apply Hlog; right; reflexivity|].
  apply Hraise; reflexivity.
Defined.

(** ** Device status *)

Section DeviceStatus.
Context `{PyRuntime}.

(** A non-zero exit status skips the whole [if] and raises nothing. *)
Lemma sdr_nonzero_exit_changes_nothing result t s :
  returncode result <> 0%Z ->
  update_sdr_status (Completed result) t s = s.
Proof.
  intros Hrc. unfold update_sdr_status, try_except, sdr_status_try; run_body.
  destruct (Z.eqb_spec (returncode result) 0); [contradiction|reflexivity].
Qed.

(** What a completed, parsed fetch stores. *)
Lemma sdr_success_stores result count t s :
  returncode result = 0%Z ->
  parse_running (split "---SDR_STATUS---" (stdout result)) = Some count ->
  let log_lines := parse_log (split "---SDR_STATUS---" (stdout result)) in
  update_sdr_status (Completed result) t s
  = stamp "sdr" t
      (set_sdr_status
         (if Z.ltb 0 count
          then status_of_line (List.last log_lines EmptyString)
          else offline)
         (set_sdr_log (last_n 10 log_lines) s)).
Proof.
  intros Hrc Hcount. cbv zeta.
  unfold update_sdr_status, try_except, sdr_status_try; run_body.
  rewrite Hrc, Hcount. simpl. now destruct (Z.ltb 0 count).
Qed.

(** The classification of the last line, in the order of the chain. *)
Lemma status_of_line_priority line :
  (contains "Recording" line = true -> status_of_line line = recording)
  /\ (contains "Recording" line = false -> contains "Sleeping" line = true ->
        status_of_line line = sleeping)
  /\ (contains "Recording" line = false -> contains "Sleeping" line = false ->
        contains "Starting capture" line = true \/ contains "Waiting" line = true ->
        status_of_line line = armed)
  /\ (contains "Recording" line = false -> contains "Sleeping" line = false ->
        contains "Starting capture" line = false -> contains "Waiting" line = false ->
        status_of_line line = running).
Proof.
  unfold status_of_line.
  destruct (contains "Recording" line), (contains "Sleeping" line),
    (contains "Starting capture" line), (contains "Waiting" line);
    repeat split; intros; try reflexivity; try discriminate;
    match goal with H : _ \/ _ |- _ => destruct H; discriminate end.
Qed.

End DeviceStatus.

(** C2 (the code departs from the claim).  With the node last seen
    recording, an [ssh] that cannot connect exits with status 255; the
    update then changes nothing, and the status stays ['recording'] where
    the claim has ['unreachable']. *)
Theorem C2_refused_connection_keeps_stale_status :
  exited_zero ssh_refused = false
  /\ sdr_status recording_state = recording
  /\ @update_sdr_status decimal_runtime ssh_refused 130 recording_state
     = recording_state.
Proof.
  split; [reflexivity|]. split; [reflexivity|].
  now apply sdr_nonzero_exit_changes_nothing.
Qed.

(** ** Push pipeline *)

Lemma display_cmd_is_not_a_copy image_path : display_cmd <> scp_image_cmd image_path.
Proof. discriminate. Qed.

(** C3 (as stated, refuted).  When the copy exits with status 1 the
    result is a failure and the trigger is not run, but the result has no
    [stage] entry: it is [{'success': False, 'error': 'SCP failed: ...'}]. *)
Lemma C3_failed_transfer_has_no_stage :
  exited_zero (all_denied (scp_image_cmd "/tmp/nis_dashboard.png")) = false
  /\ snd (push_to_epaper "/tmp/nis_dashboard.png" all_denied)
     = PDict [("success", PBool false);
              ("error", PStr "SCP failed: Permission denied")]
  /\ getitem (snd (push_to_epaper "/tmp/nis_dashboard.png" all_denied)) "stage"
     <> Some (PStr "transfer").
Proof.
  split; [reflexivity|]. split; [reflexivity|]. discriminate.
Qed.

(** C3 (amended).  If the copy step exits non-zero or raises, the copy is
    the only command run, so the display command is never executed, and
    the result is the failure [{'success': False, 'error': m}] where [m]
    is ['SCP failed: ' + stderr] for a non-zero exit and [str(e)] for an
    exception; the result carries no [stage] entry. *)
Theorem C3_transfer_failure_stops (ex : Exec) (image_path : string) :
  exited_zero (ex (scp_image_cmd image_path)) = false ->
  fst (push_to_epaper image_path ex) = [scp_image_cmd image_path]
  /\ ~ In display_cmd (fst (push_to_epaper image_path ex))
  /\ snd (push_to_epaper image_path ex)
     = failure (transfer_error (ex (scp_image_cmd image_path)))
  /\ getitem (snd (push_to_epaper image_path ex)) "success" = Some (PBool false)
  /\ getitem (snd (push_to_epaper image_path ex)) "stage" = None.
Proof.
  intros Hfail.
  assert (E : push_to_epaper image_path ex
              = ([scp_image_cmd image_path],
                 failure (transfer_error (ex (scp_image_cmd image_path))))).
  { run_push. unfold exited_zero in Hfail.
    destruct (ex (scp_image_cmd image_path)) as [result|msg]; [|reflexivity].
    rewrite Hfail. reflexivity. }
  rewrite E. simpl. repeat split; trivial.
  intros [Hd|[]]. now apply (display_cmd_is_not_a_copy image_path).
Qed.

(** The statement above, at the example inputs. *)
Lemma C3_transfer_failure_stops_witness :
  fst (push_to_epaper "/tmp/nis_weather.png" all_time_out)
  = [scp_image_cmd "/tmp/nis_weather.png"]
  /\ snd (push_to_epaper "/tmp/nis_weather.png" all_time_out) = failure "timed out".
Proof.
  destruct (C3_transfer_failure_stops all_time_out "/tmp/nis_weather.png")
    as (Htrace & _ & Hresult & _); [reflexivity|].
  split; [exact Htrace|exact Hresult].
Defined.

(** C6 (as stated, refuted).  A listing command that fails by raising
    does not give the "no artifact found" failure but the text of the
    exception; and a download that fails by raising aborts the push: the
    copy to the e-Paper node is never run. *)
Lemma C6_raise_is_not_no_artifact :
  snd (push_satellite_image all_time_out) = failure "timed out"
  /\ snd (push_satellite_image all_time_out) <> failure "No satellite images found"
  /\ fst (push_satellite_image download_times_out)
     = [list_images_cmd; download_cmd "/home/mem/noaa_reception/images/n19.png"]
  /\ ~ In (scp_image_cmd local_tmp) (fst (push_satellite_image download_times_out)).
Proof.
  split; [reflexivity|]. split; [discriminate|]. split; [reflexivity|].
  vm_compute. intros [E|[E|[]]]; discriminate E.
Qed.

(** C6 (amended).  [push_satellite_image] returns the failure
    ['No satellite images found'] whenever the listing command completes
    with a non-zero exit status or prints nothing but whitespace; when the
    listing command raises, the failure carries the text of the exception.
    Otherwise it runs the download, and whenever the download completes,
    with whatever exit status, it calls [push_to_epaper] with the local
    path and returns its result; when the download raises, nothing more is
    run and the failure carries the text of the exception. *)
Theorem C6_push_satellite_image_outcomes (ex : Exec) :
  (forall listing,
     ex list_images_cmd = Completed listing -> no_image listing = true ->
     push_satellite_image ex
     = ([list_images_cmd], failure "No satellite images found"))
  /\ (forall msg,
        ex list_images_cmd = RunRaised msg ->
        push_satellite_image ex = ([list_images_cmd], failure msg))
  /\ (forall listing download,
        ex list_images_cmd = Completed listing -> no_image listing = false ->
        ex (download_cmd (strip (stdout listing))) = Completed download ->
        push_satellite_image ex
        = (list_images_cmd :: download_cmd (strip (stdout listing))
             :: fst (push_to_epaper local_tmp ex),
           snd (push_to_epaper local_tmp ex)))
  /\ (forall listing msg,
        ex list_images_cmd = Completed listing -> no_image listing = false ->
        ex (download_cmd (strip (stdout listing))) = RunRaised msg ->
        push_satellite_image ex
        = ([list_images_cmd; download_cmd (strip (stdout listing))], failure msg)).
Proof.
  unfold no_image. repeat apply conj.
  - intros listing El Hno. unfold push_satellite_image, try_return, pbind, run, pret.
    rewrite El, Hno. reflexivity.
  - intros msg El. unfold push_satellite_image, try_return, pbind, run.
    rewrite El. reflexivity.
  - intros listing download El Hno Ed.
    unfold push_satellite_image, try_return, pbind, run, call.
    rewrite El, Hno, Ed.
    destruct (push_to_epaper local_tmp ex) as [tr res]. reflexivity.
  - intros listing msg El Hno Ed.
    unfold push_satellite_image, try_return, pbind, run, call.
    rewrite El, Hno, Ed. reflexivity.
Qed.

(** The statement above, at the example inputs. *)
Lemma C6_push_satellite_image_outcomes_witness :
  push_satellite_image all_denied
  = ([list_images_cmd], failure "No satellite images found")
  /\ push_satellite_image all_time_out = ([list_images_cmd], failure "timed out")
  /\ snd (push_satellite_image download_fails) = success "Image pushed to e-Paper"
  /\ In (scp_image_cmd local_tmp) (fst (push_satellite_image download_fails))
  /\ snd (push_satellite_image download_times_out) = failure "timed out".
Proof.
  destruct (C6_push_satellite_image_outcomes all_denied) as (Hnone & _).
  destruct (C6_push_satellite_image_outcomes all_time_out) as (_ & Hraise & _).
  destruct (C6_push_satellite_image_outcomes download_fails) as (_ & _ & Hpush & _).
  destruct (C6_push_satellite_image_outcomes download_times_out) as (_ & _ & _ & Habort).
  split; [eapply Hnone; reflexivity|].
  split; [apply Hraise; reflexivity|].
  split; [erewrite Hpush by reflexivity; reflexivity|].
  split; [erewrite Hpush by reflexivity; vm_compute; tauto|].
  erewrite Habort by reflexivity. reflexivity.
Defined.

(** ** What each update leaves alone *)

Section Frames.
Context `{PyRuntime}.

Lemma stamp_lookup_other key k t s :
  key <> k -> last_update (stamp key t s) !! k = last_update s !! k.
Proof. intros Hne. simpl. now apply lookup_insert_ne. Qed.

Lemma position_frame r t s :
  sdr_log (update_iss_position r t s) = sdr_log s
  /\ forall k, k <> "iss_position" ->
       last_update (update_iss_position r t s) !! k = last_update s !! k.
Proof.
  unfold update_iss_position, try_except, print_error.
  destruct (iss_position_try_cases r t s)
    as [E|[[_ E]|(data & la & _ & _ & _ & [E|(lo & _ & [E|(ts & _ & E)])])]];
    rewrite E; split; trivial.
  intros k Hk. rewrite stamp_lookup_other by congruence. reflexivity.
Qed.

Lemma crew_frame r t s :
  sdr_log (update_iss_crew r t s) = sdr_log s
  /\ iss (update_iss_crew r t s) = iss s
  /\ forall k, k <> "iss_crew" ->
       last_update (update_iss_crew r t s) !! k = last_update s !! k.
Proof.
  unfold update_iss_crew, try_except, print_error.
  destruct (iss_crew_try_cases r t s) as [E|[[_ E]|(crew & _ & E)]];
    rewrite E; repeat split; trivial.
  intros k Hk. rewrite stamp_lookup_other by congruence. reflexivity.
Qed.

Lemma passes_frame r t s :
  sdr_log (update_iss_passes r t s) = sdr_log s
  /\ iss (update_iss_passes r t s) = iss s
  /\ forall k, k <> "iss_passes" ->
       last_update (update_iss_passes r t s) !! k = last_update s !! k.
Proof.
  unfold update_iss_passes, try_except, print_error.
  destruct (iss_passes_try_cases r t s) as [E|[[_ E]|(resp & _ & E)]];
    rewrite E; repeat split; trivial.
  intros k Hk. rewrite stamp_lookup_other by congruence. reflexivity.
Qed.

Lemma aircraft_frame r t s :
  sdr_log (update_aircraft r t s) = sdr_log s
  /\ iss (update_aircraft r t s) = iss s
  /\ forall k, k <> "aircraft" ->
       last_update (update_aircraft r t s) !! k = last_update s !! k.
Proof.
  unfold update_aircraft, try_except, print_error.
  destruct (aircraft_try_cases r t s) as [E|(data & found & _ & _ & E)];
    rewrite E; repeat split; trivial.
  intros k Hk. rewrite stamp_lookup_other by congruence. reflexivity.
Qed.

Lemma sdr_frame r t s :
  iss (update_sdr_status r t s) = iss s
  /\ forall k, k <> "sdr" ->
       last_update (update_sdr_status r t s) !! k = last_update s !! k.
Proof.
  unfold update_sdr_status, try_except.
  destruct (sdr_status_try_cases r t s)
    as [E|[[_ E]|(result & count & _ & _ & _ & E)]];
    cbv zeta in *; rewrite E; split; trivial.
  intros k Hk. rewrite stamp_lookup_other by congruence. reflexivity.
Qed.

End Frames.

(** ** The log tail *)

Lemma last_n_length {A} (n : nat) (l : list A) : List.length (last_n n l) <= n.
Proof. unfold last_n. rewrite length_skipn. lia. Qed.

Lemma last_n_suffix {A} (n : nat) (l : list A) :
  exists older, l = (older ++ last_n n l)%list.
Proof.
  exists (firstn (List.length l - n) l). unfold last_n.
  symmetry. apply firstn_skipn.
Qed.

Section LogTail.
Context `{PyRuntime}.

Lemma sdr_log_after_update r t s :
  sdr_log (update_sdr_status r t s) = sdr_log s
  \/ exists lines, sdr_log (update_sdr_status r t s) = last_n 10 lines.
Proof.
  unfold update_sdr_status, try_except.
  destruct (sdr_status_try_cases r t s)
    as [E|[[_ E]|(result & count & _ & _ & _ & E)]];
    cbv zeta in *; rewrite E; simpl; eauto.
Qed.

Lemma reachable_sdr_log_bounded s :
  reachable s -> List.length (sdr_log s) <= 10.
Proof.
  induction 1 as [|r t s _ IH|r t s _ IH|r t s _ IH|r t s _ IH|r t s _ IH].
  - simpl. lia.
  - now rewrite (proj1 (position_frame r t s)).
  - now rewrite (proj1 (crew_frame r t s)).
  - now rewrite (proj1 (passes_frame r t s)).
  - destruct (sdr_log_after_update r t s) as [E|[lines E]]; rewrite E;
      [exact IH|apply last_n_length].
  - now rewrite (proj1 (aircraft_frame r t s)).
Qed.

End LogTail.

(** C9.  In every reachable state [state['sdr_log']] holds at most 10
    lines; and an update that completes with exit status 0 and raises
    nothing stores the last 10 lines of the parsed log: a suffix of the
    parsed lines in their order, so the newest line stays last. *)
Theorem C9_sdr_log_bounded `{PyRuntime} (s : state) :
  reachable s ->
  List.length (sdr_log s) <= 10
  /\ forall result t,
       returncode result = 0%Z ->
       ~ raised (sdr_status_try (Completed result) t) s ->
       let lines := parse_log (split "---SDR_STATUS---" (stdout result)) in
       let s' := update_sdr_status (Completed result) t s in
       sdr_log s' = last_n 10 lines
       /\ List.length (sdr_log s') <= 10
       /\ exists older, lines = (older ++ sdr_log s')%list.
Proof.
  intros Hreach. split; [now apply reachable_sdr_log_bounded|].
  intros result t Hrc Hok lines s'.
  assert (E : sdr_log s' = last_n 10 lines).
  { subst s' lines. unfold raised in Hok.
    destruct (parse_running (split "---SDR_STATUS---" (stdout result)))
      as [count|] eqn:Ec.
    - rewrite (sdr_success_stores result count t s Hrc Ec). reflexivity.
    - exfalso. apply Hok. unfold sdr_status_try; run_body.
      rewrite Hrc, Ec. reflexivity. }
  rewrite E. split; [reflexivity|]. split; [apply last_n_length|apply last_n_suffix].
Qed.

(** The statement above, at the example inputs. *)
Lemma C9_sdr_log_bounded_witness :
  List.length (sdr_log recording_state) <= 10
  /\ sdr_log (@update_sdr_status decimal_runtime
                (completed_ok twelve_lines_output) 200 recording_state)
     = ["pass 03"; "pass 04"; "pass 05"; "pass 06"; "pass 07"; "pass 08";
        "pass 09"; "pass 10"; "pass 11"; "Sleeping until pass 12"].
Proof.
  assert (Hreach : @reachable decimal_runtime recording_state)
    by (apply reach_sdr, reach_initial).
  destruct (@C9_sdr_log_bounded decimal_runtime recording_state Hreach)
    as [Hbound Hstore].
  split; [exact Hbound|].
  destruct (Hstore {| returncode := 0; stdout := twelve_lines_output;
                      stderr := EmptyString |} 200%Q) as (Hlog & _).
  - reflexivity.
  - unfold raised. vm_compute. discriminate.
  - exact Hlog.
Defined.

(** ** Orbital position *)

Section PositionRange.
Context `{PyRuntime}.

(** A fetch that goes through stores both coordinates as [float()]
    returns them. *)
Lemma position_complete_fetch data la lo ts t s :
  envelope_ok (Loaded data) = true ->
  iss_coordinate data "latitude" = Some la ->
  iss_coordinate data "longitude" = Some lo ->
  getitem data "timestamp" = Some ts ->
  update_iss_position (Loaded data) t s
  = stamp "iss_position" t
      (set_iss_timestamp ts (set_iss_lon (PFloat lo) (set_iss_lat (PFloat la) s))).
Proof.
  unfold envelope_ok. intros Henv Hla Hlo Hts.
  unfold update_iss_position, try_except, iss_position_try; run_body.
  destruct (getitem data "message") as [message|]; [|discriminate].
  now rewrite Henv, Hla, Hlo, Hts.
Qed.

Lemma position_update_in_range r t s :
  position_in_range s ->
  (forall data la, r = Loaded data ->
     iss_coordinate data "latitude" = Some la -> within 90 (PFloat la) = true) ->
  (forall data lo, r = Loaded data ->
     iss_coordinate data "longitude" = Some lo -> within 180 (PFloat lo) = true) ->
  position_in_range (update_iss_position r t s).
Proof.
  intros [Hla Hlo] Hlat Hlon.
  unfold update_iss_position, try_except, print_error.
  destruct (iss_position_try_cases r t s)
    as [E|[[_ E]|(data & la & Hr & _ & Ela & [E|(lo & Elo & [E|(ts & _ & E)])])]];
    rewrite E; unfold position_in_range; simpl; split; trivial;
    solve [eapply Hlat; eauto | eapply Hlon; eauto].
Qed.

End PositionRange.

(** C7 (as stated, refuted).  A body with latitude 95 is stored as it
    comes: the state after the update is reachable and its latitude is
    outside [-90, 90]. *)
Lemma C7_out_of_range_latitude_is_stored :
  @reachable decimal_runtime
    (@update_iss_position decimal_runtime (Loaded (iss_now "95" "10")) 1 initial_state)
  /\ iss_lat (iss (@update_iss_position decimal_runtime
                     (Loaded (iss_now "95" "10")) 1 initial_state))
     = PFloat 95%float
  /\ ~ position_in_range
         (@update_iss_position decimal_runtime
            (Loaded (iss_now "95" "10")) 1 initial_state).
Proof.
  split; [apply reach_position, reach_initial|]. split; [reflexivity|].
  intros [Hla _]. vm_compute in Hla. discriminate Hla.
Qed.

(** C7 (amended).  In the initial state the position is zero, which is
    in range.  [update_iss_position] makes no range check: a fetch whose
    body carries [message == 'success'], a latitude and a longitude that
    [float()] converts, and a timestamp, stores [float(latitude)] and
    [float(longitude)] whatever their values.  It preserves latitude in
    [-90, 90] and longitude in [-180, 180] for every body whose
    coordinates, where they convert to a float, lie in these ranges.  No
    other update assigns to [state['iss']]. *)
Theorem C7_position_range_preserved `{PyRuntime} :
  (iss_lat (iss initial_state) = PInt 0 /\ iss_lon (iss initial_state) = PInt 0
   /\ position_in_range initial_state)
  /\ (forall data la lo ts t s,
        envelope_ok (Loaded data) = true ->
        iss_coordinate data "latitude" = Some la ->
        iss_coordinate data "longitude" = Some lo ->
        getitem data "timestamp" = Some ts ->
        iss_lat (iss (update_iss_position (Loaded data) t s)) = PFloat la
        /\ iss_lon (iss (update_iss_position (Loaded data) t s)) = PFloat lo)
  /\ (forall r t s,
        position_in_range s ->
        (forall data la, r = Loaded data ->
           iss_coordinate data "latitude" = Some la ->
           within 90 (PFloat la) = true) ->
        (forall data lo, r = Loaded data ->
           iss_coordinate data "longitude" = Some lo ->
           within 180 (PFloat lo) = true) ->
        position_in_range (update_iss_position r t s))
  /\ (forall r t s, iss (update_iss_crew r t s) = iss s)
  /\ (forall r t s, iss (update_iss_passes r t s) = iss s)
  /\ (forall r t s, iss (update_sdr_status r t s) = iss s)
  /\ (forall r t s, iss (update_aircraft r t s) = iss s).
Proof.
  split; [repeat split; reflexivity|].
  split.
  { intros data la lo ts t s Henv Hla Hlo Hts.
    rewrite (position_complete_fetch data la lo ts t s Henv Hla Hlo Hts).
    split; reflexivity. }
  split; [intros r t s; apply position_update_in_range|].
  split; [intros r t s; apply crew_frame|].
  split; [intros r t s; apply passes_frame|].
  split; [intros r t s; apply sdr_frame|].
  intros r t s; apply aircraft_frame.
Qed.

(** The statement above, at the example inputs. *)
Lemma C7_position_range_preserved_witness :
  position_in_range
    (@update_iss_position decimal_runtime (Loaded (iss_now "51" "-1")) 1 initial_state)
  /\ iss_lat (iss (@update_iss_position decimal_runtime
                     (Loaded (iss_now "51" "-1")) 1 initial_state))
     = PFloat 51%float
  /\ iss_lon (iss (@update_iss_position decimal_runtime
                     (Loaded (iss_now "51" "-1")) 1 initial_state))
     = PFloat (-1)%float.
Proof.
  destruct (@C7_position_range_preserved decimal_runtime)
    as ((_ & _ & Hinit) & Hstore & Hupd & _).
  split.
  - apply Hupd.
    + exact Hinit.
    + intros data la E. injection E as <-. vm_compute. intros [= <-]. reflexivity.
    + intros data lo E. injection E as <-. vm_compute. intros [= <-]. reflexivity.
  - apply (Hstore (iss_now "51" "-1") 51%float (-1)%float (PInt 1700000000));
      reflexivity.
Defined.

(** ** Scheduler cadence *)

Lemma Qgtb_true a b : Qgtb a b = true <-> (b < a)%Q.
Proof.
  unfold Qgtb. rewrite negb_true_iff, <- not_true_iff_false, Qle_bool_iff.
  split; [apply Qnot_le_lt|apply Qlt_not_le].
Qed.

Lemma Qgtb_false a b : Qgtb a b = false <-> (a <= b)%Q.
Proof. unfold Qgtb. rewrite negb_false_iff. apply Qle_bool_iff. Qed.

Section Cadence.
Context `{PyRuntime}.

Lemma last_update_get_lookup key s t0 :
  last_update s !! key = Some t0 -> last_update_get key s = t0.
Proof. unfold last_update_get. now intros ->. Qed.

(** The crew gate of a pass sees the stamp the pass started with: the
    two updates before it write other keys. *)
Lemma crew_stamp_at_gate w s :
  last_update
    (update_sdr_status (sdr_resp w) (sdr_clock w)
       (update_iss_position (position_resp w) (position_clock w) s))
    !! "iss_crew"
  = last_update s !! "iss_crew".
Proof.
  rewrite (proj2 (sdr_frame _ _ _)) by discriminate.
  now rewrite (proj2 (position_frame _ _ _)) by discriminate.
Qed.

(** The crew list is written by the crew update only. *)
Lemma crew_untouched_by_position r t s :
  iss_crew (update_iss_position r t s) = iss_crew s.
Proof.
  unfold update_iss_position, try_except, print_error.
  destruct (iss_position_try_cases r t s)
    as [E|[[_ E]|(data & la & _ & _ & _ & [E|(lo & _ & [E|(ts & _ & E)])])]];
    rewrite E; reflexivity.
Qed.

Lemma crew_untouched_by_sdr r t s :
  iss_crew (update_sdr_status r t s) = iss_crew s.
Proof.
  unfold update_sdr_status, try_except.
  destruct (sdr_status_try_cases r t s)
    as [E|[[_ E]|(result & count & _ & _ & _ & E)]];
    cbv zeta in *; rewrite E; reflexivity.
Qed.

Lemma crew_untouched_by_passes r t s :
  iss_crew (update_iss_passes r t s) = iss_crew s.
Proof.
  unfold update_iss_passes, try_except, print_error.
  destruct (iss_passes_try_cases r t s) as [E|[[_ E]|(resp & _ & E)]];
    rewrite E; reflexivity.
Qed.

Lemma crew_untouched_by_aircraft r t s :
  iss_crew (update_aircraft r t s) = iss_crew s.
Proof.
  unfold update_aircraft, try_except, print_error.
  destruct (aircraft_try_cases r t s) as [E|(data & found & _ & _ & E)];
    rewrite E; reflexivity.
Qed.

(** What the crew update does is fixed by the answer it gets: nothing, or
    the same list and stamp whatever the state. *)
Lemma update_iss_crew_shape r t :
  (forall s, update_iss_crew r t s = s)
  \/ exists crew,
       forall s, update_iss_crew r t s = stamp "iss_crew" t (set_iss_crew crew s).
Proof.
  unfold update_iss_crew, try_except, iss_crew_try; run_body.
  destruct r as [data|]; [|now left].
  destruct (getitem data "message") as [message|]; [|now left].
  destruct (eq_str message "success"); [|now left].
  destruct (getitem data "people") as [people|]; [|now left].
  destruct (iter_items people) as [items|]; [|now left].
  destruct (crew_of items) as [crew|]; [|now left].
  right. now exists crew.
Qed.

Lemma crew_update_transfers r t s s' :
  iss_crew s' = iss_crew s ->
  last_update s' !! "iss_crew" = last_update s !! "iss_crew" ->
  iss_crew (update_iss_crew r t s') = iss_crew (update_iss_crew r t s)
  /\ last_update (update_iss_crew r t s') !! "iss_crew"
     = last_update (update_iss_crew r t s) !! "iss_crew".
Proof.
  intros Hcrew Hstamp.
  destruct (update_iss_crew_shape r t) as [E|[crew E]]; rewrite !E.
  - now split.
  - split; [reflexivity|]. simpl. now rewrite !lookup_insert_eq.
Qed.

(** The two gated updates that follow the crew gate leave the crew list
    and its stamp alone, and add no crew call. *)
Lemma after_crew_gate w (a1 : state * list source) :
  let a2 := gated (due "iss_passes" 300 w (fst a1)) src_passes
              (update_iss_passes (passes_resp w) (passes_clock w)) a1 in
  let a3 := gated (due "aircraft" 15 w (fst a2)) src_aircraft
              (update_aircraft (aircraft_resp w) (aircraft_clock w)) a2 in
  iss_crew (fst a3) = iss_crew (fst a1)
  /\ last_update (fst a3) !! "iss_crew" = last_update (fst a1) !! "iss_crew"
  /\ (In src_crew (snd a3) <-> In src_crew (snd a1)).
Proof.
  cbv zeta. unfold gated.
  destruct (due "iss_passes" 300 w (fst a1)); cbn [fst snd];
    match goal with
    | |- context [due "aircraft" 15 w ?x] => destruct (due "aircraft" 15 w x)
    end; cbn [fst snd];
    rewrite ?crew_untouched_by_aircraft, ?crew_untouched_by_passes;
    repeat first
      [ rewrite (proj2 (proj2 (aircraft_frame _ _ _))) by discriminate
      | rewrite (proj2 (proj2 (passes_frame _ _ _))) by discriminate ];
    (split; [reflexivity|split; [reflexivity|]]);
    rewrite ?in_app_iff; cbn [In]; intuition discriminate.
Qed.

(** One pass, seen from the crew manifest: below the period nothing is
    called and nothing changes; above it the crew update is called and
    what it stores is what the pass leaves. *)
Lemma iteration_crew_effect w s t0 :
  last_update s !! "iss_crew" = Some t0 ->
  ((now w - t0 <= 600)%Q ->
   ~ In src_crew (snd (iteration w s))
   /\ iss_crew (fst (iteration w s)) = iss_crew s
   /\ last_update (fst (iteration w s)) !! "iss_crew" = Some t0)
  /\ ((600 < now w - t0)%Q ->
      In src_crew (snd (iteration w s))
      /\ iss_crew (fst (iteration w s))
         = iss_crew (update_iss_crew (crew_resp w) (crew_clock w) s)
      /\ last_update (fst (iteration w s)) !! "iss_crew"
         = last_update (update_iss_crew (crew_resp w) (crew_clock w) s) !! "iss_crew").
Proof.
  intros Hstamp. unfold iteration. cbv zeta.
  set (s2 := update_sdr_status _ _ _).
  assert (H2 : last_update s2 !! "iss_crew" = last_update s !! "iss_crew")
    by (subst s2; apply crew_stamp_at_gate).
  assert (C2 : iss_crew s2 = iss_crew s)
    by (subst s2; now rewrite crew_untouched_by_sdr, crew_untouched_by_position).
  split; intros Hnow.
  - assert (Hgate : due "iss_crew" 600 w s2 = false).
    { unfold due. rewrite (last_update_get_lookup _ _ t0) by congruence.
      now apply Qgtb_false. }
    destruct (after_crew_gate w
                (gated (due "iss_crew" 600 w s2) src_crew
                   (update_iss_crew (crew_resp w) (crew_clock w))
                   (s2, [src_position; src_sdr]))) as (Hc & Hs & Hin).
    cbv zeta in Hc, Hs, Hin. cbn [fst] in *. rewrite Hc, Hs, Hin.
    unfold gated. cbn [fst snd]. rewrite Hgate. cbn [fst snd In].
    split; [intuition discriminate|]. split; congruence.
  - assert (Hgate : due "iss_crew" 600 w s2 = true).
    { unfold due. rewrite (last_update_get_lookup _ _ t0) by congruence.
      now apply Qgtb_true. }
    destruct (after_crew_gate w
                (gated (due "iss_crew" 600 w s2) src_crew
                   (update_iss_crew (crew_resp w) (crew_clock w))
                   (s2, [src_position; src_sdr]))) as (Hc & Hs & Hin).
    cbv zeta in Hc, Hs, Hin. cbn [fst] in *. rewrite Hc, Hs, Hin.
    unfold gated. cbn [fst snd]. rewrite Hgate. cbn [fst snd].
    split; [rewrite in_app_iff; right; now left|].
    apply crew_update_transfers; assumption.
Qed.

Lemma iteration_crew_not_due w s t0 :
  last_update s !! "iss_crew" = Some t0 ->
  (now w - t0 <= 600)%Q ->
  ~ In src_crew (snd (iteration w s))
  /\ last_update (fst (iteration w s)) !! "iss_crew" = Some t0.
Proof.
  intros Hstamp Hle.
  destruct (proj1 (iteration_crew_effect w s t0 Hstamp) Hle) as (Hq & _ & Hk).
  now split.
Qed.

Lemma iteration_crew_due w s t0 :
  last_update s !! "iss_crew" = Some t0 ->
  (600 < now w - t0)%Q ->
  In src_crew (snd (iteration w s)).
Proof.
  intros Hstamp Hlt.
  exact (proj1 (proj2 (iteration_crew_effect w s t0 Hstamp) Hlt)).
Qed.

(** The loop makes one pass for each tick, in order. *)
Lemma background_updater_snoc ws w s :
  background_updater (ws ++ [w]) s
  = (fst (iteration w (fst (background_updater ws s))),
     (snd (background_updater ws s)
        ++ [snd (iteration w (fst (background_updater ws s)))])%list).
Proof.
  revert s. induction ws as [|w0 ws IH]; intros s; simpl.
  - now destruct (iteration w s).
  - destruct (iteration w0 s) as [s' calls]. rewrite IH.
    destruct (background_updater ws s') as [s'' later]. reflexivity.
Qed.

Lemma background_updater_passes ws s :
  List.length (snd (background_updater ws s)) = List.length ws.
Proof.
  revert s. induction ws as [|w ws IH]; intros s; simpl; [reflexivity|].
  destruct (iteration w s) as [s' calls]. specialize (IH s').
  destruct (background_updater ws s') as [s'' later]. simpl in *. now rewrite IH.
Qed.

Lemma background_updater_crew_quiet ws s t0 :
  last_update s !! "iss_crew" = Some t0 ->
  Forall (fun w => (now w - t0 <= 600)%Q) ws ->
  Forall (fun calls => ~ In src_crew calls) (snd (background_updater ws s))
  /\ iss_crew (fst (background_updater ws s)) = iss_crew s
  /\ last_update (fst (background_updater ws s)) !! "iss_crew" = Some t0.
Proof.
  intros Hstamp Hall. revert s Hstamp.
  induction Hall as [|w ws Hw _ IH]; intros s Hstamp; simpl.
  - split; [constructor|split; [reflexivity|exact Hstamp]].
  - destruct (proj1 (iteration_crew_effect w s t0 Hstamp) Hw)
      as (Hquiet & Hcrew & Hkept).
    destruct (iteration w s) as [s' calls]. simpl in Hquiet, Hcrew, Hkept.
    destruct (IH s' Hkept) as (Hlater & Hc & Hfinal).
    destruct (background_updater ws s') as [s'' later]. simpl in *.
    split; [now constructor|]. split; [congruence|exact Hfinal].
Qed.

End Cadence.



(** ** Aircraft parsing *)

Lemma collect_filter vectors found :
  collect vectors = Some found ->
  Forall2 (fun v a => aircraft_record v = Some a)
    (List.filter positioned vectors) found.
Proof.
  revert found. induction vectors as [|v rest IH]; intros found; simpl.
  - intros [= <-]. constructor.
  - unfold positioned at 1.
    destruct (has_position v) as [[|]|]; [| |discriminate].
    + destruct (aircraft_record v) as [a|] eqn:Ea; [|discriminate].
      destruct (collect rest) as [tl|]; [|discriminate].
      intros [= <-]. constructor; [exact Ea|now apply IH].
    + apply IH.
Qed.

Lemma parse_aircraft_states d vectors :
  dict_get "states" d = Some (PList vectors) ->
  parse_aircraft (PDict d) = collect (firstn 50 vectors).
Proof.
  intros Hd. unfold parse_aircraft, get_method. rewrite Hd.
  destruct vectors as [|v rest]; reflexivity.
Qed.

Lemma filter_all {A} (f : A -> bool) (l : list A) :
  forallb f l = true -> List.filter f l = l.
Proof.
  induction l as [|x l IH]; simpl; [reflexivity|].
  rewrite andb_true_iff. intros [-> Hl]. now rewrite IH.
Qed.

Lemma record_altitude v a :
  aircraft_record v = Some a ->
  altitude v = Some (alt_m a)
  /\ int_times (alt_m a) feet_per_metre = Some (alt_ft a).
Proof. intros Hrec. open_record Hrec. now split. Qed.

Lemma record_velocity v a :
  aircraft_record v = Some a ->
  exists speed, or_zero v 9 = Some speed
                /\ int_times speed knots_per_mps = Some (velocity_kt a).
Proof. intros Hrec. open_record Hrec. eauto. Qed.


Lemma collect_raises vectors :
  collect vectors = None -> exists v, In v vectors /\ unreadable v.
Proof.
  unfold unreadable. induction vectors as [|v rest IH]; simpl; [discriminate|].
  destruct (has_position v) as [[|]|] eqn:Hp.
  - destruct (aircraft_record v) as [a|] eqn:Ea.
    + destruct (collect rest) as [tl|]; [discriminate|]. intros _.
      destruct (IH eq_refl) as (v' & Hin & Hbad). eauto.
    + intros _. exists v. split; [now left|]. right. now split.
  - intros Hc. destruct (IH Hc) as (v' & Hin & Hbad). eauto.
  - intros _. exists v. split; [now left|]. now left.
Qed.

Lemma collect_returns vectors found :
  collect vectors = Some found -> Forall (fun v => ~ unreadable v) vectors.
Proof.
  unfold unreadable. revert found.
  induction vectors as [|v rest IH]; intros found; simpl; [constructor|].
  destruct (has_position v) as [[|]|] eqn:Hp; [| |discriminate].
  - destruct (aircraft_record v) as [a|] eqn:Ea; [|discriminate].
    destruct (collect rest) as [tl|]; [|discriminate]. intros _.
    constructor; [|now apply (IH tl)].
    intros [Hbad|[_ Hbad]]; congruence.
  - intros Hc. constructor; [|now apply (IH found)].
    intros [Hbad|[Hbad _]]; congruence.
Qed.



(** ** Aircraft records *)

Lemma py_or_not_none v d : d <> PNone -> py_or v d <> PNone.
Proof.
  intros Hd. unfold py_or. destruct (truthy v) eqn:Ev; [|exact Hd].
  intros ->. discriminate Ev.
Qed.

Lemma or_zero_not_none v i x : or_zero v i = Some x -> x <> PNone.
Proof.
  unfold or_zero. destruct (index v i) as [e|]; [|discriminate].
  intros [= <-]. now apply py_or_not_none.
Qed.

Lemma or_zero_number v i x :
  or_zero v i = Some x ->
  (forall e, index v i = Some e -> null_or_number e = true) ->
  is_number x = true.
Proof.
  unfold or_zero. destruct (index v i) as [e|]; [|discriminate].
  intros [= <-] Htyped. specialize (Htyped e eq_refl).
  unfold py_or. destruct e; try discriminate; simpl; try reflexivity;
    now destruct (negb _).
Qed.

Lemma or_zero_null v i x :
  or_zero v i = Some x -> index v i = Some PNone -> x = PInt 0.
Proof. unfold or_zero. intros Hx Hi. rewrite Hi in Hx. now injection Hx as <-. Qed.

Lemma int_times_number m c z : int_times m c = Some z -> is_number m = true.
Proof. unfold int_times, mul_float. now destruct m. Qed.

(** [s[7] or s[13] or 0]: the barometric altitude if it is truthy, else
    the geometric altitude, else 0. *)
Lemma altitude_fallback v m :
  altitude v = Some m ->
  exists s7, index v 7 = Some s7
    /\ (truthy s7 = true -> m = s7)
    /\ (truthy s7 = false ->
        exists s13, index v 13 = Some s13
          /\ (truthy s13 = true -> m = s13)
          /\ (truthy s13 = false -> m = PInt 0)).
Proof.
  unfold altitude. destruct (index v 7) as [s7|]; [|discriminate].
  intros Hm. exists s7. split; [reflexivity|].
  destruct (truthy s7).
  - injection Hm as <-. split; [reflexivity|discriminate].
  - split; [discriminate|]. intros _.
    destruct (index v 13) as [s13|]; [|discriminate].
    injection Hm as <-. exists s13. split; [reflexivity|].
    unfold py_or. destruct (truthy s13); split; congruence.
Qed.

Lemma record_heading v a :
  aircraft_record v = Some a ->
  or_zero v 10 = Some (heading a) /\ or_zero v 11 = Some (vertical_rate a).
Proof. intros Hrec. open_record Hrec. now split. Qed.

Lemma record_callsign v a :
  aircraft_record v = Some a ->
  exists s1, index v 1 = Some s1
             /\ strip_method (py_or s1 (PStr EmptyString)) = Some (callsign a).
Proof. intros Hrec. open_record Hrec. eauto. Qed.

Lemma strip_method_stripped x s : strip_method x = Some s -> stripped s.
Proof. destruct x; try discriminate. intros [= <-]. apply strip_stripped_of. Qed.

(** [(v or '').strip()]: the empty string for a falsy [v], the stripped
    string for a string, and [AttributeError] for anything else. *)
Lemma callsign_of v cs :
  strip_method (py_or v (PStr EmptyString)) = Some cs ->
  (truthy v = false -> cs = EmptyString)
  /\ (truthy v = true -> exists str, v = PStr str /\ stripped_of str cs).
Proof.
  unfold py_or. destruct (truthy v) eqn:Ev.
  - intros Hcs. split; [discriminate|]. intros _.
    destruct v; try discriminate Hcs. injection Hcs as <-.
    eexists. split; [reflexivity|apply strip_stripped_of].
  - intros [= <-]. split; [reflexivity|discriminate].
Qed.

Lemma or_zero_value v i x :
  or_zero v i = Some x ->
  exists e, index v i = Some e /\ x = if truthy e then e else PInt 0.
Proof.
  unfold or_zero, py_or. destruct (index v i) as [e|]; [|discriminate].
  intros [= <-]. now exists e.
Qed.

Lemma collect_source vectors found a :
  collect vectors = Some found -> In a found ->
  exists v, In v vectors /\ aircraft_record v = Some a.
Proof.
  revert found. induction vectors as [|v rest IH]; intros found; simpl.
  - intros [= <-] [].
  - destruct (has_position v) as [[|]|]; [| |discriminate].
    + destruct (aircraft_record v) as [a'|] eqn:Ea; [|discriminate].
      destruct (collect rest) as [tl|] eqn:Et; [|discriminate].
      intros [= <-] [<-|Hin]; [eauto|].
      destruct (IH tl eq_refl Hin) as (v' & Hv' & Hrec). eauto.
    + intros Hc Hin. destruct (IH found Hc Hin) as (v' & Hv' & Hrec). eauto.
Qed.

Lemma parse_aircraft_source data found a :
  parse_aircraft data = Some found -> In a found ->
  exists v, aircraft_record v = Some a.
Proof.
  unfold parse_aircraft.
  destruct (get_method data "states") as [states|]; [|discriminate].
  destruct (truthy states).
  - destruct (slice_to 50 states) as [sl|]; [|discriminate].
    destruct (iter_items sl) as [items|]; [|discriminate].
    intros Hc Hin. destruct (collect_source items found a Hc Hin) as (v & _ & Hv).
    eauto.
  - intros [= <-] [].
Qed.

(** C10 (as stated, refuted).  A state vector whose true track is the
    string ['NE'] is stored with [heading] ['NE']: [s[10] or 0] replaces
    only a falsy entry, and nothing checks that the entry is a number. *)
Lemma C10_string_heading_is_stored :
  index vector_ne 10 = Some (PStr "NE")
  /\ map heading
       (aircraft (update_aircraft (Loaded (opensky [vector_ne])) 1 initial_state))
     = [PStr "NE"]
  /\ is_number (PStr "NE") = false.
Proof. repeat split; reflexivity. Qed.

(** C10 (amended).  Whenever [update_aircraft] stores a list, every
    record in it comes from an upstream state vector [v] and has:
    - [alt_m] a number, namely [v[7]] if truthy, else [v[13]] if truthy,
      else 0;
    - [alt_ft] the integer [int(alt_m * 3.281)] and [velocity_kt] the
      integer [int((v[9] or 0) * 1.944)];
    - [heading] equal to [v[10] or 0] and [vertical_rate] to
      [v[11] or 0]: the upstream entry when it is truthy, 0 otherwise;
      so neither is ever [None], both are 0 for an upstream [null], and
      both are numbers when the upstream entry is [null] or a number;
    - [callsign] the empty string when [v[1]] is falsy, and otherwise the
      string [v[1]] without the whitespace at its two ends; in both cases
      a string that neither begins nor ends with whitespace. *)
Theorem C10_aircraft_fields_total (data : pyval) (found : list aircraft_t)
    (a : aircraft_t) (t : Q) (s : state) :
  parse_aircraft data = Some found ->
  In a found ->
  aircraft (update_aircraft (Loaded data) t s) = found
  /\ exists v,
       aircraft_record v = Some a
       /\ is_number (alt_m a) = true
       /\ (exists s7, index v 7 = Some s7
             /\ (truthy s7 = true -> alt_m a = s7)
             /\ (truthy s7 = false ->
                 exists s13, index v 13 = Some s13
                   /\ (truthy s13 = true -> alt_m a = s13)
                   /\ (truthy s13 = false -> alt_m a = PInt 0)))
       /\ int_times (alt_m a) feet_per_metre = Some (alt_ft a)
       /\ (exists speed, or_zero v 9 = Some speed
             /\ int_times speed knots_per_mps = Some (velocity_kt a))
       /\ (exists s10, index v 10 = Some s10
             /\ heading a = if truthy s10 then s10 else PInt 0)
       /\ (exists s11, index v 11 = Some s11
             /\ vertical_rate a = if truthy s11 then s11 else PInt 0)
       /\ heading a <> PNone
       /\ vertical_rate a <> PNone
       /\ (index v 10 = Some PNone -> heading a = PInt 0)
       /\ (index v 11 = Some PNone -> vertical_rate a = PInt 0)
       /\ ((forall e, index v 10 = Some e -> null_or_number e = true) ->
           is_number (heading a) = true)
       /\ ((forall e, index v 11 = Some e -> null_or_number e = true) ->
           is_number (vertical_rate a) = true)
       /\ (exists s1, index v 1 = Some s1
             /\ (truthy s1 = false -> callsign a = EmptyString)
             /\ (truthy s1 = true ->
                 exists str, s1 = PStr str /\ stripped_of str (callsign a)))
       /\ stripped (callsign a).
Proof.
  intros Hparse Hin. split.
  { unfold update_aircraft, try_except, aircraft_try; run_body.
    rewrite Hparse. reflexivity. }
  destruct (parse_aircraft_source data found a Hparse Hin) as [v Hrec].
  destruct (record_altitude v a Hrec) as [Halt Hfeet].
  destruct (record_heading v a Hrec) as [Hhd Hvr].
  destruct (record_callsign v a Hrec) as (s1 & Hs1 & Hcs).
  exists v. split; [exact Hrec|].
  split; [exact (int_times_number _ _ _ Hfeet)|].
  split; [exact (altitude_fallback v _ Halt)|].
  split; [exact Hfeet|].
  split; [exact (record_velocity v a Hrec)|].
  split; [exact (or_zero_value _ _ _ Hhd)|].
  split; [exact (or_zero_value _ _ _ Hvr)|].
  split; [exact (or_zero_not_none _ _ _ Hhd)|].
  split; [exact (or_zero_not_none _ _ _ Hvr)|].
  split; [exact (or_zero_null _ _ _ Hhd)|].
  split; [exact (or_zero_null _ _ _ Hvr)|].
  split; [exact (or_zero_number _ _ _ Hhd)|].
  split; [exact (or_zero_number _ _ _ Hvr)|].
  split; [|exact (strip_method_stripped _ _ Hcs)].
  exists s1. split; [exact Hs1|]. exact (callsign_of s1 _ Hcs).
Qed.

(** The statement above, at the example inputs: the callsign
    ['UAL123  '] loses its two trailing blanks, the missing track and
    vertical rate become 0. *)
Lemma C10_aircraft_fields_total_witness :
  aircraft (update_aircraft (Loaded (opensky [vector (PInt 29)])) 1 initial_state)
  = [ual123]
  /\ is_number (alt_m ual123) = true
  /\ int_times (alt_m ual123) feet_per_metre = Some 3281%Z
  /\ heading ual123 <> PNone
  /\ vertical_rate ual123 <> PNone
  /\ stripped (callsign ual123).
Proof.
  destruct (C10_aircraft_fields_total (opensky [vector (PInt 29)]) [ual123] ual123
              1 initial_state)
    as (Hstored & v & _ & Hnum & _ & Hfeet & _ & _ & _ & Hhd & Hvr & _ & _ & _ & _
        & _ & Hcs).
  - reflexivity.
  - left. reflexivity.
  - repeat split; try assumption; apply Hcs.
Defined.

(** * Further properties *)

(** ** The crew filter *)

Lemma crew_of_filter items crew :
  crew_of items = Some crew <->
  forallb has_craft items = true /\ crew = List.filter is_iss items.
Proof.
  revert crew. induction items as [|p rest IH]; intros crew; simpl.
  - split; [intros [= <-]; now split|intros [_ ->]; reflexivity].
  - unfold has_craft at 1, is_iss at 1.
    destruct (getitem p "craft") as [craft|]; simpl.
    + destruct (crew_of rest) as [tl|].
      * destruct (proj1 (IH tl) eq_refl) as [Hall ->].
        split; [intros [= <-]; now split|intros [_ ->]; reflexivity].
      * split; [discriminate|]. intros [Hall _].
        discriminate (proj2 (IH (List.filter is_iss rest)) (conj Hall eq_refl)).
    + split; [discriminate|]. intros [Hall _]. discriminate Hall.
Qed.

(** X1.  For a body with [message == 'success'] whose [people] is a
    list, [update_iss_crew] stores exactly the entries whose [craft] is
    ['ISS'], in upstream order, and stamps the fetch, also when that list
    is empty; when some entry has no [craft] (or is not an object) the
    update changes nothing. *)
Theorem X1_crew_is_the_iss_filter (data : pyval) (people : list pyval)
    (t : Q) (s : state) :
  envelope_ok (Loaded data) = true ->
  getitem data "people" = Some (PList people) ->
  (forallb has_craft people = true ->
   update_iss_crew (Loaded data) t s
   = stamp "iss_crew" t (set_iss_crew (List.filter is_iss people) s))
  /\ (forallb has_craft people = false -> update_iss_crew (Loaded data) t s = s).
Proof.
  unfold envelope_ok. intros Henv Hpeople.
  unfold update_iss_crew, try_except, iss_crew_try; run_body.
  destruct (getitem data "message") as [message|]; [|discriminate].
  rewrite Henv, Hpeople. simpl.
  destruct (crew_of people) as [crew|] eqn:Ec.
  - apply crew_of_filter in Ec as [Hall ->]. split; [reflexivity|congruence].
  - split; [|reflexivity]. intros Hall.
    rewrite (proj2 (crew_of_filter people _) (conj Hall eq_refl)) in Ec.
    discriminate.
Qed.

(** The statement above, at the example inputs. *)
Lemma X1_crew_is_the_iss_filter_witness :
  iss_crew (update_iss_crew (Loaded astros) 0 initial_state)
  = [PDict [("name", PStr "A"); ("craft", PStr "ISS")]].
Proof.
  destruct (X1_crew_is_the_iss_filter astros
              [PDict [("name", PStr "A"); ("craft", PStr "ISS")];
               PDict [("name", PStr "B"); ("craft", PStr "Tiangong")]]
              0 initial_state eq_refl eq_refl) as [Hok _].
  rewrite Hok by reflexivity. reflexivity.
Defined.

(** ** The state after an update, in closed form *)

Lemma set_iss_same s : set_iss (iss s) s = s.
Proof. now destruct s. Qed.

Lemma status_of_line_running line :
  status_of_line line <> unknown /\ status_of_line line <> unreachable
  /\ status_of_line line <> offline.
Proof.
  unfold status_of_line.
  repeat match goal with |- context [if ?b then _ else _] => destruct b end;
    repeat split; discriminate.
Qed.

Section UpdateResults.
Context `{PyRuntime}.

Lemma update_iss_crew_result r t s :
  update_iss_crew r t s = s
  \/ exists crew, Forall (fun p => is_iss p = true) crew
       /\ update_iss_crew r t s = stamp "iss_crew" t (set_iss_crew crew s).
Proof.
  unfold update_iss_crew, try_except, iss_crew_try; run_body.
  destruct r as [data|]; [|now left].
  destruct (getitem data "message") as [message|]; [|now left].
  destruct (eq_str message "success"); [|now left].
  destruct (getitem data "people") as [people|]; [|now left].
  destruct (iter_items people) as [items|]; [|now left].
  destruct (crew_of items) as [crew|] eqn:Ec; [|now left].
  right. exists crew. split; [|reflexivity].
  apply crew_of_filter in Ec as [_ ->].
  apply List.Forall_forall. intros p Hp. now apply List.filter_In in Hp.
Qed.

Lemma update_iss_passes_result r t s :
  update_iss_passes r t s = s
  \/ exists response,
       update_iss_passes r t s = stamp "iss_passes" t (set_iss_passes response s).
Proof.
  unfold update_iss_passes, try_except, print_error.
  destruct (iss_passes_try_cases r t s) as [E|[[_ E]|(resp & _ & E)]];
    rewrite E; eauto.
Qed.

Lemma update_aircraft_result r t s :
  update_aircraft r t s = s
  \/ exists data found, parse_aircraft data = Some found
       /\ update_aircraft r t s = stamp "aircraft" t (set_aircraft found s).
Proof.
  unfold update_aircraft, try_except, print_error.
  destruct (aircraft_try_cases r t s) as [E|(data & found & _ & Hp & E)];
    rewrite E; eauto.
Qed.

Lemma update_sdr_status_result r t s :
  update_sdr_status r t s = s
  \/ update_sdr_status r t s = set_sdr_status unreachable s
  \/ exists st lines,
       st <> unknown /\ st <> unreachable
       /\ update_sdr_status r t s
          = stamp "sdr" t (set_sdr_status st (set_sdr_log (last_n 10 lines) s)).
Proof.
  unfold update_sdr_status, try_except.
  destruct (sdr_status_try_cases r t s)
    as [E|[[_ E]|(result & count & _ & _ & _ & E)]];
    cbv zeta in *; rewrite E; auto.
  right; right. eexists _, _. split; [|split; [|reflexivity]];
    destruct (Z.ltb 0 count); try discriminate;
    apply status_of_line_running.
Qed.

Lemma update_iss_position_result r t s :
  update_iss_position r t s = s
  \/ (exists la, update_iss_position r t s = set_iss_lat (PFloat la) s)
  \/ (exists la lo,
        update_iss_position r t s
        = set_iss_lon (PFloat lo) (set_iss_lat (PFloat la) s))
  \/ (exists la lo ts,
        update_iss_position r t s
        = stamp "iss_position" t
            (set_iss_timestamp ts
               (set_iss_lon (PFloat lo) (set_iss_lat (PFloat la) s)))).
Proof.
  unfold update_iss_position, try_except, print_error.
  destruct (iss_position_try_cases r t s)
    as [E|[[_ E]|(data & la & _ & _ & _ & [E|(lo & _ & [E|(ts & _ & E)])])]];
    rewrite E; eauto 8.
Qed.

End UpdateResults.

(** ** Invariants over the reachable states *)

Lemma substring_length n s : String.length (String.substring 0 n s) <= n.
Proof.
  revert s. induction n as [|n IH]; intros [|c s]; simpl; try lia.
  specialize (IH s). lia.
Qed.

Lemma list_ascii_length s :
  List.length (list_ascii_of_string s) = String.length s.
Proof. induction s as [|c s IH]; simpl; congruence. Qed.

Lemma collect_length vectors found :
  collect vectors = Some found -> List.length found <= List.length vectors.
Proof.
  intros Hc. apply collect_filter in Hc.
  rewrite <- (Forall2_length _ _ _ Hc). apply filter_length_le.
Qed.

Lemma parse_aircraft_length data found :
  parse_aircraft data = Some found -> List.length found <= 50.
Proof.
  unfold parse_aircraft.
  destruct (get_method data "states") as [states|]; [|discriminate].
  destruct (truthy states); [|intros [= <-]; simpl; lia].
  destruct states as [| | | |str|l|]; try discriminate; simpl.
  - intros Hc. apply collect_length in Hc.
    rewrite length_map, list_ascii_length in Hc.
    pose proof (substring_length 50 str). lia.
  - intros Hc. apply collect_length in Hc.
    rewrite length_firstn in Hc. lia.
Qed.

Lemma has_position_true v :
  has_position v = Some true ->
  exists s5 s6, index v 5 = Some s5 /\ index v 6 = Some s6
                /\ s5 <> PNone /\ s6 <> PNone.
Proof.
  unfold has_position.
  destruct (index v 5) as [s5|]; [|discriminate].
  destruct (is_none s5) eqn:E5; [discriminate|].
  destruct (index v 6) as [s6|]; [|discriminate].
  destruct (is_none s6) eqn:E6; [discriminate|]. intros _.
  exists s5, s6. repeat split; trivial; intros ->; discriminate.
Qed.

Lemma record_position v a :
  aircraft_record v = Some a ->
  index v 6 = Some (lat a) /\ index v 5 = Some (lon a).
Proof. intros Hrec. open_record Hrec. now split. Qed.

Lemma record_is_sound v a :
  has_position v = Some true -> aircraft_record v = Some a -> record_sound a.
Proof.
  intros Hpos Hrec.
  destruct (has_position_true v Hpos) as (s5 & s6 & H5 & H6 & N5 & N6).
  destruct (record_position v a Hrec) as [Hlat Hlon].
  destruct (record_altitude v a Hrec) as [_ Hfeet].
  destruct (record_heading v a Hrec) as [Hhd Hvr].
  destruct (record_callsign v a Hrec) as (s1 & _ & Hcs).
  unfold record_sound. repeat split.
  - congruence.
  - congruence.
  - exact (int_times_number _ _ _ Hfeet).
  - exact Hfeet.
  - exact (or_zero_not_none _ _ _ Hhd).
  - exact (or_zero_not_none _ _ _ Hvr).
  - apply (strip_method_stripped _ _ Hcs).
  - apply (strip_method_stripped _ _ Hcs).
Qed.

Lemma collect_sound vectors found :
  collect vectors = Some found -> Forall record_sound found.
Proof.
  revert found. induction vectors as [|v rest IH]; intros found; simpl.
  - intros [= <-]. constructor.
  - destruct (has_position v) as [[|]|] eqn:Hpos; [| |discriminate].
    + destruct (aircraft_record v) as [a|] eqn:Ea; [|discriminate].
      destruct (collect rest) as [tl|]; [|discriminate].
      intros [= <-]. constructor; [now apply (record_is_sound v)|now apply IH].
    + apply IH.
Qed.

Lemma parse_aircraft_sound data found :
  parse_aircraft data = Some found -> Forall record_sound found.
Proof.
  unfold parse_aircraft.
  destruct (get_method data "states") as [states|]; [|discriminate].
  destruct (truthy states); [|intros [= <-]; constructor].
  destruct (slice_to 50 states) as [sl|]; [|discriminate].
  destruct (iter_items sl) as [items|]; [|discriminate].
  apply collect_sound.
Qed.

Section Invariants.
Context `{PyRuntime}.

(** Induction over the reachable states, one case for each way an update
    can leave the state. *)
Lemma reachable_invariant (Inv : state -> Prop) :
  Inv initial_state ->
  (forall s la, Inv s -> Inv (set_iss_lat (PFloat la) s)) ->
  (forall s la lo,
     Inv s -> Inv (set_iss_lon (PFloat lo) (set_iss_lat (PFloat la) s))) ->
  (forall s la lo ts t,
     Inv s ->
     Inv (stamp "iss_position" t
            (set_iss_timestamp ts
               (set_iss_lon (PFloat lo) (set_iss_lat (PFloat la) s))))) ->
  (forall s crew t,
     Forall (fun p => is_iss p = true) crew ->
     Inv s -> Inv (stamp "iss_crew" t (set_iss_crew crew s))) ->
  (forall s response t,
     Inv s -> Inv (stamp "iss_passes" t (set_iss_passes response s))) ->
  (forall s, Inv s -> Inv (set_sdr_status unreachable s)) ->
  (forall s st lines t,
     st <> unknown -> st <> unreachable ->
     Inv s ->
     Inv (stamp "sdr" t (set_sdr_status st (set_sdr_log (last_n 10 lines) s)))) ->
  (forall s data found t,
     parse_aircraft data = Some found ->
     Inv s -> Inv (stamp "aircraft" t (set_aircraft found s))) ->
  forall s, reachable s -> Inv s.
Proof.
  intros Hinit Hlat Hlon Hpos Hcrew Hpasses Hunreach Hsdr Hair s Hreach.
  induction Hreach as [|r t s _ IH|r t s _ IH|r t s _ IH|r t s _ IH|r t s _ IH].
  - exact Hinit.
  - destruct (update_iss_position_result r t s)
      as [E|[[la E]|[(la & lo & E)|(la & lo & ts & E)]]]; rewrite E; auto.
  - destruct (update_iss_crew_result r t s) as [E|(crew & Hc & E)];
      rewrite E; auto.
  - destruct (update_iss_passes_result r t s) as [E|(response & E)];
      rewrite E; auto.
  - destruct (update_sdr_status_result r t s)
      as [E|[E|(st & lines & Hst1 & Hst2 & E)]]; rewrite E; auto.
  - destruct (update_aircraft_result r t s) as [E|(data & found & Hp & E)];
      rewrite E; eauto.
Qed.

End Invariants.

Lemma reachable_aircraft_length `{PyRuntime} (s : state) :
  reachable s -> List.length (aircraft s) <= 50.
Proof.
  revert s. apply reachable_invariant; simpl; auto; [lia|].
  intros s data found t Hparse _. now apply (parse_aircraft_length data).
Qed.

(** X2.  In every reachable state [state['aircraft']] has at most 50
    records, and every record has a latitude and a longitude that are not
    [None], a numeric [alt_m] with [alt_ft = int(alt_m * 3.281)] as
    binary64 arithmetic gives it, a [heading] and a [vertical_rate] that
    are not [None], and a [callsign] that neither begins nor ends with a
    whitespace character. *)
Theorem X2_aircraft_list_invariant `{PyRuntime} (s : state) :
  reachable s ->
  List.length (aircraft s) <= 50 /\ Forall record_sound (aircraft s).
Proof.
  revert s. apply reachable_invariant; simpl; auto.
  - split; [lia|constructor].
  - intros s data found t Hparse _. split.
    + now apply (parse_aircraft_length data).
    + now apply (parse_aircraft_sound data).
Qed.

(** The statement above, at the example inputs. *)
Lemma X2_aircraft_list_invariant_witness :
  List.length (aircraft busy_state) <= 50
  /\ Forall record_sound (aircraft busy_state).
Proof.
  apply (@X2_aircraft_list_invariant decimal_runtime).
  apply reach_aircraft, reach_sdr, reach_crew, reach_position, reach_initial.
Defined.

(** X3.  In every reachable state each entry of [state['iss_crew']] is an
    object whose [craft] is ['ISS']. *)
Theorem X3_crew_members_are_on_the_iss `{PyRuntime} (s : state) :
  reachable s ->
  Forall (fun p => exists craft,
            getitem p "craft" = Some craft /\ eq_str craft "ISS" = true)
    (iss_crew s).
Proof.
  assert (Hiss : forall crew, Forall (fun p => is_iss p = true) crew ->
            Forall (fun p => exists craft,
                      getitem p "craft" = Some craft /\ eq_str craft "ISS" = true)
              crew).
  { intros crew. apply List.Forall_impl. intros p. unfold is_iss.
    destruct (getitem p "craft") as [craft|]; [eauto|discriminate]. }
  revert s. apply reachable_invariant; simpl; auto.
Qed.

(** The statement above, at the example inputs. *)
Lemma X3_crew_members_are_on_the_iss_witness :
  Forall (fun p => exists craft,
            getitem p "craft" = Some craft /\ eq_str craft "ISS" = true)
    (iss_crew busy_state).
Proof.
  apply (@X3_crew_members_are_on_the_iss decimal_runtime).
  apply reach_aircraft, reach_sdr, reach_crew, reach_position, reach_initial.
Defined.

Lemma reachable_aircraft_fresh `{PyRuntime} (s : state) :
  reachable s -> last_update s !! "aircraft" = None -> aircraft s = [].
Proof.
  revert s.
  apply (reachable_invariant
           (fun s => last_update s !! "aircraft" = None -> aircraft s = []));
    simpl; auto.
  - intros s la lo ts t IH. now rewrite lookup_insert_ne by discriminate.
  - intros s crew t _ IH. now rewrite lookup_insert_ne by discriminate.
  - intros s response t IH. now rewrite lookup_insert_ne by discriminate.
  - intros s st lines t _ _ IH. now rewrite lookup_insert_ne by discriminate.
  - intros s data found t _ _. rewrite lookup_insert_eq. discriminate.
Qed.

(** X4.  In every reachable state a source that has no entry in
    [state['last_update']] still has its initial value: an empty crew
    list, an empty pass list, an empty aircraft list, an empty log with the
    status ['unknown'] or ['unreachable']. *)
Theorem X4_unstamped_sources_are_untouched `{PyRuntime} (s : state) :
  reachable s -> fresh_until_stamped s.
Proof.
  revert s. unfold fresh_until_stamped.
  apply reachable_invariant; simpl.
  - repeat split; auto.
  - auto.
  - auto.
  - intros s la lo ts t (Hc & Hp & Ha & Hs).
    split; [|split; [|split]];
      rewrite lookup_insert_ne by discriminate; assumption.
  - intros s crew t _ (Hc & Hp & Ha & Hs).
    split; [|split; [|split]];
      first [ rewrite lookup_insert_ne by discriminate; assumption
            | rewrite lookup_insert_eq; intros Hk; discriminate Hk ].
  - intros s response t (Hc & Hp & Ha & Hs).
    split; [|split; [|split]];
      first [ rewrite lookup_insert_ne by discriminate; assumption
            | rewrite lookup_insert_eq; intros Hk; discriminate Hk ].
  - intros s (Hc & Hp & Ha & Hs).
    split; [|split; [|split]]; trivial.
    intros Hk. split; [now apply Hs|now right].
  - intros s st lines t _ _ (Hc & Hp & Ha & Hs).
    split; [|split; [|split]];
      first [ rewrite lookup_insert_ne by discriminate; assumption
            | rewrite lookup_insert_eq; intros Hk; discriminate Hk ].
  - intros s data found t _ (Hc & Hp & Ha & Hs).
    split; [|split; [|split]];
      first [ rewrite lookup_insert_ne by discriminate; assumption
            | rewrite lookup_insert_eq; intros Hk; discriminate Hk ].
Qed.

(** The statement above, at the example inputs. *)
Lemma X4_unstamped_sources_are_untouched_witness :
  last_update busy_state !! "iss_passes" = None
  /\ iss_passes busy_state = PList [].
Proof.
  destruct (@X4_unstamped_sources_are_untouched decimal_runtime busy_state)
    as (_ & Hpasses & _).
  - apply reach_aircraft, reach_sdr, reach_crew, reach_position, reach_initial.
  - split; [reflexivity|]. apply Hpasses. reflexivity.
Defined.

(** X5.  In every reachable state the keys of [state['last_update']] are
    among ['iss_position'], ['iss_crew'], ['iss_passes'], ['sdr'] and
    ['aircraft']. *)
Theorem X5_last_update_keys `{PyRuntime} (s : state) (key : string) :
  reachable s ->
  last_update s !! key <> None -> In key source_keys.
Proof.
  intros Hreach. revert s Hreach.
  apply (reachable_invariant
           (fun s => last_update s !! key <> None -> In key source_keys));
    simpl; auto.
  - intros Hk. now destruct Hk.
  - intros s la lo ts t IH.
    destruct (decide (key = "iss_position")) as [->|Hne]; [tauto|].
    rewrite lookup_insert_ne by congruence. exact IH.
  - intros s crew t _ IH.
    destruct (decide (key = "iss_crew")) as [->|Hne]; [tauto|].
    rewrite lookup_insert_ne by congruence. exact IH.
  - intros s response t IH.
    destruct (decide (key = "iss_passes")) as [->|Hne]; [tauto|].
    rewrite lookup_insert_ne by congruence. exact IH.
  - intros s st lines t _ _ IH.
    destruct (decide (key = "sdr")) as [->|Hne]; [tauto|].
    rewrite lookup_insert_ne by congruence. exact IH.
  - intros s data found t _ IH.
    destruct (decide (key = "aircraft")) as [->|Hne]; [tauto|].
    rewrite lookup_insert_ne by congruence. exact IH.
Qed.

(** The statement above, at the example inputs. *)
Lemma X5_last_update_keys_witness : In "sdr" source_keys.
Proof.
  apply (@X5_last_update_keys decimal_runtime busy_state "sdr").
  - apply reach_aircraft, reach_sdr, reach_crew, reach_position, reach_initial.
  - vm_compute. discriminate.
Defined.

(** X6.  In every reachable state the stored latitude and longitude are
    the integer 0 of the initial state or a float: what [float()]
    returned, never a string or [None]. *)
Theorem X6_position_is_numeric `{PyRuntime} (s : state) :
  reachable s ->
  zero_or_float (iss_lat (iss s)) = true
  /\ zero_or_float (iss_lon (iss s)) = true.
Proof.
  revert s. apply reachable_invariant; simpl; auto; tauto.
Qed.

(** The statement above, at the example inputs. *)
Lemma X6_position_is_numeric_witness :
  zero_or_float (iss_lat (iss busy_state)) = true
  /\ zero_or_float (iss_lon (iss busy_state)) = true.
Proof.
  apply (@X6_position_is_numeric decimal_runtime).
  apply reach_aircraft, reach_sdr, reach_crew, reach_position, reach_initial.
Defined.

(** ** The scheduler, pass by pass *)

Section Passes.
Context `{PyRuntime}.

Lemma due_same_stamp key period w s s' :
  last_update s' !! key = last_update s !! key ->
  due key period w s' = due key period w s.
Proof. unfold due, last_update_get. now intros ->. Qed.

Lemma stamp_after_position r t s key :
  key <> "iss_position" ->
  last_update (update_iss_position r t s) !! key = last_update s !! key.
Proof. apply position_frame. Qed.

Lemma stamp_after_sdr r t s key :
  key <> "sdr" ->
  last_update (update_sdr_status r t s) !! key = last_update s !! key.
Proof. apply sdr_frame. Qed.

Lemma stamp_after_crew r t s key :
  key <> "iss_crew" ->
  last_update (update_iss_crew r t s) !! key = last_update s !! key.
Proof. apply crew_frame. Qed.

Lemma stamp_after_passes r t s key :
  key <> "iss_passes" ->
  last_update (update_iss_passes r t s) !! key = last_update s !! key.
Proof. apply passes_frame. Qed.

Lemma stamp_after_aircraft r t s key :
  key <> "aircraft" ->
  last_update (update_aircraft r t s) !! key = last_update s !! key.
Proof. apply aircraft_frame. Qed.

Lemma iteration_calls w s :
  snd (iteration w s)
  = ([src_position; src_sdr]
       ++ (if due "iss_crew" 600 w s then [src_crew] else [])
       ++ (if due "iss_passes" 300 w s then [src_passes] else [])
       ++ (if due "aircraft" 15 w s then [src_aircraft] else []))%list.
Proof.
  unfold iteration. cbv zeta.
  set (s2 := update_sdr_status _ _ _).
  assert (H2 : forall key, key <> "iss_position" -> key <> "sdr" ->
                 last_update s2 !! key = last_update s !! key).
  { intros key Hp Hs. subst s2.
    now rewrite stamp_after_sdr, stamp_after_position. }
  unfold gated. cbn [fst snd].
  rewrite (due_same_stamp "iss_crew" 600 w s s2) by (apply H2; discriminate).
  destruct (due "iss_crew" 600 w s); cbn [fst snd].
  - rewrite (due_same_stamp "iss_passes" 300 w s)
      by (rewrite stamp_after_crew by discriminate; apply H2; discriminate).
    destruct (due "iss_passes" 300 w s); cbn [fst snd].
    + rewrite (due_same_stamp "aircraft" 15 w s)
        by (rewrite stamp_after_passes, stamp_after_crew by discriminate;
            apply H2; discriminate).
      now destruct (due "aircraft" 15 w s).
    + rewrite (due_same_stamp "aircraft" 15 w s)
        by (rewrite stamp_after_crew by discriminate; apply H2; discriminate).
      now destruct (due "aircraft" 15 w s).
  - rewrite (due_same_stamp "iss_passes" 300 w s) by (apply H2; discriminate).
    destruct (due "iss_passes" 300 w s); cbn [fst snd].
    + rewrite (due_same_stamp "aircraft" 15 w s)
        by (rewrite stamp_after_passes by discriminate; apply H2; discriminate).
      now destruct (due "aircraft" 15 w s).
    + rewrite (due_same_stamp "aircraft" 15 w s) by (apply H2; discriminate).
      now destruct (due "aircraft" 15 w s).
Qed.

Lemma iteration_reachable w s : reachable s -> reachable (fst (iteration w s)).
Proof.
  intros Hreach. unfold iteration, gated. cbv zeta. cbn [fst snd].
  repeat match goal with
         | |- context [if ?b then _ else _] => destruct b; cbn [fst snd]
         end;
    repeat first [ exact Hreach
                 | apply reach_aircraft | apply reach_passes | apply reach_crew
                 | apply reach_sdr | apply reach_position ].
Qed.

End Passes.

(** X7.  One pass of the loop always calls the position update and then
    the status update, and after them, in this order, the crew, pass and
    aircraft updates, each exactly when [now - last_update.get(key, 0)]
    exceeds 600, 300 and 15 for the stamps the pass started with: the
    updates that run earlier in the pass write other keys.  So in every
    run, every pass calls the first two updates and then some of the other
    three in source order. *)
Theorem X7_calls_of_a_pass `{PyRuntime} (ws : list tick) (w : tick) (s : state) :
  snd (iteration w s)
  = ([src_position; src_sdr]
       ++ (if Qgtb (now w - last_update_get "iss_crew" s) 600
           then [src_crew] else [])
       ++ (if Qgtb (now w - last_update_get "iss_passes" s) 300
           then [src_passes] else [])
       ++ (if Qgtb (now w - last_update_get "aircraft" s) 15
           then [src_aircraft] else []))%list
  /\ List.length (snd (background_updater ws s)) = List.length ws
  /\ Forall (fun calls =>
               exists gated,
                 calls = src_position :: src_sdr :: gated
                 /\ sublist gated [src_crew; src_passes; src_aircraft])
       (snd (background_updater ws s)).
Proof.
  split; [apply iteration_calls|].
  revert s. induction ws as [|w' ws IH]; intros s; simpl.
  - split; [reflexivity|constructor].
  - pose proof (iteration_calls w' s) as Hcalls.
    destruct (iteration w' s) as [s' calls]. simpl in Hcalls.
    destruct (IH s') as [Hlen Hall].
    destruct (background_updater ws s') as [s'' later]. simpl in *.
    split; [now rewrite Hlen|]. constructor; [|exact Hall].
    rewrite Hcalls.
    destruct (due "iss_crew" 600 w' s), (due "iss_passes" 300 w' s),
      (due "aircraft" 15 w' s); eexists; (split; [reflexivity|cbn [app]]);
      repeat first [ apply sublist_nil | apply sublist_skip | apply sublist_cons ].
Qed.

(** X8.  A run of the loop from a reachable state ends in a reachable
    state, so what holds in every reachable state holds after every
    pass. *)
Theorem X8_scheduler_stays_reachable `{PyRuntime} (ws : list tick) (s : state) :
  reachable s -> reachable (fst (background_updater ws s)).
Proof.
  revert s. induction ws as [|w ws IH]; intros s Hreach; simpl; [exact Hreach|].
  pose proof (iteration_reachable w s Hreach) as Hstep.
  destruct (iteration w s) as [s' calls]. simpl in Hstep.
  specialize (IH s' Hstep).
  destruct (background_updater ws s') as [s'' later]. exact IH.
Qed.

(** The statement above, at the example inputs. *)
Lemma X8_scheduler_stays_reachable_witness :
  @reachable decimal_runtime
    (fst (@background_updater decimal_runtime
            [quiet_tick 5; quiet_tick 601] crew_at_zero)).
Proof.
  apply X8_scheduler_stays_reachable.
  apply (@reach_crew decimal_runtime), reach_initial.
Defined.

Section Retry.
Context `{PyRuntime}.

(** Whether the [try] block of the crew update raises depends on the
    response only. *)
Lemma crew_raise_any_state r t s s' :
  raised (iss_crew_try r t) s -> raised (iss_crew_try r t) s'.
Proof.
  unfold raised.
  destruct (iss_crew_try_cases r t s) as [E|[[Hk E]|(crew & Hk & E)]];
    rewrite E; simpl; try discriminate; intros _.
  destruct (iss_crew_try_cases r t s') as [E'|[[Hk' E']|(crew' & Hk' & E')]];
    rewrite E'; simpl; trivial; exfalso; revert E E';
    unfold iss_crew_try; run_body;
    destruct r as [data|]; try discriminate;
    destruct (getitem data "message") as [message|]; try discriminate;
    destruct (eq_str message "success"); try discriminate;
    destruct (getitem data "people") as [people|]; try discriminate;
    destruct (iter_items people) as [items|]; try discriminate;
    destruct (crew_of items); discriminate.
Qed.

(** The crew stamp after a pass: the one the crew update left if it was
    called, the one the pass started with otherwise. *)
Lemma iteration_crew_stamp w s :
  last_update (fst (iteration w s)) !! "iss_crew"
  = if due "iss_crew" 600 w s
    then last_update
           (update_iss_crew (crew_resp w) (crew_clock w)
              (update_sdr_status (sdr_resp w) (sdr_clock w)
                 (update_iss_position (position_resp w) (position_clock w) s)))
           !! "iss_crew"
    else last_update s !! "iss_crew".
Proof.
  unfold iteration. cbv zeta.
  set (s2 := update_sdr_status _ _ _).
  assert (H2 : last_update s2 !! "iss_crew" = last_update s !! "iss_crew")
    by (subst s2; apply crew_stamp_at_gate).
  unfold gated. cbn [fst snd].
  rewrite (due_same_stamp "iss_crew" 600 w s s2 H2).
  destruct (due "iss_crew" 600 w s); cbn [fst snd];
    repeat match goal with
           | |- context [if ?b then _ else _] => destruct b; cbn [fst snd]
           end;
    repeat first [ rewrite stamp_after_aircraft by discriminate
                 | rewrite stamp_after_passes by discriminate ];
    trivial.
Qed.

End Retry.

Lemma Qminus_le_l (a b c : Q) : (a <= b)%Q -> (a - c <= b - c)%Q.
Proof. intros Hab. unfold Qminus. now apply Qplus_le_l. Qed.

(** X9.  A crew fetch that is due and fails is attempted again in the
    next pass: the failed update leaves the stamp as it was, so in every
    later pass whose clock has not gone back the crew update is called
    again; there is no back-off. *)
Theorem X9_failed_crew_fetch_is_retried `{PyRuntime} (w w' : tick) (s : state) :
  (600 < now w - last_update_get "iss_crew" s)%Q ->
  raised (iss_crew_try (crew_resp w) (crew_clock w)) s
  \/ envelope_ok (crew_resp w) = false ->
  (now w <= now w')%Q ->
  In src_crew (snd (iteration w s))
  /\ last_update (fst (iteration w s)) !! "iss_crew" = last_update s !! "iss_crew"
  /\ In src_crew (snd (iteration w' (fst (iteration w s)))).
Proof.
  intros Hdue Hfail Hclock.
  assert (Hgate : due "iss_crew" 600 w s = true) by now apply Qgtb_true.
  assert (Hkept : last_update (fst (iteration w s)) !! "iss_crew"
                  = last_update s !! "iss_crew").
  { rewrite iteration_crew_stamp, Hgate.
    rewrite crew_failure_keeps_state
      by (destruct Hfail as [Hr|Hk];
          [left; exact (crew_raise_any_state _ _ _ _ Hr)|right; exact Hk]).
    apply crew_stamp_at_gate. }
  split; [|split; [exact Hkept|]].
  - rewrite iteration_calls, Hgate. cbn [app In]. tauto.
  - rewrite iteration_calls.
    assert (Hgate' : due "iss_crew" 600 w' (fst (iteration w s)) = true).
    { unfold due, last_update_get. rewrite Hkept.
      apply Qgtb_true. eapply Qlt_le_trans; [exact Hdue|].
      now apply Qminus_le_l. }
    rewrite Hgate'. cbn [app In]. tauto.
Qed.

(** The statement above, at the example inputs. *)
Lemma X9_failed_crew_fetch_is_retried_witness :
  In src_crew
    (snd (@iteration decimal_runtime (quiet_tick 700)
            (fst (@iteration decimal_runtime (quiet_tick 601) crew_at_zero)))).
Proof.
  destruct (@X9_failed_crew_fetch_is_retried decimal_runtime
              (quiet_tick 601) (quiet_tick 700) crew_at_zero)
    as (_ & _ & Hagain).
  - reflexivity.
  - right. reflexivity.
  - discriminate.
  - exact Hagain.
Defined.

(** X10.  With no entry for the crew, the passes and the aircraft in
    [state['last_update']], any pass whose clock reads more than 600 calls
    all five updates, in source order: the missing stamps count as 0. *)
Theorem X10_cold_start_fetches_everything `{PyRuntime} (w : tick) (s : state) :
  last_update s !! "iss_crew" = None ->
  last_update s !! "iss_passes" = None ->
  last_update s !! "aircraft" = None ->
  (600 < now w)%Q ->
  snd (iteration w s)
  = [src_position; src_sdr; src_crew; src_passes; src_aircraft].
Proof.
  intros Hc Hp Ha Hnow.
  assert (Hgate : forall period, (period <= 600)%Q -> Qgtb (now w - 0) period = true).
  { intros period Hle. apply Qgtb_true.
    eapply Qle_lt_trans; [exact Hle|].
    setoid_replace (now w - 0)%Q with (now w) using relation Qeq by ring.
    exact Hnow. }
  rewrite iteration_calls. unfold due, last_update_get.
  rewrite Hc, Hp, Ha, !Hgate by discriminate. reflexivity.
Qed.

(** The statement above, at the example inputs. *)
Lemma X10_cold_start_fetches_everything_witness :
  snd (@iteration decimal_runtime (quiet_tick 1700000000) initial_state)
  = [src_position; src_sdr; src_crew; src_passes; src_aircraft].
Proof.
  apply (@X10_cold_start_fetches_everything decimal_runtime);
    reflexivity.
Defined.

(** ** Substrings and splitting *)

Lemma prefix_spec a b : String.prefix a b = true <-> exists post, b = a ++ post.
Proof.
  revert b. induction a as [|c a IH]; intros b.
  - split; [intros _; now exists b|intros _; now destruct b].
  - destruct b as [|d b]; simpl.
    + split; [discriminate|]. intros [post E]. rewrite append_cons in E.
      discriminate E.
    + destruct (ascii_dec c d) as [->|Hne].
      * rewrite IH. split; intros [post E]; exists post;
          rewrite append_cons in *; congruence.
      * split; [discriminate|]. intros [post E]. rewrite append_cons in E.
        congruence.
Qed.

Lemma contains_spec needle hay : contains needle hay = true <-> occurs needle hay.
Proof.
  unfold occurs. induction hay as [|c hay IH]; cbn [contains].
  - rewrite orb_false_r, prefix_spec. split.
    + intros [post E]. now exists EmptyString, post.
    + intros (pre & post & E). destruct pre; [now exists post|].
      rewrite append_cons in E. discriminate E.
  - rewrite orb_true_iff, prefix_spec, IH. split.
    + intros [[post E]|(pre & post & E)].
      * now exists EmptyString, post.
      * exists (String c pre), post. rewrite append_cons. congruence.
    + intros (pre & post & E). destruct pre as [|d pre].
      * left. now exists post.
      * right. exists pre, post. rewrite append_cons in E. congruence.
Qed.

Lemma contains_tail needle c hay :
  contains needle (String c hay) = false ->
  String.prefix needle (String c hay) = false /\ contains needle hay = false.
Proof. cbn [contains]. now rewrite orb_false_iff. Qed.

Lemma split_go_step sep c s cur :
  split_go sep (String c s) 0 cur
  = if String.prefix sep (String c s)
    then cur :: split_go sep s (String.length sep - 1) EmptyString
    else split_go sep s 0 (cur ++ String c EmptyString).
Proof. reflexivity. Qed.

(** A string without the separator is one piece. *)
Lemma split_go_without sep s cur :
  contains sep s = false -> split_go sep s 0 cur = [cur ++ s].
Proof.
  revert cur. induction s as [|c s IH]; intros cur Hno.
  - simpl. now rewrite append_empty_r.
  - apply contains_tail in Hno as [Hp Hs].
    rewrite split_go_step, Hp, (IH _ Hs), append_assoc. reflexivity.
Qed.

Lemma split_without sep s : contains sep s = false -> split sep s = [s].
Proof. intros Hno. unfold split. now rewrite split_go_without. Qed.

(** Passing over the rest of a separator. *)
Lemma split_go_skip sep x rest cur :
  split_go sep (x ++ rest) (String.length x) cur = split_go sep rest 0 cur.
Proof.
  induction x as [|c x IH]; [reflexivity|].
  rewrite append_cons. simpl. exact IH.
Qed.

Lemma prefix_of_append p a b :
  String.prefix p (a ++ b) = true -> String.length p <= String.length a ->
  String.prefix p a = true.
Proof.
  revert a. induction p as [|c p IH]; intros a.
  - now destruct a.
  - destruct a as [|d a]; [simpl; lia|].
    rewrite append_cons. simpl.
    destruct (ascii_dec c d); [|discriminate].
    intros Hp Hlen. apply IH; [exact Hp|lia].
Qed.

(** The first separator ends the first piece, when no occurrence of the
    separator begins before it. *)
Lemma split_go_first init last log rest cur :
  contains (init ++ String last EmptyString) (log ++ init) = false ->
  split_go (init ++ String last EmptyString)
    (log ++ (init ++ String last EmptyString) ++ rest) 0 cur
  = (cur ++ log) :: split_go (init ++ String last EmptyString) rest 0 EmptyString.
Proof.
  set (sep := init ++ String last EmptyString).
  assert (Hlen : String.length sep = S (String.length init))
    by (subst sep; rewrite append_length; simpl; lia).
  revert cur. induction log as [|c log IH]; intros cur Hno.
  - rewrite append_empty_r, append_nil.
    assert (Hp : String.prefix sep (sep ++ rest) = true)
      by (apply prefix_spec; now exists rest).
    destruct sep as [|c0 sep']; [discriminate Hlen|].
    rewrite append_cons in *. rewrite split_go_step, Hp. f_equal.
    replace (String.length (String c0 sep') - 1) with (String.length sep')
      by (simpl; lia).
    apply split_go_skip.
  - rewrite append_cons in Hno. apply contains_tail in Hno as [Hp Hs].
    rewrite append_cons.
    assert (Hp' : String.prefix sep (String c (log ++ sep ++ rest)) = false).
    { destruct (String.prefix sep (String c (log ++ sep ++ rest))) eqn:E;
        [|reflexivity].
      rewrite <- Hp. symmetry.
      apply (prefix_of_append sep (String c (log ++ init))
               (String last EmptyString ++ rest)).
      - rewrite append_cons, append_assoc, <- (append_assoc init). exact E.
      - simpl. rewrite append_length, Hlen. lia. }
    rewrite split_go_step, Hp', (IH _ Hs), append_assoc. reflexivity.
Qed.

Lemma not_occurs needle hay : ~ occurs needle hay <-> contains needle hay = false.
Proof. now rewrite <- contains_spec, not_true_iff_false. Qed.

(** ** Parsing the remote output *)

Lemma status_of_line_spec line :
  (status_of_line line = recording <-> occurs "Recording" line)
  /\ (status_of_line line = sleeping <->
      ~ occurs "Recording" line /\ occurs "Sleeping" line)
  /\ (status_of_line line = armed <->
      ~ occurs "Recording" line /\ ~ occurs "Sleeping" line
      /\ (occurs "Starting capture" line \/ occurs "Waiting" line))
  /\ (status_of_line line = running <->
      ~ occurs "Recording" line /\ ~ occurs "Sleeping" line
      /\ ~ occurs "Starting capture" line /\ ~ occurs "Waiting" line).
Proof.
  rewrite !not_occurs, <- !contains_spec. unfold status_of_line.
  destruct (contains "Recording" line), (contains "Sleeping" line),
    (contains "Starting capture" line), (contains "Waiting" line);
    repeat split; try discriminate; try tauto;
    intros; repeat match goal with
                   | H : _ /\ _ |- _ => destruct H
                   | H : _ \/ _ |- _ => destruct H
                   end; discriminate.
Qed.

(** X11.  After an update that completed with exit status 0 and parsed
    a process count: with a count of 0 or less the status is ['offline']
    whatever the log says; with a positive count it is ['recording']
    exactly when the last log line contains ["Recording"], ['sleeping']
    exactly when it contains ["Sleeping"] and not ["Recording"], ['armed']
    exactly when it contains ["Starting capture"] or ["Waiting"] and none
    of the former, and ['running'] exactly when it contains none of the
    four.  The match is a case-sensitive substring test. *)
Theorem X11_status_by_substring `{PyRuntime} (result : completed) (count : Z)
    (t : Q) (s : state) :
  returncode result = 0%Z ->
  parse_running (split sentinel (stdout result)) = Some count ->
  let line := List.last (parse_log (split sentinel (stdout result))) EmptyString in
  let st := sdr_status (update_sdr_status (Completed result) t s) in
  ((count <= 0)%Z -> st = offline)
  /\ ((0 < count)%Z ->
      (st = recording <-> occurs "Recording" line)
      /\ (st = sleeping <-> ~ occurs "Recording" line /\ occurs "Sleeping" line)
      /\ (st = armed <->
          ~ occurs "Recording" line /\ ~ occurs "Sleeping" line
          /\ (occurs "Starting capture" line \/ occurs "Waiting" line))
      /\ (st = running <->
          ~ occurs "Recording" line /\ ~ occurs "Sleeping" line
          /\ ~ occurs "Starting capture" line /\ ~ occurs "Waiting" line)).
Proof.
  intros Hrc Hcount line st. subst st.
  rewrite (sdr_success_stores result count t s Hrc Hcount). simpl. split.
  - intros Hle. destruct (Z.ltb_spec 0 count); [lia|reflexivity].
  - intros Hpos. destruct (Z.ltb_spec 0 count); [|lia].
    apply status_of_line_spec.
Qed.

(** The statement above, at the example inputs. *)
Lemma X11_status_by_substring_witness :
  sdr_status (@update_sdr_status decimal_runtime
                (completed_ok twelve_lines_output) 200 initial_state)
  = sleeping.
Proof.
  destruct (@X11_status_by_substring decimal_runtime
              {| returncode := 0; stdout := twelve_lines_output;
                 stderr := EmptyString |} 1 200 initial_state eq_refl eq_refl)
    as [_ Hpos].
  destruct (Hpos ltac:(lia)) as (_ & Hsleeping & _).
  apply Hsleeping. split.
  - apply not_occurs. reflexivity.
  - apply contains_spec. reflexivity.
Defined.

(** X12.  When the command exits with status 0 and its output does not
    contain the sentinel, for instance when it is empty, the fetch counts
    as a success with a process count of 0: the status becomes
    ['offline'], the whole output is taken as the log, and the fetch is
    stamped. *)
Theorem X12_output_without_sentinel `{PyRuntime} (result : completed)
    (t : Q) (s : state) :
  returncode result = 0%Z ->
  ~ occurs sentinel (stdout result) ->
  update_sdr_status (Completed result) t s
  = stamp "sdr" t
      (set_sdr_status offline
         (set_sdr_log (last_n 10 (parse_log [stdout result])) s)).
Proof.
  intros Hrc Hno. apply not_occurs in Hno.
  assert (Hparts : split sentinel (stdout result) = [stdout result])
    by now apply split_without.
  rewrite (sdr_success_stores result 0 t s Hrc).
  - unfold sentinel in Hparts. rewrite Hparts. reflexivity.
  - unfold sentinel in Hparts. rewrite Hparts. reflexivity.
Qed.

(** The statement above, at the example inputs. *)
Lemma X12_output_without_sentinel_witness :
  sdr_status (@update_sdr_status decimal_runtime (completed_ok EmptyString)
                9 recording_state) = offline
  /\ sdr_log (@update_sdr_status decimal_runtime (completed_ok EmptyString)
                9 recording_state) = [].
Proof.
  unfold completed_ok.
  rewrite (@X12_output_without_sentinel decimal_runtime
             {| returncode := 0; stdout := EmptyString; stderr := EmptyString |}
             9 recording_state eq_refl).
  - split; reflexivity.
  - apply not_occurs. reflexivity.
Defined.

(** X13.  For an output made of a log, the sentinel and a rest, where no
    occurrence of the sentinel begins inside the log and none lies in the
    rest: the log lines are read from the text before the sentinel and the
    process count is [int] of the stripped rest; when that is not an
    integer the update only sets the status to ['unreachable']. *)
Theorem X13_output_with_sentinel `{PyRuntime} (log rest err : string)
    (t : Q) (s : state) :
  ~ occurs sentinel (log ++ sentinel_init) ->
  ~ occurs sentinel rest ->
  update_sdr_status
    (Completed {| returncode := 0; stdout := log ++ sentinel ++ rest;
                  stderr := err |}) t s
  = match int_of_str (strip rest) with
    | Some count =>
        stamp "sdr" t
          (set_sdr_status
             (if Z.ltb 0 count
              then status_of_line (List.last (parse_log [log]) EmptyString)
              else offline)
             (set_sdr_log (last_n 10 (parse_log [log])) s))
    | None => set_sdr_status unreachable s
    end.
Proof.
  intros Hlog Hrest. apply not_occurs in Hlog. apply not_occurs in Hrest.
  assert (Hparts : split sentinel (log ++ sentinel ++ rest) = [log; rest]).
  { unfold split.
    change sentinel with (sentinel_init ++ String "-"%char EmptyString) in *.
    rewrite split_go_first by exact Hlog.
    rewrite split_go_without by exact Hrest. reflexivity. }
  unfold sentinel in Hparts |- *.
  destruct (int_of_str (strip rest)) as [count|] eqn:Ecount.
  - rewrite (sdr_success_stores
               {| returncode := 0; stdout := log ++ "---SDR_STATUS---" ++ rest;
                  stderr := err |} count t s eq_refl); cbn [stdout];
      rewrite Hparts; [reflexivity|exact Ecount].
  - unfold update_sdr_status, try_except, sdr_status_try; run_body.
    cbn [returncode stdout]. rewrite Hparts. cbn [parse_running].
    rewrite Ecount. reflexivity.
Qed.

(** The statement above, at the example inputs. *)
Lemma X13_output_with_sentinel_witness :
  sdr_log (@update_sdr_status decimal_runtime (completed_ok recording_output)
             100 initial_state)
  = ["Waiting for NOAA 19"; "Recording NOAA 19 at 137.1 MHz"].
Proof.
  change (completed_ok recording_output)
    with (Completed
            {| returncode := 0;
               stdout := ("Waiting for NOAA 19" ++ nl
                          ++ "Recording NOAA 19 at 137.1 MHz" ++ nl)
                         ++ sentinel ++ (nl ++ "1" ++ nl);
               stderr := EmptyString |}).
  rewrite (@X13_output_with_sentinel decimal_runtime).
  - reflexivity.
  - apply not_occurs. reflexivity.
  - apply not_occurs. reflexivity.
Defined.

(** ** Outcomes of the push pipeline *)

Lemma push_to_epaper_cases image_path ex :
  (exited_zero (ex (scp_image_cmd image_path)) = false
   /\ push_to_epaper image_path ex
      = ([scp_image_cmd image_path],
         failure (transfer_error (ex (scp_image_cmd image_path)))))
  \/ (exited_zero (ex (scp_image_cmd image_path)) = true
      /\ exited_zero (ex display_cmd) = true
      /\ push_to_epaper image_path ex
         = ([scp_image_cmd image_path; display_cmd],
            success "Image pushed to e-Paper"))
  \/ (exited_zero (ex (scp_image_cmd image_path)) = true
      /\ exited_zero (ex display_cmd) = false
      /\ exists msg,
           push_to_epaper image_path ex
           = ([scp_image_cmd image_path; display_cmd], failure msg)).
Proof.
  run_push. unfold exited_zero.
  destruct (ex (scp_image_cmd image_path)) as [copy|msg]; [|now left].
  destruct (Z.eqb (returncode copy) 0); [|now left]. right. simpl.
  destruct (ex display_cmd) as [shown|msg]; [|right; eauto].
  destruct (Z.eqb (returncode shown) 0); [left|right]; eauto.
Qed.

(** X14.  [push_to_epaper] reports success exactly when the copy and the
    display command both complete with exit status 0; the display command
    is run exactly when the copy completed with exit status 0; and the
    copy is always the first command run. *)
Theorem X14_push_succeeds_iff_both_exit_zero (image_path : string) (ex : Exec) :
  (succeeded (snd (push_to_epaper image_path ex)) <->
   exited_zero (ex (scp_image_cmd image_path)) = true
   /\ exited_zero (ex display_cmd) = true)
  /\ (In display_cmd (fst (push_to_epaper image_path ex)) <->
      exited_zero (ex (scp_image_cmd image_path)) = true)
  /\ exists later,
       fst (push_to_epaper image_path ex) = scp_image_cmd image_path :: later.
Proof.
  unfold succeeded.
  destruct (push_to_epaper_cases image_path ex)
    as [[Hcopy E]|[(Hcopy & Hshow & E)|(Hcopy & Hshow & msg & E)]];
    rewrite E, Hcopy; try rewrite Hshow; simpl;
    (split; [|split; [|eauto]]).
  - split; [discriminate|intros [[=] _]].
  - split; [|discriminate]. intros [Hd|[]]. symmetry in Hd.
    now apply (display_cmd_is_not_a_copy image_path) in Hd.
  - tauto.
  - tauto.
  - split; [discriminate|intros [_ [=]]].
  - tauto.
Qed.

Lemma push_satellite_image_cases ex :
  (exists msg, push_satellite_image ex = ([list_images_cmd], failure msg))
  \/ (exists listing,
        ex list_images_cmd = Completed listing /\ no_image listing = false
        /\ ((exists msg,
               ex (download_cmd (strip (stdout listing))) = RunRaised msg
               /\ push_satellite_image ex
                  = ([list_images_cmd; download_cmd (strip (stdout listing))],
                     failure msg))
            \/ (exists download,
                  ex (download_cmd (strip (stdout listing))) = Completed download
                  /\ push_satellite_image ex
                     = (list_images_cmd :: download_cmd (strip (stdout listing))
                          :: fst (push_to_epaper local_tmp ex),
                        snd (push_to_epaper local_tmp ex))))).
Proof.
  unfold push_satellite_image, try_return, pbind, run, pret, call, no_image.
  destruct (ex list_images_cmd) as [listing|msg]; [|left; eauto].
  destruct (negb (Z.eqb (returncode listing) 0)
            || String.eqb (strip (stdout listing)) EmptyString) eqn:Hno;
    [left; eauto|].
  right. exists listing. split; [reflexivity|]. split; [exact Hno|].
  destruct (ex (download_cmd (strip (stdout listing)))) as [download|msg].
  - right. exists download. split; [reflexivity|].
    now destruct (push_to_epaper local_tmp ex).
  - left. eauto.
Qed.

Lemma failure_is_push_result msg : push_result (failure msg).
Proof. right. eauto. Qed.

Lemma push_to_epaper_result image_path ex :
  push_result (snd (push_to_epaper image_path ex)).
Proof.
  unfold push_result.
  destruct (push_to_epaper_cases image_path ex)
    as [[_ E]|[(_ & _ & E)|(_ & _ & msg & E)]]; rewrite E; simpl; eauto.
Qed.

Lemma push_satellite_image_result ex : push_result (snd (push_satellite_image ex)).
Proof.
  destruct (push_satellite_image_cases ex)
    as [[msg E]|(listing & _ & _ & [(msg & _ & E)|(download & _ & E)])];
    rewrite E; simpl;
    [apply failure_is_push_result|apply failure_is_push_result
    |apply push_to_epaper_result].
Qed.

(** X15.  Whatever the remote commands answer, the result of
    [push_to_epaper] and of [push_satellite_image] is either
    [{'success': True, 'message': 'Image pushed to e-Paper'}] or
    [{'success': False, 'error': msg}] for some string [msg]: no
    other form occurs, and the key [success] is always present. *)
Theorem X15_push_results_have_two_forms (image_path : string) (ex : Exec) :
  push_result (snd (push_to_epaper image_path ex))
  /\ push_result (snd (push_satellite_image ex)).
Proof.
  assert (Hpush : forall path, push_result (snd (push_to_epaper path ex))).
  { intros path. unfold push_result.
    destruct (push_to_epaper_cases path ex)
      as [[_ E]|[(_ & _ & E)|(_ & _ & msg & E)]]; rewrite E; simpl; eauto. }
  split; [apply Hpush|].
  destruct (push_satellite_image_cases ex)
    as [[msg E]|(listing & _ & _ & [(msg & _ & E)|(download & _ & E)])];
    rewrite E; simpl; [right; eauto|right; eauto|apply Hpush].
Qed.

(** X16.  [push_satellite_image] reports success exactly when the listing
    completes with exit status 0 and prints a name, the download completes
    with any exit status, and the push of the local file succeeds.  The
    listing is always the first command run, and the file pushed is always
    [/tmp/sat_image_latest.png]. *)
Theorem X16_satellite_push_succeeds_iff (ex : Exec) :
  (succeeded (snd (push_satellite_image ex)) <->
   exists listing download,
     ex list_images_cmd = Completed listing
     /\ no_image listing = false
     /\ ex (download_cmd (strip (stdout listing))) = Completed download
     /\ succeeded (snd (push_to_epaper local_tmp ex)))
  /\ (exists later, fst (push_satellite_image ex) = list_images_cmd :: later)
  /\ (forall image_path,
        In (scp_image_cmd image_path) (fst (push_satellite_image ex)) ->
        image_path = local_tmp).
Proof.
  assert (Hcopy : forall image_path later,
            In (scp_image_cmd image_path)
              (list_images_cmd :: later) ->
            In (scp_image_cmd image_path) later).
  { intros image_path later [Hd|Hin]; [discriminate Hd|exact Hin]. }
  destruct (push_satellite_image_cases ex)
    as [[msg E]|(listing & El & Hno & [(msg & Ed & E)|(download & Ed & E)])];
    rewrite E; unfold succeeded; simpl; (split; [|split; [eauto|]]).
  - split; [discriminate|].
    intros (listing & download & El & Hno & Ed & Hok). revert E.
    unfold push_satellite_image, try_return, pbind, run, pret, call.
    unfold no_image in Hno. rewrite El, Hno, Ed.
    destruct (push_to_epaper local_tmp ex) as [tr res].
    intros Heq. simpl in Heq. discriminate Heq.
  - intros image_path [Hd|[]]. discriminate Hd.
  - split; [discriminate|].
    intros (listing' & download & El' & _ & Ed' & _). congruence.
  - intros image_path [Hd|[Hd|[]]]; discriminate Hd.
  - split.
    + intros Hok. exists listing, download. auto.
    + intros (_ & _ & _ & _ & _ & Hok). exact Hok.
  - intros image_path [Hd|[Hd|Hin]]; try discriminate Hd.
    destruct (push_to_epaper_cases local_tmp ex)
      as [[_ Ep]|[(_ & _ & Ep)|(_ & _ & msg & Ep)]];
      rewrite Ep in Hin; simpl in Hin;
      repeat destruct Hin as [Hin|Hin]; try contradiction;
      try discriminate Hin; now injection Hin.
Qed.

(** ** Weather data *)

(** X17.  [fetch_weather_data] returns something other than [None] only
    when the decoded body is a non-empty list whose first element is an
    object; for such a body it returns the object's [lastData], and the
    empty dictionary, not [None], when the object has no [lastData]. *)
Theorem X17_weather_data_comes_from_the_first_device (r : http_result) :
  (fetch_weather_data r <> PNone ->
   exists d rest, r = Loaded (PList (PDict d :: rest)))
  /\ (forall d rest,
        r = Loaded (PList (PDict d :: rest)) ->
        fetch_weather_data r
        = match dict_get "lastData" d with
          | Some last_data => last_data
          | None => PDict []
          end).
Proof.
  split.
  - unfold fetch_weather_data. destruct r as [data|]; simpl; [|congruence].
    destruct data as [|b|z|f|str|l|d]; simpl.
    + congruence.
    + destruct b; congruence.
    + destruct (negb (Z.eqb z 0)); congruence.
    + destruct (negb (float_is_zero f)); congruence.
    + destruct str as [|c str]; simpl; congruence.
    + destruct l as [|first rest]; [congruence|]. simpl.
      destruct first; simpl; try congruence. eauto.
    + destruct d as [|kv d]; simpl; congruence.
  - intros d rest ->. reflexivity.
Qed.

(** ** The wind sector *)

Lemma sector_in_range (z : Z) :
  exists name, nth_error directions (Z.to_nat (z mod 16)) = Some name.
Proof.
  assert (Hlt : Z.to_nat (z mod 16) < List.length directions).
  { pose proof (Z.mod_pos_bound z 16 ltac:(lia)). simpl. lia. }
  destruct (nth_error directions (Z.to_nat (z mod 16))) as [name|] eqn:E;
    [eauto|].
  apply nth_error_None in E. lia.
Qed.

Lemma wind_sector_raises wind_dir :
  wind_sector wind_dir = None <->
  as_float wind_dir = None
  \/ exists x, as_float wind_dir = Some x
               /\ is_finite ((x + 11.25) / 22.5)%float = false.
Proof.
  unfold wind_sector. destruct (as_float wind_dir) as [x|].
  - destruct (int_of_float ((x + 11.25) / 22.5)%float) as [sector|] eqn:E.
    + split; [discriminate|]. intros [Hx|(x' & [= <-] & Hx)]; [discriminate|].
      apply int_of_float_raises in Hx. congruence.
    + split; [|reflexivity]. intros _. right. exists x.
      split; [reflexivity|now apply int_of_float_raises].
  - split; [now left|reflexivity].
Qed.

(** On whole degrees from 0 to 719 the binary64 computation gives the
    sector of exact arithmetic: checked by running it on each of them. *)
Lemma compass_on_degrees z :
  (0 <= z < 720)%Z ->
  wind_compass (PInt z) = nth_error directions (Z.to_nat (sector_of_degrees z)).
Proof.
  intros Hz.
  assert (Hall : forallb compass_agrees (map Z.of_nat (seq 0 720)) = true)
    by (vm_compute; reflexivity).
  rewrite forallb_forall in Hall.
  assert (Hin : In z (map Z.of_nat (seq 0 720))).
  { apply in_map_iff. exists (Z.to_nat z). split; [lia|]. apply in_seq. lia. }
  specialize (Hall z Hin). unfold compass_agrees in Hall.
  destruct (wind_compass (PInt z)) as [computed|]; [|discriminate].
  destruct (nth_error directions _) as [name|]; [|discriminate].
  apply String.eqb_eq in Hall. now subst.
Qed.

Lemma sector_of_degrees_period z :
  sector_of_degrees (z + 360) = sector_of_degrees z.
Proof.
  unfold sector_of_degrees.
  replace (4 * (z + 360) + 45)%Z with (4 * z + 45 + 16 * 90)%Z by lia.
  rewrite Z.div_add by lia.
  rewrite <- (Z.add_mod_idemp_r _ 16) by lia.
  replace (16 mod 16)%Z with 0%Z by reflexivity.
  now rewrite Z.add_0_r.
Qed.

(** X18.  The compass name of a wind direction, as computed for the
    weather image ([wind_compass]) and for the dashboard ([wc]).  A
    direction that is not a number gives ['--'] on the weather image and
    [''] on the dashboard.  For a number the expression
    [int((wind_dir + 11.25) / 22.5) % 16] either raises, and it does so
    exactly when the integer is too large for a float or the quotient is
    not finite, or gives an index at which the table of sixteen names has
    an entry, so the lookup itself never fails.  On whole degrees from 0
    to 719 the name is that of the sector [(4 z + 45) div 90 mod 16], and
    so the names of 0 to 359 repeat on 360 to 719. *)
Theorem X18_wind_compass (wind_dir : pyval) :
  (is_number wind_dir = false ->
   wind_compass wind_dir = Some "--" /\ wc wind_dir = Some EmptyString)
  /\ (is_number wind_dir = true ->
      (forall sector,
         wind_sector wind_dir = Some sector ->
         exists name,
           nth_error directions (Z.to_nat sector) = Some name
           /\ In name directions
           /\ wind_compass wind_dir = Some name
           /\ wc wind_dir = Some name)
      /\ (wind_sector wind_dir = None ->
          wind_compass wind_dir = None /\ wc wind_dir = None))
  /\ (wind_sector wind_dir = None <->
      as_float wind_dir = None
      \/ exists x, as_float wind_dir = Some x
                   /\ is_finite ((x + 11.25) / 22.5)%float = false)
  /\ (forall z, (0 <= z < 720)%Z ->
        wind_compass (PInt z)
        = nth_error directions (Z.to_nat (sector_of_degrees z)))
  /\ (forall z, (0 <= z < 360)%Z ->
        wind_compass (PInt (z + 360)) = wind_compass (PInt z)).
Proof.
  split; [|split; [|split; [|split]]].
  - intros Hnum. unfold wind_compass, wc, compass. now rewrite Hnum.
  - intros Hnum. unfold wind_compass, wc, compass. rewrite Hnum. split.
    + intros sector Hsector. rewrite Hsector.
      assert (Hmod : exists q, sector = (q mod 16)%Z).
      { unfold wind_sector in Hsector.
        destruct (as_float wind_dir) as [x|]; [|discriminate].
        destruct (int_of_float _) as [q|]; [|discriminate].
        injection Hsector as <-. now exists q. }
      destruct Hmod as [q ->].
      destruct (sector_in_range q) as [name Hname].
      exists name. split; [exact Hname|].
      split; [now apply nth_error_In in Hname|now split].
    + intros Hnone. now rewrite Hnone.
  - apply wind_sector_raises.
  - apply compass_on_degrees.
  - intros z Hz. rewrite !compass_on_degrees by lia.
    now rewrite sector_of_degrees_period.
Qed.

(** The statement above, at example inputs: 370 and 10 degrees are both
    north, 225.0 is south-west, a string has no name, an integer of 401
    digits cannot be converted, and beyond 2^53 neighbouring integers are
    no longer told apart, so that the period of 360 is lost. *)
Lemma X18_wind_compass_witness :
  wind_compass (PInt 370) = Some "N"
  /\ wind_compass (PInt 10) = Some "N"
  /\ wind_compass (PFloat 225%float) = Some "SW"
  /\ wind_compass (PStr "north") = Some "--"
  /\ wc (PStr "north") = Some EmptyString
  /\ wind_compass (PInt (10 ^ 400)) = None
  /\ wind_compass (PFloat nan) = None
  /\ wind_compass (PInt (2 ^ 60)) = Some "S"
  /\ wind_compass (PInt (2 ^ 60 + 360)) = Some "N".
Proof.
  destruct (X18_wind_compass (PInt 10)) as (_ & _ & _ & _ & Hperiod).
  split.
  { change (PInt 370) with (PInt (10 + 360)).
    rewrite (Hperiod 10%Z) by lia. reflexivity. }
  repeat split; vm_compute; reflexivity.
Defined.

(** ** HTTP handlers *)

(** X19.  For every reachable state: [GET /api/aircraft] answers with the
    stored list, a count equal to its length and at most 50, and a
    [last_update] of 0 with an empty list when the aircraft were never
    fetched; [GET /api/sdr] answers with at most 10 log lines.  Neither
    route depends on the distance computation.  A path other than the four
    routes is answered 404. *)
Theorem X19_get_routes `{PyRuntime} (s : state) (path : string)
    (distance : option float) (clock : Q) :
  reachable s ->
  (path = "/api/aircraft" ->
   exists count stamp,
     do_GET path distance clock s = SentJson (AircraftView (aircraft s) count stamp)
     /\ count = List.length (aircraft s) /\ count <= 50
     /\ (last_update s !! "aircraft" = None -> stamp = 0%Q /\ aircraft s = []))
  /\ (path = "/api/sdr" ->
      exists stamp,
        do_GET path distance clock s
        = SentJson (SdrView (sdr_status s) (sdr_log s) stamp)
        /\ List.length (sdr_log s) <= 10)
  /\ (path <> "/api/status" -> path <> "/api/iss" ->
      path <> "/api/aircraft" -> path <> "/api/sdr" ->
      do_GET path distance clock s = SentError 404 "Not Found").
Proof.
  intros Hreach. split; [|split].
  - intros ->. exists (List.length (aircraft s)), (last_update_get "aircraft" s).
    split; [reflexivity|]. split; [reflexivity|]. split.
    + now apply reachable_aircraft_length.
    + intros Hnone. split.
      * unfold last_update_get. now rewrite Hnone.
      * now apply reachable_aircraft_fresh.
  - intros ->. exists (last_update_get "sdr" s). split; [reflexivity|].
    now apply reachable_sdr_log_bounded.
  - intros H1 H2 H3 H4. unfold do_GET.
    rewrite !(proj2 (String.eqb_neq _ _)) by assumption. reflexivity.
Qed.

(** The statement above, at the example inputs. *)
Lemma X19_get_routes_witness :
  do_GET "/api/aircraft" None 5 busy_state
  = SentJson (AircraftView (aircraft busy_state) 49 4)
  /\ do_GET "/favicon.ico" None 5 busy_state = SentError 404 "Not Found".
Proof.
  assert (Hreach : @reachable decimal_runtime busy_state)
    by (apply reach_aircraft, reach_sdr, reach_crew, reach_position,
          reach_initial).
  destruct (@X19_get_routes decimal_runtime busy_state "/api/aircraft" None 5
              Hreach) as [Hair _].
  destruct (@X19_get_routes decimal_runtime busy_state "/favicon.ico" None 5
              Hreach) as (_ & _ & Hother).
  split.
  - destruct (Hair eq_refl) as (count & stamp & E & _). reflexivity.
  - apply Hother; discriminate.
Defined.

Lemma send_push_result push ex :
  (forall ex', push_result (snd (push ex'))) ->
  exists result, snd (send_push push ex) = SentJson result /\ push_result result.
Proof.
  intros Hpush. unfold send_push. specialize (Hpush ex).
  destruct (push ex) as [tr result]. simpl in *. eauto.
Qed.

(** X20.  [do_POST] answers a path other than the three push routes with
    404.  On a push route an exception leaves the handler exactly when the
    image generator that the route calls raises: the dashboard generator
    on the dashboard route, the weather generator on the weather route
    once weather data was fetched; the satellite route lets nothing out.
    Whenever no exception leaves the handler on a push route, it sends a
    JSON body of one of the two push forms.  It runs no remote command on
    an unknown path, when a generator raises or returns no image, and when
    no weather data could be fetched. *)
Theorem X20_post_routes (path : string) (weather_resp : http_result)
    (render : renderers) (ex : Exec) :
  let weather := fetch_weather_data weather_resp in
  let answer := do_POST path weather_resp render ex in
  (path <> "/api/push/satellite" -> path <> "/api/push/dashboard" ->
   path <> "/api/push/weather" ->
   answer = ([], SentError 404 "Not Found"))
  /\ (snd answer = Escaped <->
      (path = "/api/push/dashboard"
       /\ exists msg, generate_dashboard_image render = Raised msg)
      \/ (path = "/api/push/weather" /\ weather <> PNone
          /\ exists msg, generate_weather_image render weather = Raised msg))
  /\ (path = "/api/push/satellite" \/ path = "/api/push/dashboard"
      \/ path = "/api/push/weather" ->
      snd answer <> Escaped ->
      exists result, snd answer = SentJson result /\ push_result result)
  /\ (snd answer = Escaped -> fst answer = [])
  /\ (path = "/api/push/dashboard" ->
      generate_dashboard_image render = Returned None ->
      answer = ([], SentJson (failure
                   "Could not generate dashboard image (Pillow missing?)")))
  /\ (path = "/api/push/weather" -> weather = PNone ->
      answer = ([], SentJson (failure "Could not fetch weather data")))
  /\ (path = "/api/push/weather" -> weather <> PNone ->
      generate_weather_image render weather = Returned None ->
      answer = ([], SentJson (failure
                   "Could not generate weather image (Pillow missing?)"))).
Proof.
  cbv zeta.
  assert (Hsend : forall push,
            (forall ex', push_result (snd (push ex'))) ->
            snd (send_push push ex) <> Escaped).
  { intros push Hpush. destruct (send_push_result push ex Hpush) as (r & -> & _).
    discriminate. }
  assert (Hnone : forall v, is_none v = false <-> v <> PNone).
  { intros v. destruct v; simpl; split; intros; congruence. }
  split; [|split; [|split; [|split; [|split; [|split]]]]].
  - intros H1 H2 H3. unfold do_POST.
    rewrite !(proj2 (String.eqb_neq _ _)) by assumption. reflexivity.
  - unfold do_POST.
    destruct (String.eqb_spec path "/api/push/satellite") as [->|Hs].
    { split.
      - intros E. now apply (Hsend _ push_satellite_image_result) in E.
      - intros [[Hp _]|[Hp _]]; discriminate Hp. }
    destruct (String.eqb_spec path "/api/push/dashboard") as [->|Hd].
    { destruct (generate_dashboard_image render) as [[img|]|msg]; simpl; split.
      - intros E. now apply (Hsend _ (push_to_epaper_result img)) in E.
      - intros [[_ [m Hm]]|[Hp _]]; discriminate.
      - discriminate.
      - intros [[_ [m Hm]]|[Hp _]]; discriminate.
      - intros _. left. split; [reflexivity|now exists msg].
      - reflexivity. }
    destruct (String.eqb_spec path "/api/push/weather") as [->|Hw].
    { destruct (is_none (fetch_weather_data weather_resp)) eqn:Ew.
      { split; [discriminate|].
        intros [[Hp _]|(_ & Hgot & _)]; [discriminate|].
        apply Hnone in Hgot. congruence. }
      apply Hnone in Ew.
      destruct (generate_weather_image render _) as [[img|]|msg] eqn:Eg;
        simpl; split.
      - intros E. now apply (Hsend _ (push_to_epaper_result img)) in E.
      - intros [[Hp _]|(_ & _ & m & Hm)]; discriminate.
      - discriminate.
      - intros [[Hp _]|(_ & _ & m & Hm)]; discriminate.
      - intros _. right. split; [reflexivity|]. split; [exact Ew|now exists msg].
      - reflexivity. }
    simpl. split; [discriminate|].
    intros [[Hp _]|[Hp _]]; contradiction.
  - intros [Hp|[Hp|Hp]] Hesc; subst path; unfold do_POST in *; simpl in *.
    + apply send_push_result, push_satellite_image_result.
    + destruct (generate_dashboard_image render) as [[img|]|msg].
      * apply send_push_result, push_to_epaper_result.
      * eexists. split; [reflexivity|apply failure_is_push_result].
      * now contradiction Hesc.
    + destruct (is_none (fetch_weather_data weather_resp)).
      * eexists. split; [reflexivity|apply failure_is_push_result].
      * destruct (generate_weather_image render _) as [[img|]|msg].
        -- apply send_push_result, push_to_epaper_result.
        -- eexists. split; [reflexivity|apply failure_is_push_result].
        -- now contradiction Hesc.
  - unfold do_POST.
    destruct (String.eqb path "/api/push/satellite").
    { intros E. now apply (Hsend _ push_satellite_image_result) in E. }
    destruct (String.eqb path "/api/push/dashboard").
    { destruct (generate_dashboard_image render) as [[img|]|msg]; simpl;
        try discriminate; trivial.
      intros E. now apply (Hsend _ (push_to_epaper_result img)) in E. }
    destruct (String.eqb path "/api/push/weather"); [|discriminate].
    destruct (is_none (fetch_weather_data weather_resp)); [discriminate|].
    destruct (generate_weather_image render _) as [[img|]|msg]; simpl;
      try discriminate; trivial.
    intros E. now apply (Hsend _ (push_to_epaper_result img)) in E.
  - intros -> Hgen. unfold do_POST. simpl. now rewrite Hgen.
  - intros -> Hw. unfold do_POST. simpl. now rewrite Hw.
  - intros -> Hw Hgen. unfold do_POST. simpl.
    apply Hnone in Hw. now rewrite Hw, Hgen.
Qed.

(** The statement above, at example inputs: an unknown path; the weather
    route without weather data; and the weather route when the generator
    raises on the data that was fetched. *)
Lemma X20_post_routes_witness :
  do_POST "/api/push" HttpRaised no_pillow all_denied
  = ([], SentError 404 "Not Found")
  /\ do_POST "/api/push/weather" HttpRaised no_pillow all_denied
     = ([], SentJson (failure "Could not fetch weather data"))
  /\ fetch_weather_data (Loaded station_without_data) = PStr "offline"
  /\ do_POST "/api/push/weather" (Loaded station_without_data) strict_renderers
       all_denied
     = ([], Escaped).
Proof.
  destruct (X20_post_routes "/api/push" HttpRaised no_pillow all_denied)
    as (Hother & _).
  destruct (X20_post_routes "/api/push/weather" HttpRaised no_pillow all_denied)
    as (_ & _ & _ & _ & _ & Hweather & _).
  destruct (X20_post_routes "/api/push/weather" (Loaded station_without_data)
              strict_renderers all_denied)
    as (_ & Hescaped & _ & Hquiet & _).
  cbv zeta in *.
  split; [apply Hother; discriminate|].
  split; [apply Hweather; reflexivity|].
  split; [reflexivity|].
  assert (E : snd (do_POST "/api/push/weather" (Loaded station_without_data)
                     strict_renderers all_denied) = Escaped).
  { apply Hescaped. right. split; [reflexivity|]. split; [discriminate|].
    exists "'str' object has no attribute 'get'". reflexivity. }
  specialize (Hquiet E).
  destruct (do_POST "/api/push/weather" (Loaded station_without_data)
              strict_renderers all_denied) as [tr resp].
  simpl in *. now subst.
Defined.

(** ** Fields no update writes *)

(** X21.  In every reachable state the keys [alt], [velocity] and
    [visibility] of [state['iss']] still hold what [state] was initialised
    with, 0, 0 and the empty string: no update assigns to them. *)
Theorem X21_iss_extras_are_never_written `{PyRuntime} (s : state) :
  reachable s ->
  iss_alt (iss s) = PInt 0
  /\ iss_velocity (iss s) = PInt 0
  /\ iss_visibility (iss s) = EmptyString.
Proof.
  revert s. apply reachable_invariant; simpl; auto.
Qed.

(** The statement above, at the example inputs. *)
Lemma X21_iss_extras_are_never_written_witness :
  iss_alt (iss busy_state) = PInt 0
  /\ iss_velocity (iss busy_state) = PInt 0
  /\ iss_visibility (iss busy_state) = EmptyString.
Proof.
  apply (@X21_iss_extras_are_never_written decimal_runtime).
  apply reach_aircraft, reach_sdr, reach_crew, reach_position, reach_initial.
Defined.

(** ** An aircraft refresh is all or nothing *)

Lemma collect_stops_at vectors v :
  In v vectors ->
  has_position v = None
  \/ (has_position v = Some true /\ aircraft_record v = None) ->
  collect vectors = None.
Proof.
  induction vectors as [|x rest IH]; intros Hin Hbad; [destruct Hin|].
  simpl. destruct Hin as [->|Hin].
  - destruct Hbad as [->|[-> ->]]; reflexivity.
  - rewrite (IH Hin Hbad).
    destruct (has_position x) as [[|]|]; trivial.
    now destruct (aircraft_record x).
Qed.

(** X22.  A refresh of the aircraft list replaces it wholesale or leaves
    it alone.  When [states] is missing, [null] or an empty list, the
    stored list is emptied and the fetch is stamped.  When one of the first
    50 state vectors cannot be read (it is too short to have entries 5 and
    6, or it has a position but building its record raises), nothing is
    stored: the state stays as it was. *)
Theorem X22_aircraft_refresh_is_all_or_nothing (d : list (string * pyval))
    (t : Q) (s : state) :
  (get_method (PDict d) "states" = Some PNone
   \/ get_method (PDict d) "states" = Some (PList []) ->
   update_aircraft (Loaded (PDict d)) t s = stamp "aircraft" t (set_aircraft [] s))
  /\ (forall vectors v,
        dict_get "states" d = Some (PList vectors) ->
        In v (firstn 50 vectors) ->
        has_position v = None
        \/ (has_position v = Some true /\ aircraft_record v = None) ->
        update_aircraft (Loaded (PDict d)) t s = s).
Proof.
  split.
  - intros Hstates.
    unfold update_aircraft, try_except, aircraft_try, parse_aircraft; run_body.
    destruct Hstates as [-> | ->]; reflexivity.
  - intros vectors v Hd Hin Hbad.
    unfold update_aircraft, try_except, aircraft_try; run_body.
    rewrite (parse_aircraft_states d vectors Hd).
    now rewrite (collect_stops_at _ v Hin Hbad).
Qed.

(** The statement above, at the example inputs. *)
Lemma X22_aircraft_refresh_is_all_or_nothing_witness :
  aircraft (update_aircraft (Loaded (PDict [("time", PInt 1700000000);
                                             ("states", PNone)]))
              9 busy_state) = []
  /\ update_aircraft (Loaded (opensky [vector (PInt 29); PList [PStr "a1b2c3"]]))
       9 busy_state = busy_state.
Proof.
  destruct (X22_aircraft_refresh_is_all_or_nothing
              [("time", PInt 1700000000); ("states", PNone)] 9 busy_state)
    as [Hempty _].
  destruct (X22_aircraft_refresh_is_all_or_nothing
              [("time", PInt 1700000000);
               ("states", PList [vector (PInt 29); PList [PStr "a1b2c3"]])]
              9 busy_state)
    as [_ Hbad].
  split.
  - rewrite Hempty by (left; reflexivity). reflexivity.
  - apply (Hbad [vector (PInt 29); PList [PStr "a1b2c3"]] (PList [PStr "a1b2c3"])).
    + reflexivity.
    + right. left. reflexivity.
    + left. reflexivity.
Defined.

(** * Distance to the ISS ground track *)

Section DistanceFacts.
Context `{PyMath}.

Lemma haversine_self lat lon :
  exact_at_zero ->
  within 90 (PFloat lat) = true -> within 180 (PFloat lon) = true ->
  haversine lat lon lat lon = Some 0%float.
Proof.
  intros (Hsin & Hpow & Hatan & Hcos) Hlat Hlon.
  assert (Flat : is_finite (math_radians lat) = true)
    by (apply radians_finite; now left).
  assert (Flon : is_finite (math_radians lon) = true)
    by (apply radians_finite; now right).
  destruct (Hcos _ Flat) as (c & Ec & Hc).
  unfold haversine, haversine_term.
  rewrite (sub_self _ Flat), (sub_self _ Flon).
  change (0 / 2)%float with 0%float.
  rewrite Hsin, Hpow, Ec.
  assert (Hcc : small 971 (Prim2SF (c * c))).
  { apply (mul_small c c (-52) (-52)); try lia;
      now apply (within_small 1 c 4503599627370496 (-52)). }
  destruct (mul_zero_r _ _ Hcc) as [s Hz].
  rewrite (add_zero_l _ s Hz).
  unfold central_angle.
  change (math_sqrt 0) with (Some 0%float).
  change (1 - 0)%float with 1%float.
  change (math_sqrt 1) with (Some 1%float).
  cbv iota beta. rewrite Hatan. reflexivity.
Qed.

Lemma half_sine_squared_sym d d' :
  symmetric_math ->
  d = (- d')%float \/ d = d' ->
  (s <-? math_sin (d / 2)%float ;; float_pow s 2)
  = (s <-? math_sin (d' / 2)%float ;; float_pow s 2).
Proof.
  intros [Hodd Heven] [-> | ->]; [|reflexivity].
  rewrite div_opp, Hodd. destruct (math_sin (d' / 2)) as [v|]; [|reflexivity].
  simpl. apply Heven.
Qed.

Lemma haversine_term_sym lat1 lon1 lat2 lon2 :
  symmetric_math ->
  haversine_term lat1 lon1 lat2 lon2 = haversine_term lat2 lon2 lat1 lon1.
Proof.
  intros Hsym. unfold haversine_term.
  pose proof (half_sine_squared_sym _ _ Hsym (sub_antisym lat2 lat1)) as Elat.
  pose proof (half_sine_squared_sym _ _ Hsym (sub_antisym lon2 lon1)) as Elon.
  cbv zeta.
  destruct (math_sin ((lat2 - lat1) / 2)) as [s1|],
           (math_sin ((lat1 - lat2) / 2)) as [s1'|]; simpl in Elat.
  - rewrite Elat. destruct (float_pow s1' 2) as [p1|]; [|reflexivity].
    destruct (math_cos lat1) as [c1|], (math_cos lat2) as [c2|]; try reflexivity.
    destruct (math_sin ((lon2 - lon1) / 2)) as [s2|],
             (math_sin ((lon1 - lon2) / 2)) as [s2'|]; simpl in Elon.
    + rewrite Elon. destruct (float_pow s2' 2) as [p2|]; [|reflexivity].
      now rewrite (mul_comm c1 c2).
    + now rewrite Elon.
    + now rewrite <- Elon.
    + reflexivity.
  - now rewrite Elat.
  - now rewrite <- Elat.
  - reflexivity.
Qed.

Lemma haversine_sym lat1 lon1 lat2 lon2 :
  symmetric_math ->
  haversine lat1 lon1 lat2 lon2 = haversine lat2 lon2 lat1 lon1.
Proof.
  intros Hsym. unfold haversine. now rewrite haversine_term_sym.
Qed.

Lemma central_angle_raises a :
  (1 - a <? 0)%float = true -> central_angle a = None.
Proof.
  intros Hneg. unfold central_angle.
  rewrite (math_sqrt_negative _ Hneg). now destruct (math_sqrt a).
Qed.

(** A library that returns at five arguments what CPython on glibc
    returns there makes the rounded [a] of the example exceed 1. *)
Lemma antipode_term_exceeds_one :
  math_sin (-1.5179791729710441)%float = Some (-0.9986054983573573)%float ->
  float_pow (-0.9986054983573573)%float 2 = Some 0.9972129413495461%float ->
  math_cos 1.5179791729710441%float = Some 0.052792600338059166%float ->
  math_cos (-1.5179791729710441)%float = Some 0.052792600338059166%float ->
  math_sin 1.5707963267948966%float = Some 1%float ->
  float_pow 1 2 = Some 1%float ->
  haversine_term (math_radians 86.9738) (math_radians (-73.2269))
    (math_radians (-86.9738)) (math_radians 106.7731)
  = Some 1.0000000000000002%float.
Proof.
  intros Hs1 Hp1 Hc1 Hc2 Hs2 Hp2. unfold haversine_term. cbv zeta.
  change ((math_radians (-86.9738) - math_radians 86.9738) / 2)%float
    with (-1.5179791729710441)%float.
  change ((math_radians 106.7731 - math_radians (-73.2269)) / 2)%float
    with 1.5707963267948966%float.
  change (math_radians 86.9738) with 1.5179791729710441%float.
  change (math_radians (-86.9738)) with (-1.5179791729710441)%float.
  rewrite Hs1, Hp1, Hc1, Hc2, Hs2, Hp2. reflexivity.
Qed.

End DistanceFacts.

(** The stored position converts to floats without raising. *)
Lemma reachable_position_converts `{PyRuntime} (s : state) :
  reachable s ->
  exists lat lon,
    as_float (iss_lat (iss s)) = Some lat /\ as_float (iss_lon (iss s)) = Some lon.
Proof.
  revert s. apply reachable_invariant; simpl; eauto.
  intros s la (lat & lon & _ & Hlon). eauto.
Qed.

(** *** The library of the examples meets the assumptions *)

Lemma opp_involutive x : (- - x)%float = x.
Proof. apply Prim2SF_inj. rewrite !opp_spec. apply SFopp_involutive. Qed.

Lemma tabulated_key table y v :
  tabulated table y = Some v ->
  exists k, In (k, v) table /\ (k =? y)%float = true.
Proof.
  induction table as [|[k w] rest IH]; simpl; [discriminate|].
  destruct (k =? y)%float eqn:E.
  - intros [= <-]. exists k. split; [now left|exact E].
  - intros Hv. destruct (IH Hv) as (k' & Hin & Hk). eauto.
Qed.

(** A float whose absolute value equals a positive key is negative
    exactly when its opposite is not. *)
Lemma sign_at_key k x :
  positive_key k = true -> (k =? abs x)%float = true ->
  (- x <? 0)%float = negb (x <? 0)%float.
Proof.
  unfold positive_key. rewrite FloatAxioms.eqb_spec, abs_spec, !ltb_spec, opp_spec.
  change (Prim2SF 0) with (S754_zero false). unfold SFeqb, SFltb.
  destruct (Prim2SF k) as [| | |[|] mk ek]; try discriminate. intros _.
  destruct (Prim2SF x) as [s|s| |s m e]; simpl; try discriminate.
  now destruct s.
Qed.

Lemma odd_extension_odd table x :
  forallb (fun kv => positive_key (fst kv)) table = true ->
  odd_extension table (- x) = (- odd_extension table x)%float.
Proof.
  intros Hkeys. unfold odd_extension. rewrite abs_opp.
  destruct (tabulated table (abs x)) as [v|] eqn:E; [|reflexivity].
  destruct (tabulated_key _ _ _ E) as (k & Hin & Hk).
  rewrite forallb_forall in Hkeys. specialize (Hkeys _ Hin).
  rewrite (sign_at_key k x Hkeys Hk).
  destruct (x <? 0)%float; simpl; [now rewrite opp_involutive|reflexivity].
Qed.

Lemma even_extension_even table otherwise x :
  even_extension table otherwise (- x) = even_extension table otherwise x.
Proof. unfold even_extension. now rewrite abs_opp. Qed.

Lemma cos_table_bounded x :
  within 1 (PFloat (even_extension cos_table (fun _ => 1%float) x)) = true.
Proof.
  unfold even_extension, cos_table, tabulated.
  repeat match goal with
         | |- context [if ?b then _ else _] => destruct b
         end; reflexivity.
Qed.

Lemma glibc_sample_exact : @exact_at_zero glibc_sample.
Proof.
  repeat split; try reflexivity. intros x _.
  eexists. split; [reflexivity|apply cos_table_bounded].
Qed.

Lemma glibc_sample_symmetric : @symmetric_math glibc_sample.
Proof.
  split; intros x; simpl.
  - now rewrite odd_extension_odd.
  - now rewrite even_extension_even.
Qed.



